(** * Expense-log converter: a shallow embedding of [convert.py]

    The development follows the layout of the program:
    - [Py]        : the exception/result discipline of the interpreter;
    - [PyStr]     : the [str] methods the program calls ([split], [replace], [strip]);
    - [PyInt]     : [int(str)];
    - [PyDecimal] : [decimal.Decimal] construction and multiplication under the
                    default context;
    - [PyDatetime]: [datetime] construction, comparison, [astimezone], [isoformat];
    - [Json]      : [json.dumps(..., indent=2)];
    - [PyCsv]     : [csv.reader] over a file opened in text mode;
    - [Convert]   : the classes [Category], [Transaction], [Transactions], the
                    function [parse_expense_log] and the main block of the
                    program itself.

    Python strings are modelled as [string]; a character is a code point below 256. *)

From stdpp Require Import gmap strings list.
From Stdlib Require Import ZArith Lia Ascii QArith Qpower.

Local Open Scope Z_scope.

(** ** Exceptions and results *)
Module Py.

(** The exceptions the program can meet.  [InvalidOperation] and [DecimalOverflow]
    are the two signals of the [decimal] module that the default context traps.
    [Dangling] has no Python counterpart: it is what the model answers when a
    reference points outside the object store, which no Python value can do. *)
Inductive exn : Type :=
  | ValueError
  | IndexError
  | KeyError
  | TypeError
  | OverflowError
  | AssertionError
  | InvalidOperation
  | DecimalOverflow
  | Dangling.

#[global] Instance exn_eq_dec : EqDecision exn.
Proof. solve_decision. Defined.

Inductive result (A : Type) : Type :=
  | Ok (a : A)
  | Raise (e : exn).
Arguments Ok {A} a.
Arguments Raise {A} e.

Definition bind {A B} (m : result A) (k : A -> result B) : result B :=
  match m with
  | Ok a => k a
  | Raise e => Raise e
  end.

Definition is_ok {A} (m : result A) : bool :=
  match m with Ok _ => true | Raise _ => false end.

End Py.
Export Py.

#[global] Instance result_ret : MRet result := fun _ a => Ok a.
#[global] Instance result_bind : MBind result := fun _ _ k m => Py.bind m k.


(** ** [str] methods *)
Module PyStr.
Local Open Scope string_scope.
Local Open Scope Z_scope.

Definition code (c : ascii) : Z := Z.of_N (N_of_ascii c).

Definition is_digit (c : ascii) : bool := (48 <=? code c) && (code c <=? 57).

Definition digit_value (c : ascii) : Z := code c - 48.

(** [s.split(sep)] for a separator of one character. *)
Fixpoint split (sep : ascii) (s : string) : list string :=
  match s with
  | "" => [""]
  | String c r =>
      if Ascii.eqb c sep then "" :: split sep r
      else match split sep r with
           | p :: ps => String c p :: ps
           | [] => [String c ""]
           end
  end.

(** [Some rest] when [s = p ++ rest]. *)
Fixpoint strip_prefix (p s : string) : option string :=
  match p, s with
  | "", _ => Some s
  | String a p', String b s' => if Ascii.eqb a b then strip_prefix p' s' else None
  | String _ _, "" => None
  end.

(** The scan of [s.replace(old, new)] for a non-empty [old]: leftmost
    occurrences, never overlapping. *)
Fixpoint replace_scan (fuel : nat) (old new s : string) : string :=
  match fuel with
  | O => s
  | S fuel' =>
      match strip_prefix old s with
      | Some rest => new ++ replace_scan fuel' old new rest
      | None =>
          match s with
          | "" => ""
          | String c r => String c (replace_scan fuel' old new r)
          end
      end
  end.

Fixpoint intersperse (new s : string) : string :=
  match s with
  | "" => new
  | String c r => new ++ String c (intersperse new r)
  end.

(** [s.replace(old, new)]; with an empty [old], [new] goes between all
    characters and at both ends. *)
Definition replace (old new s : string) : string :=
  match old with
  | "" => intersperse new s
  | _ => replace_scan (S (String.length s)) old new s
  end.

(** [Py_UNICODE_ISSPACE] on code points below 256. *)
Definition is_space (c : ascii) : bool :=
  let n := code c in
  ((9 <=? n) && (n <=? 13)) || ((28 <=? n) && (n <=? 32)) || (n =? 133) || (n =? 160).

Fixpoint lstrip_by (f : ascii -> bool) (s : string) : string :=
  match s with
  | "" => ""
  | String c r => if f c then lstrip_by f r else s
  end.

Fixpoint rstrip_by (f : ascii -> bool) (s : string) : string :=
  match s with
  | "" => ""
  | String c r =>
      match rstrip_by f r with
      | "" => if f c then "" else String c ""
      | r' => String c r'
      end
  end.

Definition strip_by (f : ascii -> bool) (s : string) : string :=
  lstrip_by f (rstrip_by f s).

(** [s.strip()] *)
Definition strip (s : string) : string := strip_by is_space s.

Definition lower (c : ascii) : ascii :=
  let n := code c in
  if (65 <=? n) && (n <=? 90) then ascii_of_N (Z.to_N (n + 32)) else c.

Fixpoint lower_str (s : string) : string :=
  match s with
  | "" => ""
  | String c r => String (lower c) (lower_str r)
  end.

(** The longest prefix of digits, and what follows it. *)
Fixpoint span_digits (s : string) : string * string :=
  match s with
  | "" => ("", "")
  | String c r =>
      if is_digit c then let '(d, rest) := span_digits r in (String c d, rest)
      else ("", s)
  end.

(** The number a string of digits denotes, most significant digit first. *)
Fixpoint digits_value_from (acc : N) (s : string) : N :=
  match s with
  | "" => acc
  | String c r => digits_value_from (acc * 10 + Z.to_N (digit_value c))%N r
  end.

Definition digits_value (s : string) : N := digits_value_from 0%N s.

Fixpoint all_digits (s : string) : bool :=
  match s with
  | "" => true
  | String c r => is_digit c && all_digits r
  end.

Fixpoint count_char (x : ascii) (s : string) : nat :=
  match s with
  | "" => O
  | String c r => ((if Ascii.eqb c x then 1 else 0) + count_char x r)%nat
  end.

Definition digit_char (n : N) : ascii := ascii_of_N (48 + n).

Fixpoint str_of_N_fuel (fuel : nat) (n : N) (acc : string) : string :=
  match fuel with
  | O => acc
  | S fuel' =>
      let acc' := String (digit_char (n mod 10)) acc in
      if (n <? 10)%N then acc' else str_of_N_fuel fuel' (n / 10)%N acc'
  end.

(** [str(n)] for a natural number. *)
Definition str_of_N (n : N) : string :=
  str_of_N_fuel (S (N.to_nat (N.size n))) n "".

Fixpoint zeros (k : nat) : string :=
  match k with
  | O => ""
  | S k' => String "0" (zeros k')
  end.

Definition zfill (width : nat) (s : string) : string :=
  zeros (width - String.length s) ++ s.

(** ["%0<width>d" % n] *)
Definition fmt_d (width : nat) (n : Z) : string :=
  if n <? 0 then String "-" (zfill (width - 1) (str_of_N (Z.abs_N n)))
  else zfill width (str_of_N (Z.abs_N n)).

End PyStr.

(** ** [int(str)] *)
Module PyInt.
Import PyStr.
Local Open Scope string_scope.
Local Open Scope Z_scope.

(** What [int] skips at both ends: [Py_ISSPACE] on ASCII input, and the
    non-ASCII spaces that are first rewritten to a blank. *)
Definition is_int_space (c : ascii) : bool :=
  let n := code c in
  ((9 <=? n) && (n <=? 13)) || (n =? 32) || (n =? 133) || (n =? 160).

(** [sys.int_info.default_max_str_digits] *)
Definition max_str_digits : nat := 4300.

(** Digits with single underscores between them: the value read so far and the
    number of digits. *)
Fixpoint int_body (acc : Z) (ndig : nat) (after_digit : bool) (s : string)
  : option (Z * nat) :=
  match s with
  | "" => if after_digit then Some (acc, ndig) else None
  | String c r =>
      if is_digit c then int_body (acc * 10 + digit_value c) (S ndig) true r
      else if Ascii.eqb c "_" then
        if after_digit then int_body acc ndig false r else None
      else None
  end.

Definition int_unsigned (s : string) : result Z :=
  match int_body 0 O false s with
  | Some (v, n) => if (max_str_digits <? n)%nat then Raise ValueError else Ok v
  | None => Raise ValueError
  end.

(** [int(s)] in base 10. *)
Definition int (s : string) : result Z :=
  match strip_by is_int_space s with
  | String "+" r => int_unsigned r
  | String "-" r => v ← int_unsigned r; Ok (- v)
  | body => int_unsigned body
  end.

End PyInt.

(** ** [decimal.Decimal] *)
Module PyDecimal.
Import PyStr.
Local Open Scope string_scope.
Local Open Scope Z_scope.

(** A decimal number: sign, coefficient and exponent when finite; the
    coefficient is the integer that Python keeps as a string of digits. *)
Inductive Decimal : Type :=
  | Finite (sign : bool) (coeff : N) (exp : Z)
  | Infinity (sign : bool)
  | NaN (sign : bool) (signaling : bool) (payload : N).

#[global] Instance Decimal_eq_dec : EqDecision Decimal.
Proof. solve_decision. Defined.

(** The arithmetic context; rounding is [ROUND_HALF_EVEN], [clamp] is 0 and the
    trapped signals are [InvalidOperation], [DivisionByZero] and [Overflow], as
    in the context every thread starts with. *)
Record Context : Type := { prec : Z; Emax : Z; Emin : Z }.

Definition DefaultContext : Context :=
  {| prec := 28; Emax := 999999; Emin := -999999 |}.

Definition Etiny (ctx : Context) : Z := Emin ctx - prec ctx + 1.
Definition Etop (ctx : Context) : Z := Emax ctx - prec ctx + 1.

(** The limits of the C implementation on a 64-bit build. *)
Definition MAX_EMAX : Z := 999999999999999999.
Definition MIN_ETINY : Z := -1999999999999999997.

Fixpoint ndigits_fuel (fuel : nat) (n : N) : Z :=
  match fuel with
  | O => 1
  | S fuel' => if (n <? 10)%N then 1 else 1 + ndigits_fuel fuel' (n / 10)%N
  end.

(** [len(self._int)]: the number of decimal digits of the coefficient. *)
Definition ndigits (n : N) : Z := ndigits_fuel (N.to_nat (N.size n)) n.

Fixpoint remove_char (x : ascii) (s : string) : string :=
  match s with
  | "" => ""
  | String c r => if Ascii.eqb c x then remove_char x r else String c (remove_char x r)
  end.

Definition parse_sign (s : string) : bool * string :=
  match s with
  | String "-" r => (true, r)
  | String "+" r => (false, r)
  | _ => (false, s)
  end.

(** What may follow the mantissa: nothing, or [E], an optional sign and digits. *)
Definition parse_exponent (s : string) : option Z :=
  match s with
  | "" => Some 0
  | String c r =>
      if Ascii.eqb (lower c) "e" then
        let '(neg, ds) := parse_sign r in
        match ds with
        | "" => None
        | _ => if all_digits ds
               then Some (if neg then - Z.of_N (digits_value ds) else Z.of_N (digits_value ds))
               else None
        end
      else None
  end.

(** A number with at least one digit: coefficient and exponent. *)
Definition parse_number (s : string) : option (N * Z) :=
  let '(ip, r1) := span_digits s in
  let '(fp, r2) :=
    match r1 with
    | String "." r => span_digits r
    | _ => ("", r1)
    end in
  match ip, fp with
  | "", "" => None
  | _, _ =>
      match parse_exponent r2 with
      | Some e => Some (digits_value (ip ++ fp), e - Z.of_nat (String.length fp))
      | None => None
      end
  end.

Definition parse_nan (sign signaling : bool) (diag : string) : option Decimal :=
  if all_digits diag then Some (NaN sign signaling (digits_value diag)) else None.

(** [Inf], [Infinity], [NaN] and [sNaN] with diagnostic digits; [l] is in lower case. *)
Definition parse_special (sign : bool) (l : string) : option Decimal :=
  if decide (l = "inf" \/ l = "infinity") then Some (Infinity sign)
  else match strip_prefix "nan" l with
       | Some diag => parse_nan sign false diag
       | None =>
           match strip_prefix "snan" l with
           | Some diag => parse_nan sign true diag
           | None => None
           end
       end.

(** The constructor converts exactly or not at all: a number outside the
    widest context is refused. *)
Definition exact_in_max_context (c : N) (e : Z) : bool :=
  (MIN_ETINY <=? e) &&
  (if (c =? 0)%N then e <=? MAX_EMAX else e + ndigits c - 1 <=? MAX_EMAX).

(** [Decimal(s)] *)
Definition of_string (s : string) : result Decimal :=
  let '(sign, body) := parse_sign (remove_char "_" (strip s)) in
  match parse_number body with
  | Some (c, e) =>
      if exact_in_max_context c e then Ok (Finite sign c e) else Raise InvalidOperation
  | None =>
      match parse_special sign (lower_str body) with
      | Some d => Ok d
      | None => Raise InvalidOperation
      end
  end.

(** [Decimal(k)] for an integer. *)
Definition of_int (k : Z) : Decimal := Finite (k <? 0) (Z.abs_N k) 0.

(** [Decimal._fix]: round a finite result to the context. *)
Definition fix_finite (ctx : Context) (sign : bool) (c : N) (e : Z) : result Decimal :=
  if (c =? 0)%N then Ok (Finite sign 0 (Z.min (Z.max e (Etiny ctx)) (Emax ctx)))
  else
    let exp_min0 := ndigits c + e - prec ctx in
    if Etop ctx <? exp_min0 then Raise DecimalOverflow
    else
      let exp_min := Z.max exp_min0 (Etiny ctx) in
      if e <? exp_min then
        let p := (10 ^ Z.to_N (exp_min - e))%N in
        let q := (c / p)%N in
        let r := (c mod p)%N in
        let up := (p <? 2 * r)%N || ((2 * r =? p)%N && N.odd q) in
        let q' := if up then (q + 1)%N else q in
        let '(q'', exp') :=
          if up && (prec ctx <? ndigits q') then ((q' / 10)%N, exp_min + 1)
          else (q', exp_min) in
        if Etop ctx <? exp' then Raise DecimalOverflow
        else Ok (Finite sign q'' exp')
      else Ok (Finite sign c e).

(** [Decimal._fix_nan]: the payload keeps its last [prec] digits. *)
Definition fix_nan (ctx : Context) (sign : bool) (payload : N) : Decimal :=
  NaN sign false (payload mod 10 ^ Z.to_N (prec ctx))%N.

(** [a * b] ([Decimal.__mul__]) *)
Definition mul (ctx : Context) (a b : Decimal) : result Decimal :=
  match a, b with
  | NaN _ true _, _ => Raise InvalidOperation
  | _, NaN _ true _ => Raise InvalidOperation
  | NaN s false p, _ => Ok (fix_nan ctx s p)
  | _, NaN s false p => Ok (fix_nan ctx s p)
  | Infinity sa, Finite sb cb _ =>
      if (cb =? 0)%N then Raise InvalidOperation else Ok (Infinity (xorb sa sb))
  | Infinity sa, Infinity sb => Ok (Infinity (xorb sa sb))
  | Finite sa ca _, Infinity sb =>
      if (ca =? 0)%N then Raise InvalidOperation else Ok (Infinity (xorb sa sb))
  | Finite sa ca ea, Finite sb cb eb => fix_finite ctx (xorb sa sb) (ca * cb)%N (ea + eb)
  end.

(** [d * k] for a Python integer [k], under the default context. *)
Definition mul_int (d : Decimal) (k : Z) : result Decimal :=
  mul DefaultContext d (of_int k).

End PyDecimal.

(** ** [datetime] *)
Module PyDatetime.
Import PyStr.
Local Open Scope string_scope.
Local Open Scope Z_scope.

(** The two [ZoneInfo] objects the program creates.  [ZoneInfo] caches its
    instances by key, so identity of zone objects is equality of keys. *)
Inductive tzinfo : Type := UTC | Edmonton.

#[global] Instance tzinfo_eq_dec : EqDecision tzinfo.
Proof. solve_decision. Defined.

(** A [datetime] object; [tz = None] is a naive datetime.  The [fold] attribute
    is 0 on every datetime the program builds and is left out. *)
Record datetime : Type := mkdatetime {
  year : Z; month : Z; day : Z;
  hour : Z; minute : Z; second : Z; microsecond : Z;
  tz : option tzinfo
}.

#[global] Instance datetime_eq_dec : EqDecision datetime.
Proof. solve_decision. Defined.

(** The IANA table behind [ZoneInfo("America/Edmonton")] is data of the
    platform, not of the program: [edmonton_utcoffset dt] is the offset from
    UTC, in seconds, that the table gives for the civil time [dt]. *)
Class TzDatabase : Type := edmonton_utcoffset : datetime -> Z.

Definition MINYEAR : Z := 1.
Definition MAXYEAR : Z := 9999.
Definition MAXORDINAL : Z := 3652059.

Definition is_leap (y : Z) : bool :=
  (y mod 4 =? 0) && (negb (y mod 100 =? 0) || (y mod 400 =? 0)).

(** [_DAYS_IN_MONTH] and [_DAYS_BEFORE_MONTH], indexed from 1. *)
Definition DAYS_IN_MONTH (m : Z) : Z :=
  match m with
  | 1 => 31 | 2 => 28 | 3 => 31 | 4 => 30 | 5 => 31 | 6 => 30
  | 7 => 31 | 8 => 31 | 9 => 30 | 10 => 31 | 11 => 30 | 12 => 31
  | _ => 0
  end.

Definition DAYS_BEFORE_MONTH (m : Z) : Z :=
  match m with
  | 1 => 0 | 2 => 31 | 3 => 59 | 4 => 90 | 5 => 120 | 6 => 151
  | 7 => 181 | 8 => 212 | 9 => 243 | 10 => 273 | 11 => 304 | 12 => 334
  | _ => 0
  end.

Definition days_in_month (y m : Z) : Z :=
  if (m =? 2) && is_leap y then 29 else DAYS_IN_MONTH m.

Definition days_before_year (y : Z) : Z :=
  let y1 := y - 1 in y1 * 365 + y1 / 4 - y1 / 100 + y1 / 400.

Definition days_before_month (y m : Z) : Z :=
  DAYS_BEFORE_MONTH m + (if (2 <? m) && is_leap y then 1 else 0).

Definition ymd2ord (y m d : Z) : Z :=
  days_before_year y + days_before_month y m + d.

Definition DI400Y : Z := 146097.
Definition DI100Y : Z := 36524.
Definition DI4Y : Z := 1461.

(** [_ord2ymd]: the proleptic Gregorian date of the day numbered [n]. *)
Definition ord2ymd (n : Z) : Z * Z * Z :=
  let n := n - 1 in
  let n400 := n / DI400Y in let n := n mod DI400Y in
  let y := n400 * 400 + 1 in
  let n100 := n / DI100Y in let n := n mod DI100Y in
  let n4 := n / DI4Y in let n := n mod DI4Y in
  let n1 := n / 365 in let n := n mod 365 in
  let y := y + n100 * 100 + n4 * 4 + n1 in
  if (n1 =? 4) || (n100 =? 4) then (y - 1, 12, 31)
  else
    let leapyear := (n1 =? 3) && (negb (n4 =? 24) || (n100 =? 3)) in
    let m := Z.shiftr (n + 50) 5 in
    let preceding := DAYS_BEFORE_MONTH m + (if (2 <? m) && leapyear then 1 else 0) in
    if n <? preceding then
      let m := m - 1 in
      let preceding :=
        preceding - (DAYS_IN_MONTH m + (if (m =? 2) && leapyear then 1 else 0)) in
      (y, m, n - preceding + 1)
    else (y, m, n - preceding + 1).

(** The constructor's range checks ([_check_date_fields], [_check_time_fields]). *)
Definition new_datetime (y m d h mi s : Z) (z : option tzinfo) : result datetime :=
  if negb ((MINYEAR <=? y) && (y <=? MAXYEAR)) then Raise ValueError
  else if negb ((1 <=? m) && (m <=? 12)) then Raise ValueError
  else if negb ((1 <=? d) && (d <=? days_in_month y m)) then Raise ValueError
  else if negb ((0 <=? h) && (h <=? 23)) then Raise ValueError
  else if negb ((0 <=? mi) && (mi <=? 59)) then Raise ValueError
  else if negb ((0 <=? s) && (s <=? 59)) then Raise ValueError
  else Ok (mkdatetime y m d h mi s 0 z).

Definition toordinal (dt : datetime) : Z := ymd2ord (year dt) (month dt) (day dt).

(** Seconds from the start of day 0 of the ordinal calendar, on the civil clock. *)
Definition civil_seconds (dt : datetime) : Z :=
  toordinal dt * 86400 + hour dt * 3600 + minute dt * 60 + second dt.

(** [dt - timedelta(seconds=secs)], with the tzinfo replaced by [z]. *)
Definition sub_seconds (dt : datetime) (secs : Z) (z : option tzinfo) : result datetime :=
  let total := civil_seconds dt - secs in
  let days := total / 86400 in
  let rem := total mod 86400 in
  if (0 <? days) && (days <=? MAXORDINAL) then
    let '(y, m, d) := ord2ymd days in
    Ok (mkdatetime y m d (rem / 3600) (rem mod 3600 / 60) (rem mod 60) (microsecond dt) z)
  else Raise OverflowError.

Section WithZones.
Context {zones : TzDatabase}.

Definition utcoffset (z : tzinfo) (dt : datetime) : Z :=
  match z with
  | UTC => 0
  | Edmonton => edmonton_utcoffset dt
  end.

(** [dt.astimezone(ZoneInfo("UTC"))].  A naive receiver would be read in the
    system's local zone; the program never does that, and the model answers
    [TypeError] there. *)
Definition astimezone_utc (dt : datetime) : result datetime :=
  match tz dt with
  | None => Raise TypeError
  | Some UTC => Ok dt
  | Some z => sub_seconds dt (utcoffset z dt) (Some UTC)
  end.

Definition base_tuple (dt : datetime) : list Z :=
  [year dt; month dt; day dt; hour dt; minute dt; second dt; microsecond dt].

Fixpoint tuple_cmp (a b : list Z) : comparison :=
  match a, b with
  | [], [] => Eq
  | [], _ :: _ => Lt
  | _ :: _, [] => Gt
  | x :: a', y :: b' =>
      match x ?= y with
      | Eq => tuple_cmp a' b'
      | c => c
      end
  end.

Definition utc_microseconds (z : tzinfo) (dt : datetime) : Z :=
  (civil_seconds dt - utcoffset z dt) * 1000000 + microsecond dt.

(** [datetime._cmp]: same zone object, or equal offsets, compare the civil
    fields; a naive against an aware operand is a [TypeError]; otherwise the
    instants decide. *)
Definition datetime_cmp (a b : datetime) : result comparison :=
  match tz a, tz b with
  | None, None => Ok (tuple_cmp (base_tuple a) (base_tuple b))
  | Some za, Some zb =>
      if decide (za = zb) then Ok (tuple_cmp (base_tuple a) (base_tuple b))
      else if utcoffset za a =? utcoffset zb b
           then Ok (tuple_cmp (base_tuple a) (base_tuple b))
           else Ok (utc_microseconds za a ?= utc_microseconds zb b)
  | _, _ => Raise TypeError
  end.

(** [a < b] *)
Definition datetime_lt (a b : datetime) : result bool :=
  c ← datetime_cmp a b;
  Ok (match c with Lt => true | _ => false end).

(** The offset as [isoformat] prints it: [+HH:MM], and [:SS] when the offset
    has seconds. *)
Definition format_utcoffset (off : Z) : string :=
  let a := Z.abs off in
  (if off <? 0 then "-" else "+")
  ++ fmt_d 2 (a / 3600) ++ ":" ++ fmt_d 2 (a mod 3600 / 60)
  ++ (if a mod 60 =? 0 then "" else ":" ++ fmt_d 2 (a mod 60)).

(** The date and the time of [isoformat], without the offset. *)
Definition civil_isoformat (dt : datetime) : string :=
  fmt_d 4 (year dt) ++ "-" ++ fmt_d 2 (month dt) ++ "-" ++ fmt_d 2 (day dt)
  ++ "T" ++ fmt_d 2 (hour dt) ++ ":" ++ fmt_d 2 (minute dt) ++ ":" ++ fmt_d 2 (second dt)
  ++ (if microsecond dt =? 0 then "" else "." ++ fmt_d 6 (microsecond dt)).

(** [dt.isoformat()] *)
Definition isoformat (dt : datetime) : string :=
  civil_isoformat dt
  ++ match tz dt with
     | None => ""
     | Some z => format_utcoffset (utcoffset z dt)
     end.

End WithZones.

End PyDatetime.
Export PyDatetime.


(** ** [json.dumps] *)
Module Json.
Import PyStr.
Local Open Scope string_scope.
Local Open Scope Z_scope.

(** The values the program hands to [json.dumps]; a number carries the text
    that [float.__repr__] gives it. *)
#[local] Unset Elimination Schemes.
Inductive json : Type :=
  | JString (s : string)
  | JNumber (text : string)
  | JArray (items : list json)
  | JObject (members : list (string * json)).
#[local] Set Elimination Schemes.

Definition dquote : ascii := ascii_of_N 34.
Definition backslash : ascii := ascii_of_N 92.
Definition newline : ascii := ascii_of_N 10.

Definition hex_char (n : N) : ascii :=
  if (n <? 10)%N then ascii_of_N (48 + n) else ascii_of_N (87 + n).

Definition escape_pair (c : ascii) : string := String backslash (String c "").

(** One character under [ensure_ascii=True]. *)
Definition escape_char (c : ascii) : string :=
  let n := N_of_ascii c in
  if (n =? 34)%N then escape_pair dquote
  else if (n =? 92)%N then escape_pair backslash
  else if (n =? 10)%N then escape_pair "n"
  else if (n =? 13)%N then escape_pair "r"
  else if (n =? 9)%N then escape_pair "t"
  else if (n =? 8)%N then escape_pair "b"
  else if (n =? 12)%N then escape_pair "f"
  else if (n <? 32)%N || (126 <? n)%N then
    String backslash
      (String "u" (String "0" (String "0"
        (String (hex_char (n / 16)) (String (hex_char (n mod 16)) "")))))
  else String c "".

Fixpoint escape (s : string) : string :=
  match s with
  | "" => ""
  | String c r => escape_char c ++ escape r
  end.

Definition encode_string (s : string) : string :=
  String dquote (escape s ++ String dquote "").

Fixpoint spaces (k : nat) : string :=
  match k with
  | O => ""
  | S k' => String " " (spaces k')
  end.

Definition newline_indent (level : nat) : string :=
  String newline (spaces (2 * level)).

Fixpoint join (sep : string) (l : list string) : string :=
  match l with
  | [] => ""
  | [x] => x
  | x :: r => x ++ sep ++ join sep r
  end.

(** [json.dumps(v, indent=2)] for a value met at nesting depth [level]. *)
Fixpoint dumps_at (level : nat) (v : json) : string :=
  match v with
  | JString s => encode_string s
  | JNumber text => text
  | JArray [] => "[]"
  | JArray items =>
      "[" ++ newline_indent (S level)
      ++ join ("," ++ newline_indent (S level)) (List.map (dumps_at (S level)) items)
      ++ newline_indent level ++ "]"
  | JObject [] => "{}"
  | JObject members =>
      "{" ++ newline_indent (S level)
      ++ join ("," ++ newline_indent (S level))
           (List.map (fun kv => encode_string (fst kv) ++ ": " ++ dumps_at (S level) (snd kv))
              members)
      ++ newline_indent level ++ "}"
  end.

Definition dumps (v : json) : string := dumps_at 0 v.

End Json.

(** ** [csv.reader] over a file opened in text mode *)
Module PyCsv.
Local Open Scope string_scope.

Definition LF : ascii := ascii_of_N 10.
Definition CR : ascii := ascii_of_N 13.

(** Reading with [newline=None]: the line endings [\r\n] and [\r] reach the
    program as [\n]. *)
Fixpoint translate_newlines (s : string) : string :=
  match s with
  | "" => ""
  | String c r =>
      if Ascii.eqb c CR then
        String LF match r with
                  | String c' r' => if Ascii.eqb c' LF then translate_newlines r'
                                    else translate_newlines r
                  | "" => ""
                  end
      else String c (translate_newlines r)
  end.

(** The lines a file object yields, each with its [\n] but possibly the last. *)
Fixpoint readlines (s : string) : list string :=
  match s with
  | "" => []
  | String c r =>
      if Ascii.eqb c LF then String c "" :: readlines r
      else match readlines r with
           | [] => [String c ""]
           | l :: ls => String c l :: ls
           end
  end.

(** The dialect [excel], which [csv.reader] takes when it is given none:
    no escape character, quotes doubled inside quoted fields, initial spaces
    kept, not strict. *)
Definition delimiter : ascii := ","%char.
Definition quotechar : ascii := ascii_of_N 34.

(** [csv.field_size_limit()] *)
Definition field_limit : N := 131072.

(** The states of the parser that this dialect can reach. *)
Inductive state : Type :=
  | START_RECORD
  | START_FIELD
  | IN_FIELD
  | IN_QUOTED_FIELD
  | QUOTE_IN_QUOTED_FIELD
  | EAT_CRNL.

#[global] Instance state_eq_dec : EqDecision state.
Proof. solve_decision. Defined.

(** The reader object: the state, the field being read (last character first)
    with its length, and the fields of the record read so far. *)
Record reader : Type := mkreader {
  rd_state : state;
  rd_field : string;
  rd_field_len : N;
  rd_fields : list string
}.

Definition set_state (r : reader) (s : state) : reader :=
  {| rd_state := s; rd_field := rd_field r; rd_field_len := rd_field_len r;
     rd_fields := rd_fields r |}.

Fixpoint rev_append (s acc : string) : string :=
  match s with
  | "" => acc
  | String c r => rev_append r (String c acc)
  end.

(** [parse_add_char]; [None] is the exception [_csv.Error]. *)
Definition parse_add_char (r : reader) (c : ascii) : option reader :=
  if (field_limit <=? rd_field_len r)%N then None
  else Some {| rd_state := rd_state r; rd_field := String c (rd_field r);
               rd_field_len := rd_field_len r + 1; rd_fields := rd_fields r |}.

(** [parse_save_field] *)
Definition parse_save_field (r : reader) : reader :=
  {| rd_state := rd_state r; rd_field := ""; rd_field_len := 0;
     rd_fields := rd_fields r ++ [rev_append (rd_field r) ""] |}.

Definition is_newline (c : ascii) : bool := Ascii.eqb c LF || Ascii.eqb c CR.

(** The case [START_FIELD] of [parse_process_char]; the end of a line is [None]. *)
Definition start_field (r : reader) (c : option ascii) : option reader :=
  match c with
  | None => Some (set_state (parse_save_field r) START_RECORD)
  | Some c =>
      if is_newline c then Some (set_state (parse_save_field r) EAT_CRNL)
      else if Ascii.eqb c quotechar then Some (set_state r IN_QUOTED_FIELD)
      else if Ascii.eqb c delimiter then Some (parse_save_field r)
      else r' ← parse_add_char r c; Some (set_state r' IN_FIELD)
  end.

(** [parse_process_char] *)
Definition parse_process_char (r : reader) (c : option ascii) : option reader :=
  match rd_state r with
  | START_RECORD =>
      match c with
      | None => Some r
      | Some c' =>
          if is_newline c' then Some (set_state r EAT_CRNL)
          else start_field (set_state r START_FIELD) c
      end
  | START_FIELD => start_field r c
  | IN_FIELD =>
      match c with
      | None => Some (set_state (parse_save_field r) START_RECORD)
      | Some c' =>
          if is_newline c' then Some (set_state (parse_save_field r) EAT_CRNL)
          else if Ascii.eqb c' delimiter then Some (set_state (parse_save_field r) START_FIELD)
          else parse_add_char r c'
      end
  | IN_QUOTED_FIELD =>
      match c with
      | None => Some r
      | Some c' =>
          if Ascii.eqb c' quotechar then Some (set_state r QUOTE_IN_QUOTED_FIELD)
          else parse_add_char r c'
      end
  | QUOTE_IN_QUOTED_FIELD =>
      match c with
      | None => Some (set_state (parse_save_field r) START_RECORD)
      | Some c' =>
          if Ascii.eqb c' quotechar then
            r' ← parse_add_char r c'; Some (set_state r' IN_QUOTED_FIELD)
          else if Ascii.eqb c' delimiter then
            Some (set_state (parse_save_field r) START_FIELD)
          else if is_newline c' then Some (set_state (parse_save_field r) EAT_CRNL)
          else r' ← parse_add_char r c'; Some (set_state r' IN_FIELD)
      end
  | EAT_CRNL =>
      match c with
      | None => Some (set_state r START_RECORD)
      | Some c' => if is_newline c' then Some r else None
      end
  end.

Fixpoint process_chars (r : reader) (line : string) : option reader :=
  match line with
  | "" => Some r
  | String c rest => r' ← parse_process_char r (Some c); process_chars r' rest
  end.

(** One line: its characters, then the end of the line. *)
Definition process_line (r : reader) (line : string) : option reader :=
  r' ← process_chars r line; parse_process_char r' None.

(** [parse_reset] *)
Definition parse_reset : reader :=
  {| rd_state := START_RECORD; rd_field := ""; rd_field_len := 0; rd_fields := [] |}.

(** The iteration of the reader over the lines left ([Reader_iternext], call
    after call): the rows it yields, and whether it then raises [_csv.Error]. *)
Fixpoint read_records (r : reader) (lines : list string) : list (list string) * bool :=
  match lines with
  | [] =>
      if negb (rd_field_len r =? 0)%N || bool_decide (rd_state r = IN_QUOTED_FIELD)
      then ([rd_fields (parse_save_field r)], false)
      else ([], false)
  | line :: rest =>
      match process_line r line with
      | None => ([], true)
      | Some r' =>
          if bool_decide (rd_state r' = START_RECORD)
          then let '(rows, err) := read_records parse_reset rest in (rd_fields r' :: rows, err)
          else read_records r' rest
      end
  end.

(** [csv.reader(file)] for a file with the text [text]. *)
Definition reader_rows (text : string) : list (list string) * bool :=
  read_records parse_reset (readlines (translate_newlines text)).

End PyCsv.

(** ** The program: [Category], [Transaction], [Transactions], [parse_expense_log] *)
Module Convert.
Import PyStr PyInt PyDecimal Json.
Local Open Scope string_scope.
Local Open Scope Z_scope.

(** A reference to a [Category] object. *)
Definition loc : Type := nat.

Module Category.
Record t : Type := mk { name : string; created_at : option datetime }.
End Category.

Module Transaction.
Record t : Type := mk {
  created_at : datetime;
  amount : Decimal;
  category : loc;
  notes : string
}.
End Transaction.

#[global] Instance Category_eq_dec : EqDecision Category.t.
Proof. solve_decision. Defined.
#[global] Instance Transaction_eq_dec : EqDecision Transaction.t.
Proof. solve_decision. Defined.

(** The [Category] objects alive in the interpreter.  Transactions are never
    mutated nor shared after [add_transaction], so the ledger holds them by
    value; categories are mutated through the references transactions hold. *)
Abbreviation store := (gmap loc Category.t).

(** [Transactions.__transactions] *)
Abbreviation ledger := (list Transaction.t).

Definition deref (h : store) (l : loc) : result Category.t :=
  match h !! l with
  | Some c => Ok c
  | None => Raise Dangling
  end.

(** [Transactions.categories]: the set of the category objects of the ledger. *)
Definition categories (txs : ledger) : gset loc :=
  list_to_set (Transaction.category <$> txs).

(** An order in which iterating over a set may visit its elements. *)
Definition set_iteration (s : gset loc) (order : list loc) : Prop :=
  order ≡ₚ elements s.

(** [Transactions.add_transaction] *)
Definition add_transaction (txs : ledger) (t : Transaction.t) : ledger := txs ++ [t].

(** The characters [float.__repr__] writes for a finite float. *)
Inductive float_char : Type :=
  | FDigit (d : N)
  | FDot
  | FExp
  | FPlus
  | FMinus.

Definition float_char_ascii (c : float_char) : ascii :=
  match c with
  | FDigit d => digit_char (d mod 10)
  | FDot => "."
  | FExp => "e"
  | FPlus => "+"
  | FMinus => "-"
  end.

(** What [json.dumps] prints for [float(d)], [d] a finite decimal: the digits
    of a finite float, or an infinity when [d] is beyond the range of floats. *)
Inductive float_text : Type :=
  | FloatFinite (cs : list float_char)
  | FloatInfinite (negative : bool).

(** Binary floating point is outside the embedding: the text of the float
    nearest to a finite decimal is a parameter. *)
Class FloatRepr : Type := float_repr : bool -> N -> Z -> float_text.

Fixpoint string_of_float_chars (cs : list float_char) : string :=
  match cs with
  | [] => ""
  | c :: r => String (float_char_ascii c) (string_of_float_chars r)
  end.

Definition infinity_text (negative : bool) : string :=
  if negative then "-Infinity" else "Infinity".

(** What the failed row leaves on standard output: the exception and the row
    number that the message interpolates. *)
Record diagnostic : Type := { diag_reason : exn; diag_row : nat }.

(** The state of [parse_expense_log]: the objects created so far, the ledger
    and the lines printed. *)
Record parser_state : Type := {
  ps_store : store;
  ps_ledger : ledger;
  ps_stdout : list diagnostic
}.

(** [row[i]] *)
Definition index (row : list string) (i : nat) : result string :=
  match row !! i with
  | Some x => Ok x
  | None => Raise IndexError
  end.

(** [a, b = parts] and [a, b, c = parts] *)
Definition unpack2 (parts : list string) : result (string * string) :=
  match parts with
  | [a; b] => Ok (a, b)
  | _ => Raise ValueError
  end.

Definition unpack3 (parts : list string) : result (string * string * string) :=
  match parts with
  | [a; b; c] => Ok (a, b, c)
  | _ => Raise ValueError
  end.

Section WithZones.
Context {zones : TzDatabase}.

(** First loop of [set_default_category_created_ats]: one transaction. *)
Definition earliest_step (h : store) (d : gmap string datetime) (t : Transaction.t)
  : result (gmap string datetime) :=
  c ← deref h (Transaction.category t);
  match d !! Category.name c with
  | Some e =>
      b ← datetime_lt (Transaction.created_at t) e;
      Ok (if b : bool then <[Category.name c := Transaction.created_at t]> d else d)
  | None => Ok (<[Category.name c := Transaction.created_at t]> d)
  end.

Fixpoint earliest_loop (h : store) (d : gmap string datetime) (txs : ledger)
  : result (gmap string datetime) :=
  match txs with
  | [] => Ok d
  | t :: rest => d' ← earliest_step h d t; earliest_loop h d' rest
  end.

(** Second loop: one transaction. *)
Definition assign_step (d : gmap string datetime) (h : store) (t : Transaction.t)
  : result store :=
  c ← deref h (Transaction.category t);
  match d !! Category.name c with
  | Some e => Ok (<[Transaction.category t := Category.mk (Category.name c) (Some e)]> h)
  | None => Raise KeyError
  end.

Fixpoint assign_loop (d : gmap string datetime) (h : store) (txs : ledger)
  : result store :=
  match txs with
  | [] => Ok h
  | t :: rest => h' ← assign_step d h t; assign_loop d h' rest
  end.

(** [Transactions.set_default_category_created_ats] *)
Definition set_default_category_created_ats (h : store) (txs : ledger) : result store :=
  d ← earliest_loop h ∅ txs;
  assign_loop d h txs.

(** One entry of [top_level["categories"]]. *)
Definition category_dict (h : store) (l : loc) : result (string * string) :=
  c ← deref h l;
  match Category.created_at c with
  | None => Raise AssertionError
  | Some dt => Ok (Category.name c, isoformat dt)
  end.

Definition category_json (cd : string * string) : json :=
  JObject [("name", JString (fst cd)); ("created_at", JString (snd cd))].

(** [[cd for cd in top_level["categories"] if name == cd["name"]][0]] *)
Definition first_by_name (n : string) (cds : list (string * string))
  : result (string * string) :=
  match List.filter (fun cd => bool_decide (n = fst cd)) cds with
  | cd :: _ => Ok cd
  | [] => Raise IndexError
  end.

Context {floats : FloatRepr}.

(** [float(d)] as [json.dumps] prints it. *)
Definition amount_json (d : Decimal) : result json :=
  match d with
  | NaN _ true _ => Raise ValueError
  | NaN _ false _ => Ok (JNumber "NaN")
  | Infinity s => Ok (JNumber (infinity_text s))
  | Finite s c e =>
      Ok (JNumber match float_repr s c e with
                  | FloatFinite cs => string_of_float_chars cs
                  | FloatInfinite neg => infinity_text neg
                  end)
  end.

(** One entry of [top_level["transactions"]]. *)
Definition transaction_dict (h : store) (cds : list (string * string)) (t : Transaction.t)
  : result json :=
  c ← deref h (Transaction.category t);
  cd ← first_by_name (Category.name c) cds;
  a ← amount_json (Transaction.amount t);
  Ok (JObject [("category", category_json cd);
               ("description", JString (Transaction.notes t));
               ("amount", a);
               ("created_at", JString (isoformat (Transaction.created_at t)))]).

Fixpoint mapM {A B} (f : A -> result B) (l : list A) : result (list B) :=
  match l with
  | [] => Ok []
  | x :: r => y ← f x; ys ← mapM f r; Ok (y :: ys)
  end.

(** The dictionary [__repr__] builds, given the order in which the set of
    categories is visited. *)
Definition top_level (order : list loc) (h : store) (txs : ledger) : result json :=
  cds ← mapM (category_dict h) order;
  tds ← mapM (transaction_dict h cds) txs;
  Ok (JObject [("transactions", JArray tds);
               ("categories", JArray (category_json <$> cds))]).

(** [Transactions.__repr__]: the store after the call, and the text returned. *)
Definition repr (order : list loc) (h : store) (txs : ledger) : result (store * string) :=
  h' ← set_default_category_created_ats h txs;
  doc ← top_level order h' txs;
  Ok (h', replace "+00:00" "Z" (dumps doc)).

(** [Transactions.to_json] *)
Definition to_json (order : list loc) (h : store) (txs : ledger) : result (store * string) :=
  repr order h txs.

(** The body of the [try] block for one row, up to the construction of the
    transaction: timestamp, amount, category name and notes. *)
Definition parse_amount (field : string) : result Decimal :=
  '(negative_symbol, amount_string) ← unpack2 (split "$" field);
  let is_negative := bool_decide (negative_symbol = "-") in
  let amount_string := replace "," "" amount_string in
  let negative_multiplier := if is_negative then -1 else 1 in
  d ← of_string amount_string;
  mul_int d negative_multiplier.

Definition parse_datetime (row : list string) : result datetime :=
  date ← index row 0;
  '(day, month, year) ← unpack3 (split "/" date);
  time ← index row 1;
  '(hour, minute) ← unpack2 (split ":" time);
  let second := "00" in
  y ← int year;
  mo ← int month;
  d ← int day;
  h ← int hour;
  mi ← int minute;
  s ← int second;
  local ← new_datetime (2000 + y) mo d h mi s (Some Edmonton);
  astimezone_utc local.

Definition parse_fields (row : list string)
  : result (datetime * Decimal * string * string) :=
  transaction_datetime ← parse_datetime row;
  field ← index row 2;
  amount ← parse_amount field;
  category_string ← index row 3;
  notes ← index row 4;
  Ok (transaction_datetime, amount, category_string, notes).

(** One turn of the loop over [enumerate(csv_reader)].  A row that parses
    allocates its own [Category] and appends a transaction; a row that raises
    prints a line and changes nothing else.  (The category object that an
    absent notes field leaves behind is unreachable and is not allocated.) *)
Definition parse_row (i : nat) (row : list string) (st : parser_state) : parser_state :=
  if decide (i = 0%nat) then st
  else
    match parse_fields row with
    | Ok (transaction_datetime, amount, category_string, notes) =>
        let l := fresh (dom (ps_store st)) in
        {| ps_store := <[l := Category.mk category_string None]> (ps_store st);
           ps_ledger :=
             add_transaction (ps_ledger st)
               (Transaction.mk transaction_datetime amount l notes);
           ps_stdout := ps_stdout st |}
    | Raise e =>
        {| ps_store := ps_store st;
           ps_ledger := ps_ledger st;
           ps_stdout := ps_stdout st ++ [{| diag_reason := e; diag_row := i |}] |}
    end.

Fixpoint parse_rows (i : nat) (rows : list (list string)) (st : parser_state)
  : parser_state :=
  match rows with
  | [] => st
  | row :: rest => parse_rows (S i) rest (parse_row i row st)
  end.

Definition initial_state : parser_state :=
  {| ps_store := ∅; ps_ledger := []; ps_stdout := [] |}.

(** [parse_expense_log], on the rows that [csv.reader] yields for the file. *)
Definition parse_expense_log (rows : list (list string)) : parser_state :=
  parse_rows 0 rows initial_state.

End WithZones.

(** An exception that nothing catches; [CsvError] is [_csv.Error], which the
    iteration of the reader raises outside the [try] block. *)
Inductive uncaught : Type :=
  | Uncaught (e : exn)
  | CsvError.

(** What the run leaves in [./transactions.json]. *)
Inductive output : Type :=
  | Untouched
  | Written (text : string).

(** A run of the program: the lines printed, the output file, and the
    exception that ended the run, if any. *)
Record run : Type := {
  run_stdout : list diagnostic;
  run_output : output;
  run_error : option uncaught
}.

Section Program.
Context {zones : TzDatabase} {floats : FloatRepr}.

(** [parse_expense_log(file_path)]; [file] is the text of the regular file at
    the path, [None] when the path is not one. The rows read before
    [_csv.Error] have been through the loop when it is raised. *)
Definition parse_expense_log_file (file : option string)
  : parser_state * option uncaught :=
  match file with
  | None => (initial_state, Some (Uncaught AssertionError))
  | Some text =>
      let '(rows, err) := PyCsv.reader_rows text in
      (parse_expense_log rows, if err : bool then Some CsvError else None)
  end.

(** The body of [if __name__ == "__main__"], for the file at the path given on
    the command line.  The output file is opened, and so emptied, before
    [to_json] is called. *)
Definition main (order : list loc) (file : option string) : run :=
  let '(st, err) := parse_expense_log_file file in
  match err with
  | Some x => {| run_stdout := ps_stdout st; run_output := Untouched; run_error := Some x |}
  | None =>
      match to_json order (ps_store st) (ps_ledger st) with
      | Ok (_, text) =>
          {| run_stdout := ps_stdout st; run_output := Written text; run_error := None |}
      | Raise e =>
          {| run_stdout := ps_stdout st; run_output := Written "";
             run_error := Some (Uncaught e) |}
      end
  end.

End Program.

End Convert.

(** * Properties *)

Import PyStr PyInt PyDecimal Json Convert.

#[local] Arguments String.append !_ _ / : simpl nomatch.
#[local] Arguments is_digit : simpl never.
#[local] Arguments is_space : simpl never.
#[local] Arguments digit_value : simpl never.

(** ** The result monad *)

Lemma bind_ok_inv {A B} (m : result A) (k : A -> result B) (b : B) :
  m ≫= k = Ok b -> exists a, m = Ok a /\ k a = Ok b.
Proof. destruct m as [a|e]; simpl; intros Hk; [eauto | discriminate]. Qed.

Lemma bind_raise_inv {A B} (m : result A) (k : A -> result B) (e : exn) :
  m ≫= k = Raise e -> m = Raise e \/ exists a, m = Ok a /\ k a = Raise e.
Proof. destruct m as [a|e']; simpl; intros Hk; [eauto | left; congruence]. Qed.

Ltac inv_bind H :=
  let a := fresh "a" in
  let Ha := fresh "Ha" in
  apply bind_ok_inv in H; destruct H as (a & Ha & H).

(** ** Comparison of datetimes *)
Section Comparison.
Context {zones : TzDatabase}.

Lemma tuple_cmp_refl (a : list Z) : tuple_cmp a a = Eq.
Proof. induction a as [|x a IH]; simpl; [done|]. by rewrite Z.compare_refl. Qed.

Lemma tuple_cmp_eq (a b : list Z) : tuple_cmp a b = Eq -> a = b.
Proof.
  revert b; induction a as [|x a IH]; intros [|y b]; simpl; try done.
  destruct (x ?= y) eqn:Hxy; try done.
  apply Z.compare_eq in Hxy. intros Hab. f_equal; auto.
Qed.

Lemma tuple_cmp_antisym (a b : list Z) : tuple_cmp b a = CompOpp (tuple_cmp a b).
Proof.
  revert b; induction a as [|x a IH]; intros [|y b]; simpl; try done.
  rewrite (Z.compare_antisym x y). destruct (x ?= y); simpl; auto.
Qed.

Lemma tuple_cmp_lt_trans (a b c : list Z) :
  tuple_cmp a b = Lt -> tuple_cmp b c = Lt -> tuple_cmp a c = Lt.
Proof.
  revert b c; induction a as [|x a IH]; intros [|y b] [|z c]; simpl; try done.
  destruct (x ?= y) eqn:Hxy; try done.
  - apply Z.compare_eq in Hxy; subst y.
    destruct (x ?= z); try done. apply IH.
  - destruct (y ?= z) eqn:Hyz; try done.
    + apply Z.compare_eq in Hyz; subst z. by rewrite Hxy.
    + intros _ _. rewrite Z.compare_lt_iff in Hxy, Hyz.
      assert (Hxz : (x ?= z) = Lt) by (apply Z.compare_lt_iff; lia).
      by rewrite Hxz.
Qed.

(** [a] is not later than [b]: the civil fields of [b] do not come first. *)
Definition tuple_le (a b : list Z) : Prop := tuple_cmp b a <> Lt.

Lemma tuple_le_refl a : tuple_le a a.
Proof. unfold tuple_le. by rewrite tuple_cmp_refl. Qed.

Lemma tuple_le_trans a b c : tuple_le a b -> tuple_le b c -> tuple_le a c.
Proof.
  unfold tuple_le. intros Hab Hbc Hca.
  destruct (tuple_cmp b a) eqn:Hba; [| done |].
  - apply tuple_cmp_eq in Hba; subst b. congruence.
  - destruct (tuple_cmp c b) eqn:Hcb; [| done |].
    + apply tuple_cmp_eq in Hcb; subst c. congruence.
    + rewrite tuple_cmp_antisym in Hba, Hcb.
      destruct (tuple_cmp a b) eqn:Hab'; try done.
      destruct (tuple_cmp b c) eqn:Hbc'; try done.
      pose proof (tuple_cmp_lt_trans _ _ _ Hab' Hbc') as Hac.
      rewrite tuple_cmp_antisym, Hac in Hca. done.
Qed.

Lemma tuple_lt_le a b : tuple_cmp a b = Lt -> tuple_le a b.
Proof.
  unfold tuple_le. intros Hab. rewrite tuple_cmp_antisym, Hab. done.
Qed.

Definition is_utc (dt : datetime) : Prop := tz dt = Some UTC.

Lemma datetime_lt_utc (a b : datetime) :
  is_utc a -> is_utc b ->
  datetime_lt a b =
    Ok (match tuple_cmp (base_tuple a) (base_tuple b) with Lt => true | _ => false end).
Proof.
  unfold is_utc, datetime_lt, datetime_cmp. intros -> ->.
  by rewrite decide_True.
Qed.

Lemma datetime_lt_false_le (a b : datetime) :
  is_utc a -> is_utc b ->
  datetime_lt b a = Ok false <-> tuple_le (base_tuple a) (base_tuple b).
Proof.
  intros Ha Hb. rewrite datetime_lt_utc by done. unfold tuple_le.
  destruct (tuple_cmp (base_tuple b) (base_tuple a)); split; try done; congruence.
Qed.

Lemma base_tuple_inj (a b : datetime) :
  base_tuple a = base_tuple b -> tz a = tz b -> a = b.
Proof.
  destruct a, b; unfold base_tuple; simpl. intros [= -> -> -> -> -> -> ->] ->. done.
Qed.

Lemma datetime_lt_raises (a b : datetime) (e : exn) :
  datetime_lt a b = Raise e -> e = TypeError.
Proof.
  unfold datetime_lt, datetime_cmp.
  destruct (tz a) as [za|], (tz b) as [zb|]; simpl; try congruence.
  - destruct (decide (za = zb)); simpl; [congruence|].
    destruct (utcoffset za a =? utcoffset zb b); simpl; congruence.
Qed.

End Comparison.

(** ** Aggregation: [set_default_category_created_ats] *)
Section Aggregation.
Context {zones : TzDatabase}.

(** The name of the category a transaction refers to. *)
Definition cat_name (h : store) (t : Transaction.t) : option string :=
  Category.name <$> h !! Transaction.category t.

(** Every timestamp of the ledger is aware and in UTC, as the row parser
    builds them. *)
Definition utc_ledger (txs : ledger) : Prop :=
  Forall (fun t => is_utc (Transaction.created_at t)) txs.

(** Every transaction refers to a category object of the store. *)
Definition wf_ledger (h : store) (txs : ledger) : Prop :=
  Forall (fun t => is_Some (h !! Transaction.category t)) txs.

(** [m] is the earliest timestamp among the transactions whose category is
    named [n]: one of them carries it, and none of them is before it
    (Python's [<] answers [False]). *)
Definition is_earliest (h : store) (txs : ledger) (n : string) (m : datetime) : Prop :=
  (exists t, t ∈ txs /\ cat_name h t = Some n /\ Transaction.created_at t = m) /\
  (forall t, t ∈ txs -> cat_name h t = Some n ->
     datetime_lt (Transaction.created_at t) m = Ok false).

Definition utc_dict (d : gmap string datetime) : Prop :=
  forall n m, d !! n = Some m -> is_utc m.

Definition dle (a b : datetime) : Prop := tuple_le (base_tuple a) (base_tuple b).

Lemma earliest_step_spec (h : store) (d : gmap string datetime) (t : Transaction.t)
    (c : Category.t) :
  h !! Transaction.category t = Some c ->
  is_utc (Transaction.created_at t) ->
  utc_dict d ->
  exists d1, earliest_step h d t = Ok d1 /\ utc_dict d1 /\
    (forall n m, d1 !! n = Some m ->
       d !! n = Some m \/ (n = Category.name c /\ m = Transaction.created_at t)) /\
    (forall n m0, d !! n = Some m0 -> exists m, d1 !! n = Some m /\ dle m m0) /\
    (exists m, d1 !! Category.name c = Some m /\ dle m (Transaction.created_at t)).
Proof.
  intros Hc Ht Hd. unfold earliest_step, deref. rewrite Hc. simpl.
  set (ct := Transaction.created_at t) in *. set (nc := Category.name c).
  assert (Hins : forall d0 : gmap string datetime, utc_dict d0 -> utc_dict (<[nc := ct]> d0)).
  { intros d0 Hd0 n m. rewrite lookup_insert. case_decide; [intros [= <-]; done | apply Hd0]. }
  assert (Hinsa : forall n m, <[nc := ct]> d !! n = Some m ->
            d !! n = Some m \/ (n = nc /\ m = ct)).
  { intros n m. rewrite lookup_insert. case_decide; [intros [= <-]; auto | auto]. }
  destruct (d !! nc) as [e|] eqn:He.
  - rewrite datetime_lt_utc by eauto.
    destruct (tuple_cmp (base_tuple ct) (base_tuple e)) eqn:Hcmp; cbn [mbind result_bind Py.bind].
    + exists d. split_and!; auto.
      * intros n m0 Hn. exists m0. split; [done | apply tuple_le_refl].
      * exists e. split; [done|]. unfold dle, tuple_le. congruence.
    + exists (<[nc := ct]> d). split_and!; auto.
      * intros n m0 Hn. rewrite lookup_insert. case_decide as Hnn.
        -- subst n. exists ct. split; [done|].
           assert (m0 = e) as -> by congruence. by apply tuple_lt_le.
        -- exists m0. split; [done | apply tuple_le_refl].
      * exists ct. rewrite lookup_insert_eq. split; [done | apply tuple_le_refl].
    + exists d. split_and!; auto.
      * intros n m0 Hn. exists m0. split; [done | apply tuple_le_refl].
      * exists e. split; [done|]. unfold dle, tuple_le. congruence.
  - exists (<[nc := ct]> d). split_and!; auto.
    + intros n m0 Hn. rewrite lookup_insert. case_decide as Hnn.
      * subst n. congruence.
      * exists m0. split; [done | apply tuple_le_refl].
    + exists ct. rewrite lookup_insert_eq. split; [done | apply tuple_le_refl].
Qed.

Lemma earliest_loop_spec (h : store) (txs : ledger) :
  forall d : gmap string datetime,
  wf_ledger h txs -> utc_ledger txs -> utc_dict d ->
  exists d', earliest_loop h d txs = Ok d' /\ utc_dict d' /\
    (forall n m, d' !! n = Some m ->
       d !! n = Some m \/
       exists t, t ∈ txs /\ cat_name h t = Some n /\ Transaction.created_at t = m) /\
    (forall n m0, d !! n = Some m0 -> exists m, d' !! n = Some m /\ dle m m0) /\
    (forall t n, t ∈ txs -> cat_name h t = Some n ->
       exists m, d' !! n = Some m /\ dle m (Transaction.created_at t)).
Proof.
  induction txs as [|t rest IH]; intros d Hwf Hutc Hd.
  - exists d. simpl. split_and!; auto.
    + intros n m0 Hn. exists m0. split; [done | apply tuple_le_refl].
    + intros t n Ht. by apply elem_of_nil in Ht.
  - apply Forall_cons in Hwf as [[c Hc] Hwf]. apply Forall_cons in Hutc as [Ht Hutc].
    destruct (earliest_step_spec h d t c Hc Ht Hd) as (d1 & Hstep & Hd1 & Ha & Hb & Hcc).
    destruct (IH d1 Hwf Hutc Hd1) as (d' & Hloop & Hd' & Ha' & Hb' & Hc').
    exists d'. simpl. rewrite Hstep. simpl. split_and!; auto.
    + intros n m Hn. destruct (Ha' n m Hn) as [Hn1 | (t' & Ht' & Hn' & Hm')].
      * destruct (Ha n m Hn1) as [?|[-> ->]]; [by left|].
        right. exists t. split; [by left|]. split; [|done].
        unfold cat_name. by rewrite Hc.
      * right. exists t'. split; [by right | done].
    + intros n m0 Hn. destruct (Hb n m0 Hn) as (m1 & Hm1 & Hle1).
      destruct (Hb' n m1 Hm1) as (m & Hm & Hle). exists m. split; [done|].
      by eapply tuple_le_trans.
    + intros t' n Ht' Hn. apply elem_of_cons in Ht' as [-> | Ht'].
      * unfold cat_name in Hn. rewrite Hc in Hn. simpl in Hn. injection Hn as <-.
        destruct Hcc as (m1 & Hm1 & Hle1).
        destruct (Hb' _ m1 Hm1) as (m & Hm & Hle). exists m. split; [done|].
        by eapply tuple_le_trans.
      * by apply Hc'.
Qed.

(** The first loop reads the store through the names of the categories only. *)
Lemma earliest_loop_names (h1 h2 : store) (txs : ledger) :
  (forall l, Category.name <$> h1 !! l = Category.name <$> h2 !! l) ->
  forall d, earliest_loop h1 d txs = earliest_loop h2 d txs.
Proof.
  intros Hn. induction txs as [|t rest IH]; intros d; simpl; [done|].
  assert (earliest_step h1 d t = earliest_step h2 d t) as ->.
  { unfold earliest_step, deref. specialize (Hn (Transaction.category t)).
    destruct (h1 !! Transaction.category t) as [c1|], (h2 !! Transaction.category t) as [c2|];
      simpl in *; try done.
    injection Hn as ->. done. }
  destruct (earliest_step h2 d t); simpl; auto.
Qed.

(** What the second loop leaves in a category: its name, and the entry of the
    dictionary for that name. *)
Definition stamp (d : gmap string datetime) (c : Category.t) : Category.t :=
  Category.mk (Category.name c) (d !! Category.name c).

Lemma stamp_stamp d c : stamp d (stamp d c) = stamp d c.
Proof. done. Qed.

Definition resolvable (d : gmap string datetime) (h : store) (t : Transaction.t) : Prop :=
  exists c, h !! Transaction.category t = Some c /\ is_Some (d !! Category.name c).

Lemma assign_step_ok d h t h1 :
  assign_step d h t = Ok h1 <->
  exists c, h !! Transaction.category t = Some c /\ is_Some (d !! Category.name c) /\
            h1 = <[Transaction.category t := stamp d c]> h.
Proof.
  unfold assign_step, deref, stamp.
  destruct (h !! Transaction.category t) as [c|]; simpl.
  - destruct (d !! Category.name c) as [e|] eqn:He.
    + split.
      * intros [= <-]. exists c. rewrite He. eauto.
      * intros (c' & [= <-] & _ & ->). by rewrite He.
    + split; [done|]. intros (c' & [= <-] & [e He'] & _). congruence.
  - split; [done|]. intros (c' & ? & _); done.
Qed.

Lemma resolvable_insert d h l c t :
  h !! l = Some c ->
  resolvable d (<[l := stamp d c]> h) t <-> resolvable d h t.
Proof.
  intros Hl. unfold resolvable. rewrite lookup_insert. case_decide as Heq.
  - rewrite <- Heq, Hl. split.
    + intros (c' & [= <-] & Hd). eauto.
    + intros (c' & [= <-] & Hd). eauto.
  - done.
Qed.

Lemma assign_loop_ok d txs :
  forall h, Forall (resolvable d h) txs -> exists h', assign_loop d h txs = Ok h'.
Proof.
  induction txs as [|t rest IH]; intros h Hres; simpl; [eauto|].
  apply Forall_cons in Hres as [(c & Hc & Hd) Hres].
  assert (assign_step d h t = Ok (<[Transaction.category t := stamp d c]> h)) as ->.
  { apply assign_step_ok. eauto. }
  simpl. apply IH. eapply Forall_impl; [exact Hres|].
  intros t' Ht'. by apply resolvable_insert.
Qed.

Lemma assign_loop_inv d txs :
  forall h h', assign_loop d h txs = Ok h' ->
    Forall (resolvable d h) txs /\
    (forall l, h' !! l =
       if decide (l ∈ Transaction.category <$> txs) then stamp d <$> h !! l else h !! l).
Proof.
  induction txs as [|t rest IH]; intros h h'; cbn [assign_loop].
  - intros [= <-]. split; [constructor|]. intros l.
    rewrite decide_False; [done | rewrite fmap_nil; apply not_elem_of_nil].
  - rewrite fmap_cons. intros Hrun. apply bind_ok_inv in Hrun as (h1 & Hstep & Hrun).
    apply assign_step_ok in Hstep as (c & Hc & Hd & ->).
    destruct (IH _ _ Hrun) as [Hres Hlook]. split.
    + constructor; [by exists c|].
      eapply Forall_impl; [exact Hres|]. intros t' Ht'. by eapply resolvable_insert.
    + intros l. rewrite Hlook. rewrite lookup_insert.
      destruct (decide (Transaction.category t = l)) as [<-|Hne].
      * rewrite (decide_True (P := _ ∈ _ :: _)) by (by left).
        rewrite Hc. simpl. by case_decide.
      * case_decide as Hin.
        -- rewrite decide_True; [done | by right].
        -- rewrite decide_False; [done|].
           intros [Heq|Hin']%elem_of_cons; [by symmetry in Heq | done].
Qed.

Lemma set_default_inv (h h' : store) (txs : ledger) :
  set_default_category_created_ats h txs = Ok h' ->
  exists d, earliest_loop h ∅ txs = Ok d /\ Forall (resolvable d h) txs /\
    (forall l, h' !! l =
       if decide (l ∈ Transaction.category <$> txs) then stamp d <$> h !! l else h !! l).
Proof.
  unfold set_default_category_created_ats. intros Hrun.
  apply bind_ok_inv in Hrun as (d & Hd & Hrun).
  exists d. split; [done|]. by apply assign_loop_inv.
Qed.

Lemma set_default_names (h h' : store) (txs : ledger) :
  set_default_category_created_ats h txs = Ok h' ->
  forall l, Category.name <$> h' !! l = Category.name <$> h !! l.
Proof.
  intros Hrun l. apply set_default_inv in Hrun as (d & _ & _ & Hlook).
  rewrite Hlook. case_decide; [|done]. by destruct (h !! l).
Qed.

End Aggregation.

Section AggregationTheorems.
Context {zones : TzDatabase}.

Lemma earliest_dict_spec (h : store) (txs : ledger) :
  wf_ledger h txs -> utc_ledger txs ->
  exists d, earliest_loop h ∅ txs = Ok d /\ utc_dict d /\
    (forall n m, d !! n = Some m -> is_earliest h txs n m) /\
    (forall t n, t ∈ txs -> cat_name h t = Some n -> is_Some (d !! n)).
Proof.
  intros Hwf Hutc.
  destruct (earliest_loop_spec h txs ∅ Hwf Hutc) as (d & Hloop & Hd & Ha & _ & Hc).
  { intros n m Hn. by rewrite lookup_empty in Hn. }
  exists d. split_and!; auto.
  - intros n m Hn. split.
    + destruct (Ha n m Hn) as [Hn0|?]; [|done]. by rewrite lookup_empty in Hn0.
    + intros t Ht Hname. destruct (Hc t n Ht Hname) as (m' & Hm' & Hle).
      assert (m' = m) as -> by congruence.
      apply datetime_lt_false_le; [by eapply Hd | | done].
      by apply (proj1 (Forall_forall _ _) Hutc).
  - intros t n Ht Hname. destruct (Hc t n Ht Hname) as (m & Hm & _). eauto.
Qed.

Lemma is_earliest_names (h h' : store) (txs : ledger) (n : string) (m : datetime) :
  (forall l, Category.name <$> h' !! l = Category.name <$> h !! l) ->
  is_earliest h txs n m -> is_earliest h' txs n m.
Proof.
  intros Hn [(t & Ht & Hname & Hm) Hmin]. unfold is_earliest, cat_name in *. split.
  - exists t. by rewrite Hn.
  - intros t' Ht'. rewrite Hn. by apply Hmin.
Qed.

Lemma set_default_spec (h : store) (txs : ledger) :
  wf_ledger h txs -> utc_ledger txs ->
  exists h', set_default_category_created_ats h txs = Ok h' /\
    forall t, t ∈ txs ->
      exists c m, h' !! Transaction.category t = Some c /\
        cat_name h t = Some (Category.name c) /\
        Category.created_at c = Some m /\ is_utc m /\
        is_earliest h' txs (Category.name c) m.
Proof.
  intros Hwf Hutc.
  destruct (earliest_dict_spec h txs Hwf Hutc) as (d & Hloop & Hd & Hmin & Htot).
  assert (Hres : Forall (resolvable d h) txs).
  { apply Forall_forall. intros t Ht.
    destruct (proj1 (Forall_forall _ _) Hwf t Ht) as [c Hc].
    exists c. split; [done|]. apply (Htot t); [done|]. unfold cat_name. by rewrite Hc. }
  destruct (assign_loop_ok d txs h Hres) as [h' Hassign].
  assert (Hrun : set_default_category_created_ats h txs = Ok h').
  { unfold set_default_category_created_ats. by rewrite Hloop. }
  exists h'. split; [done|]. intros t Ht.
  destruct (proj1 (Forall_forall _ _) Hres t Ht) as (c & Hc & [m Hm]).
  destruct (assign_loop_inv d txs h h' Hassign) as [_ Hlook].
  exists (stamp d c), m. split_and!.
  - rewrite Hlook, decide_True, Hc; [done|]. by apply list_elem_of_fmap_2.
  - unfold cat_name. by rewrite Hc.
  - done.
  - by eapply Hd.
  - eapply is_earliest_names; [exact (set_default_names h h' txs Hrun) | by apply Hmin].
Qed.

(** C1: after [set_default_category_created_ats], the category object of every
    transaction carries the earliest timestamp among the transactions whose
    category has the same name; in particular two transactions sharing a name
    at timestamps T1 < T2 both end with [created_at = T1]. *)
Theorem aggregation_assigns_earliest (h : store) (txs : ledger) :
  wf_ledger h txs -> utc_ledger txs ->
  exists h', set_default_category_created_ats h txs = Ok h' /\
    (forall t, t ∈ txs ->
       exists c m, h' !! Transaction.category t = Some c /\
         cat_name h t = Some (Category.name c) /\
         Category.created_at c = Some m /\
         is_earliest h' txs (Category.name c) m) /\
    (forall t1 t2,
       (txs = [t1; t2] \/ txs = [t2; t1]) ->
       cat_name h t1 = cat_name h t2 ->
       datetime_lt (Transaction.created_at t1) (Transaction.created_at t2) = Ok true ->
       Category.created_at <$> h' !! Transaction.category t1
         = Some (Some (Transaction.created_at t1)) /\
       Category.created_at <$> h' !! Transaction.category t2
         = Some (Some (Transaction.created_at t1))).
Proof.
  intros Hwf Hutc.
  destruct (set_default_spec h txs Hwf Hutc) as (h' & Hrun & Hspec).
  exists h'. split; [done|]. split.
  - intros t Ht. destruct (Hspec t Ht) as (c & m & ? & ? & ? & _ & ?). eauto 10.
  - intros t1 t2 Htxs Hsame Hlt.
    assert (Hmem : forall t, t ∈ txs <-> t = t1 \/ t = t2).
    { intros t. destruct Htxs as [-> | ->]; rewrite !elem_of_cons, elem_of_nil; tauto. }
    assert (Hin1 : t1 ∈ txs) by (apply Hmem; auto).
    assert (Hin2 : t2 ∈ txs) by (apply Hmem; auto).
    assert (Hnames := set_default_names h h' txs Hrun).
    assert (Hval : forall t, t ∈ txs ->
              Category.created_at <$> h' !! Transaction.category t
                = Some (Some (Transaction.created_at t1))).
    { intros t Ht. destruct (Hspec t Ht) as (c & m & Hc & Hname & Hm & _ & Hex & Hmin).
      rewrite Hc. simpl. rewrite Hm. do 2 f_equal.
      assert (Hn : forall t', t' ∈ txs -> cat_name h' t' = Some (Category.name c)).
      { intros t' Ht'. unfold cat_name. rewrite Hnames. fold (cat_name h t').
        transitivity (cat_name h t); [|done].
        apply Hmem in Ht as Hc1. apply Hmem in Ht' as Hc2.
        destruct Hc1 as [-> | ->], Hc2 as [-> | ->]; congruence. }
      destruct Hex as (t0 & Ht0 & _ & Hm0).
      apply Hmem in Ht0 as [-> | ->]; [done|].
      specialize (Hmin t1 Hin1 (Hn t1 Hin1)). congruence. }
    split; by apply Hval.
Qed.

(** C6: running the aggregation a second time changes nothing: every category
    keeps the [created_at] the first run gave it. *)
Theorem aggregation_idempotent (h h1 : store) (txs : ledger) :
  set_default_category_created_ats h txs = Ok h1 ->
  set_default_category_created_ats h1 txs = Ok h1.
Proof.
  intros Hrun. assert (Hnames := set_default_names h h1 txs Hrun).
  apply set_default_inv in Hrun as (d & Hloop & Hres & Hlook).
  unfold set_default_category_created_ats.
  rewrite (earliest_loop_names h1 h txs Hnames), Hloop. simpl.
  assert (Hres1 : Forall (resolvable d h1) txs).
  { apply Forall_forall. intros t Ht.
    destruct (proj1 (Forall_forall _ _) Hres t Ht) as (c & Hc & Hd).
    exists (stamp d c). split; [|done].
    rewrite Hlook, decide_True, Hc; [done|]. by apply list_elem_of_fmap_2. }
  destruct (assign_loop_ok d txs h1 Hres1) as [h2 Hassign]. rewrite Hassign. f_equal.
  apply assign_loop_inv in Hassign as [_ Hlook2].
  apply map_eq. intros l. rewrite Hlook2. case_decide as Hin; [|done].
  rewrite Hlook, decide_True by done. by destruct (h !! l).
Qed.

End AggregationTheorems.

(** ** Serialization: the assertion of [__repr__] *)
Section Serialization.
Context {zones : TzDatabase} {floats : FloatRepr}.

Lemma mapM_ok_inv {A B} (f : A -> result B) (l : list A) (ys : list B) :
  mapM f l = Ok ys -> Forall2 (fun x y => f x = Ok y) l ys.
Proof.
  revert ys; induction l as [|x l IH]; intros ys; simpl.
  - intros [= <-]. constructor.
  - intros Hrun. apply bind_ok_inv in Hrun as (y & Hy & Hrun).
    apply bind_ok_inv in Hrun as (ys' & Hys & [= <-]). constructor; auto.
Qed.

Lemma mapM_ok {A B} (f : A -> result B) (l : list A) :
  Forall (fun x => exists y, f x = Ok y) l -> exists ys, mapM f l = Ok ys.
Proof.
  induction 1 as [|x l [y Hy] _ [ys Hys]]; simpl; [eauto|].
  rewrite Hy. simpl. rewrite Hys. simpl. eauto.
Qed.

Lemma mapM_raise_inv {A B} (f : A -> result B) (l : list A) (e : exn) :
  mapM f l = Raise e -> exists x, x ∈ l /\ f x = Raise e.
Proof.
  induction l as [|x l IH]; simpl; [done|]. intros Hrun.
  apply bind_raise_inv in Hrun as [Hx | (y & Hy & Hrun)].
  - exists x. split; [by left | done].
  - apply bind_raise_inv in Hrun as [Hl | (ys & Hys & Hrun)]; [|done].
    destruct (IH Hl) as (x' & Hx' & Hf). exists x'. split; [by right | done].
Qed.

(** What the aggregation can raise: a comparison of a naive with an aware
    timestamp, and nothing else for a ledger whose references are in the store. *)
Definition aggregation_exn (e : exn) : Prop :=
  e = Dangling \/ e = TypeError \/ e = KeyError.

Lemma earliest_loop_raises h txs : forall d e,
  earliest_loop h d txs = Raise e -> aggregation_exn e.
Proof.
  induction txs as [|t rest IH]; intros d e; simpl; [done|]. intros Hrun.
  apply bind_raise_inv in Hrun as [Hstep | (d1 & _ & Hrun)]; [|by eapply IH].
  unfold earliest_step, deref in Hstep.
  destruct (h !! Transaction.category t) as [c|]; simpl in Hstep;
    [|left; congruence].
  destruct (d !! Category.name c) as [e0|]; [|done].
  apply bind_raise_inv in Hstep as [Hlt | (b & _ & ?)]; [|done].
  right; left. by eapply datetime_lt_raises.
Qed.

Lemma assign_loop_raises d txs : forall h e,
  assign_loop d h txs = Raise e -> aggregation_exn e.
Proof.
  induction txs as [|t rest IH]; intros h e; simpl; [done|]. intros Hrun.
  apply bind_raise_inv in Hrun as [Hstep | (h1 & _ & Hrun)]; [|by eapply IH].
  unfold assign_step, deref in Hstep.
  destruct (h !! Transaction.category t) as [c|]; simpl in Hstep;
    [|left; congruence].
  destruct (d !! Category.name c); [done|]. right; right. congruence.
Qed.

Lemma set_default_raises h txs e :
  set_default_category_created_ats h txs = Raise e -> aggregation_exn e.
Proof.
  unfold set_default_category_created_ats. intros Hrun.
  apply bind_raise_inv in Hrun as [Hloop | (d & _ & Hrun)].
  - by eapply earliest_loop_raises.
  - by eapply assign_loop_raises.
Qed.

Lemma elem_of_iteration (txs : ledger) (order : list loc) (l : loc) :
  set_iteration (categories txs) order ->
  l ∈ order <-> l ∈ Transaction.category <$> txs.
Proof.
  unfold set_iteration, categories. intros ->.
  rewrite elem_of_elements, elem_of_list_to_set. done.
Qed.

(** After the aggregation every category of the ledger has a timestamp. *)
Lemma set_default_stamped (h h' : store) (txs : ledger) (l : loc) :
  set_default_category_created_ats h txs = Ok h' ->
  l ∈ Transaction.category <$> txs ->
  exists c dt, h' !! l = Some c /\ Category.created_at c = Some dt.
Proof.
  intros Hrun Hl. apply set_default_inv in Hrun as (d & _ & Hres & Hlook).
  apply list_elem_of_fmap in Hl as (t & -> & Ht).
  destruct (proj1 (Forall_forall _ _) Hres t Ht) as (c & Hc & [dt Hdt]).
  exists (stamp d c), dt. split; [|done].
  rewrite Hlook, decide_True, Hc; [done|]. by apply list_elem_of_fmap_2.
Qed.

Lemma category_dict_ok (h h' : store) (txs : ledger) (l : loc) :
  set_default_category_created_ats h txs = Ok h' ->
  l ∈ Transaction.category <$> txs ->
  exists c dt, h' !! l = Some c /\ Category.created_at c = Some dt /\
    category_dict h' l = Ok (Category.name c, isoformat dt).
Proof.
  intros Hrun Hl. destruct (set_default_stamped h h' txs l Hrun Hl) as (c & dt & Hc & Hdt).
  exists c, dt. split_and!; [done..|].
  unfold category_dict, deref. rewrite Hc. simpl. by rewrite Hdt.
Qed.

Lemma transaction_dict_raises h cds t e :
  transaction_dict h cds t = Raise e -> e = Dangling \/ e = IndexError \/ e = ValueError.
Proof.
  unfold transaction_dict, deref. intros Hrun.
  destruct (h !! Transaction.category t) as [c|]; simpl in Hrun; [|left; congruence].
  apply bind_raise_inv in Hrun as [Hf | (cd & _ & Hrun)].
  - unfold first_by_name in Hf. destruct (List.filter _ cds); [|done].
    right; left. congruence.
  - apply bind_raise_inv in Hrun as [Ha | (a & _ & ?)]; [|done].
    right; right. unfold amount_json in Ha.
    destruct (Transaction.amount t) as [| |s [|] p]; try done. congruence.
Qed.

Definition not_signaling (d : Decimal) : Prop :=
  match d with NaN _ true _ => False | _ => True end.

Lemma amount_json_ok (d : Decimal) :
  not_signaling d -> exists text, amount_json d = Ok (JNumber text).
Proof. destruct d as [| |s [|] p]; simpl; intros Hd; try done; eauto. Qed.

Lemma first_by_name_ok (n : string) (cds : list (string * string)) :
  n ∈ cds.*1 -> exists cd, first_by_name n cds = Ok cd /\ fst cd = n /\ cd ∈ cds.
Proof.
  intros Hn. apply list_elem_of_fmap in Hn as (cd0 & -> & Hcd0).
  unfold first_by_name.
  assert (Hin : In cd0 (List.filter (fun cd => bool_decide (fst cd0 = fst cd)) cds)).
  { apply filter_In. split; [by apply list_elem_of_In | by apply bool_decide_eq_true]. }
  destruct (List.filter _ cds) as [|cd rest] eqn:Hf; [done|].
  assert (Hcd : In cd (List.filter (fun cd => bool_decide (fst cd0 = fst cd)) cds))
    by (rewrite Hf; by left).
  apply filter_In in Hcd as [Hcd1 Hcd2]. apply bool_decide_eq_true in Hcd2.
  exists cd. split_and!; [done | done | by apply list_elem_of_In].
Qed.

End Serialization.

Section SerializationTheorems.
Context {zones : TzDatabase} {floats : FloatRepr}.

Lemma category_dicts_ok (order : list loc) (h h' : store) (txs : ledger) :
  set_iteration (categories txs) order ->
  set_default_category_created_ats h txs = Ok h' ->
  exists cds, mapM (category_dict h') order = Ok cds /\
    Forall2 (fun l cd => exists c dt, h' !! l = Some c /\ Category.created_at c = Some dt /\
                           cd = (Category.name c, isoformat dt)) order cds.
Proof.
  intros Hit Hrun.
  assert (Hall : Forall (fun l => exists cd, category_dict h' l = Ok cd) order).
  { apply Forall_forall. intros l Hl. apply (elem_of_iteration txs) in Hl; [|done].
    destruct (category_dict_ok h h' txs l Hrun Hl) as (c & dt & _ & _ & Hcd). eauto. }
  destruct (mapM_ok _ _ Hall) as [cds Hcds]. exists cds. split; [done|].
  apply mapM_ok_inv in Hcds. eapply Forall2_impl; [exact Hcds|].
  intros l cd Hcd. simpl in Hcd. unfold category_dict, deref in Hcd.
  destruct (h' !! l) as [c|]; simpl in Hcd; [|done].
  destruct (Category.created_at c) as [dt|] eqn:Hdt; [|done].
  injection Hcd as <-. eauto.
Qed.

Lemma top_level_ok (order : list loc) (h h' : store) (txs : ledger) :
  set_iteration (categories txs) order ->
  set_default_category_created_ats h txs = Ok h' ->
  Forall (fun t => not_signaling (Transaction.amount t)) txs ->
  exists doc, top_level order h' txs = Ok doc.
Proof.
  intros Hit Hrun Hamt.
  destruct (category_dicts_ok order h h' txs Hit Hrun) as (cds & Hcds & Hshape).
  unfold top_level. rewrite Hcds. simpl.
  assert (Hall : Forall (fun t => exists j, transaction_dict h' cds t = Ok j) txs).
  { apply Forall_forall. intros t Ht.
    assert (Hl : Transaction.category t ∈ Transaction.category <$> txs)
      by (by apply list_elem_of_fmap_2).
    destruct (set_default_stamped h h' txs _ Hrun Hl) as (c & dt & Hc & Hdt).
    assert (Hname : Category.name c ∈ cds.*1).
    { apply (elem_of_iteration txs order) in Hl; [|done].
      apply list_elem_of_lookup in Hl as [i Hi].
      destruct (Forall2_lookup_l _ _ _ _ _ Hshape Hi) as (cd & Hcd & c' & dt' & Hc' & _ & ->).
      assert (c' = c) as -> by congruence.
      apply list_elem_of_fmap. exists (Category.name c, isoformat dt'). split; [done|].
      by eapply list_elem_of_lookup_2. }
    destruct (first_by_name_ok _ _ Hname) as (cd & Hcd & _).
    destruct (amount_json_ok (Transaction.amount t)) as [text Ha].
    { by apply (proj1 (Forall_forall _ _) Hamt). }
    unfold transaction_dict, deref. rewrite Hc. simpl. rewrite Hcd. simpl.
    rewrite Ha. simpl. eauto. }
  destruct (mapM_ok _ _ Hall) as [tds Htds]. rewrite Htds. simpl. eauto.
Qed.

Lemma repr_ok (order : list loc) (h : store) (txs : ledger) :
  set_iteration (categories txs) order ->
  wf_ledger h txs -> utc_ledger txs ->
  Forall (fun t => not_signaling (Transaction.amount t)) txs ->
  exists h' text, repr order h txs = Ok (h', text).
Proof.
  intros Hit Hwf Hutc Hamt.
  destruct (set_default_spec h txs Hwf Hutc) as (h' & Hagg & _).
  destruct (top_level_ok order h h' txs Hit Hagg Hamt) as [doc Hdoc].
  unfold repr. rewrite Hagg. simpl. rewrite Hdoc. simpl. eauto.
Qed.

(** C5: [__repr__] runs the aggregation first, so when it reaches the
    assertion every category of the ledger has a timestamp: the call never
    ends in [AssertionError], whatever the ledger; and on a ledger of UTC
    timestamps it returns, with the store the aggregation left. *)
Theorem repr_assertion_never_fails (order : list loc) (h : store) (txs : ledger) :
  set_iteration (categories txs) order ->
  repr order h txs <> Raise AssertionError /\
  (forall h' text, repr order h txs = Ok (h', text) ->
     set_default_category_created_ats h txs = Ok h') /\
  (forall h', set_default_category_created_ats h txs = Ok h' ->
     forall l, l ∈ order ->
       exists c dt, h' !! l = Some c /\ Category.created_at c = Some dt) /\
  (wf_ledger h txs -> utc_ledger txs ->
   Forall (fun t => not_signaling (Transaction.amount t)) txs ->
   exists h' text, repr order h txs = Ok (h', text)).
Proof.
  intros Hit. split_and!.
  - unfold repr. intros Hrun.
    apply bind_raise_inv in Hrun as [Hagg | (h' & Hagg & Hrun)].
    { apply set_default_raises in Hagg as [?|[?|?]]; done. }
    apply bind_raise_inv in Hrun as [Htop | (doc & _ & ?)]; [|done].
    destruct (category_dicts_ok order h h' txs Hit Hagg) as (cds & Hcds & _).
    unfold top_level in Htop. rewrite Hcds in Htop. simpl in Htop.
    apply bind_raise_inv in Htop as [Htds | (tds & _ & ?)]; [|done].
    apply mapM_raise_inv in Htds as (t & _ & Ht).
    apply transaction_dict_raises in Ht as [?|[?|?]]; done.
  - unfold repr. intros h' text Hrun.
    apply bind_ok_inv in Hrun as (h1 & Hagg & Hrun).
    apply bind_ok_inv in Hrun as (doc & _ & [= <- _]). done.
  - intros h' Hagg l Hl. apply (elem_of_iteration txs) in Hl; [|done].
    by eapply set_default_stamped.
  - intros Hwf Hutc Hamt. by apply repr_ok.
Qed.

End SerializationTheorems.

(** ** The row loop of [parse_expense_log] *)
Section Parsing.
Context {zones : TzDatabase}.

(** A data row is structurally valid when every step of its decoding goes through. *)
Definition valid_row (row : list string) : bool := is_ok (parse_fields row).

(** The decoded contents of the valid rows, in order. *)
Definition parsed_rows (rows : list (list string))
  : list (datetime * Decimal * string * string) :=
  omap (fun row => match parse_fields row with Ok x => Some x | Raise _ => None end) rows.

(** The lines a run prints for the rows numbered from [i] on. *)
Fixpoint diagnostics_from (i : nat) (rows : list (list string)) : list diagnostic :=
  match rows with
  | [] => []
  | row :: rest =>
      match parse_fields row with
      | Ok _ => diagnostics_from (S i) rest
      | Raise e => {| diag_reason := e; diag_row := i |} :: diagnostics_from (S i) rest
      end
  end.

(** Transaction [t] is what the row decoded as [x] became, its category a
    fresh object that carries the name and no timestamp. *)
Definition row_image (h : store) (t : Transaction.t)
    (x : datetime * Decimal * string * string) : Prop :=
  let '(dt, amount, cname, notes) := x in
  Transaction.created_at t = dt /\ Transaction.amount t = amount /\
  Transaction.notes t = notes /\
  h !! Transaction.category t = Some (Category.mk cname None).

Lemma parsed_rows_length (rows : list (list string)) :
  length (parsed_rows rows) = length (List.filter valid_row rows).
Proof.
  induction rows as [|row rest IH]; simpl; [done|].
  unfold parsed_rows, valid_row in *. simpl.
  destruct (parse_fields row); simpl; auto.
Qed.

Lemma parse_row_ok (i : nat) (row : list string) (st : parser_state) dt amount cname notes :
  i <> 0%nat ->
  parse_fields row = Ok (dt, amount, cname, notes) ->
  parse_row i row st =
    {| ps_store := <[fresh (dom (ps_store st)) := Category.mk cname None]> (ps_store st);
       ps_ledger :=
         ps_ledger st ++ [Transaction.mk dt amount (fresh (dom (ps_store st))) notes];
       ps_stdout := ps_stdout st |}.
Proof. intros Hi Hrow. unfold parse_row. by rewrite decide_False, Hrow. Qed.

Lemma parse_row_raise (i : nat) (row : list string) (st : parser_state) (e : exn) :
  i <> 0%nat ->
  parse_fields row = Raise e ->
  parse_row i row st =
    {| ps_store := ps_store st;
       ps_ledger := ps_ledger st;
       ps_stdout := ps_stdout st ++ [{| diag_reason := e; diag_row := i |}] |}.
Proof. intros Hi Hrow. unfold parse_row. by rewrite decide_False, Hrow. Qed.

Lemma parse_rows_spec (rows : list (list string)) :
  forall (i : nat) (st : parser_state), i <> 0%nat ->
  exists new,
    ps_ledger (parse_rows i rows st) = ps_ledger st ++ new /\
    ps_store st ⊆ ps_store (parse_rows i rows st) /\
    Forall2 (row_image (ps_store (parse_rows i rows st))) new (parsed_rows rows) /\
    Forall (fun t => Transaction.category t ∉ dom (ps_store st)) new /\
    NoDup (Transaction.category <$> new) /\
    ps_stdout (parse_rows i rows st) = ps_stdout st ++ diagnostics_from i rows.
Proof.
  induction rows as [|row rest IH]; intros i st Hi.
  - exists []. simpl. rewrite !app_nil_r. split_and!; try done; constructor.
  - cbn [parse_rows]. unfold parsed_rows. cbn [omap list_omap diagnostics_from].
    fold (parsed_rows rest).
    destruct (parse_fields row) as [[[[dt amount] cname] notes]|e] eqn:Hrow.
    + rewrite (parse_row_ok i row st dt amount cname notes Hi Hrow).
      set (l := fresh (dom (ps_store st))).
      set (st1 := {| ps_store := <[l := Category.mk cname None]> (ps_store st);
                     ps_ledger := ps_ledger st ++ [Transaction.mk dt amount l notes];
                     ps_stdout := ps_stdout st |}).
      destruct (IH (S i) st1 ltac:(done)) as (new & Hled & Hsub & Himg & Hfresh & Hnd & Hout).
      set (final := parse_rows (S i) rest st1) in *.
      cbn [ps_ledger ps_store ps_stdout st1] in Hled, Hsub, Hfresh, Hout.
      assert (Hl : ps_store st !! l = None)
        by (apply not_elem_of_dom; apply is_fresh).
      assert (Hfinal : ps_store final !! l = Some (Category.mk cname None)).
      { eapply lookup_weaken; [|exact Hsub]. apply lookup_insert_eq. }
      exists (Transaction.mk dt amount l notes :: new). split_and!.
      * rewrite Hled. by rewrite <- app_assoc.
      * etrans; [|exact Hsub]. by apply insert_subseteq.
      * constructor; [|done]. by cbn.
      * constructor; [cbn; apply is_fresh|].
        eapply Forall_impl; [exact Hfresh|]. intros t Ht. cbn in Ht.
        intros Hin. apply Ht. apply elem_of_dom. apply elem_of_dom in Hin as [c Hc].
        rewrite lookup_insert. case_decide; eauto.
      * rewrite fmap_cons. constructor; [|done]. cbn.
        intros Hin. apply list_elem_of_fmap in Hin as (t & Ht & Hin).
        apply (proj1 (Forall_forall _ _) Hfresh) in Hin. apply Hin.
        apply elem_of_dom. rewrite <- Ht, lookup_insert_eq. eauto.
      * done.
    + rewrite (parse_row_raise i row st e Hi Hrow).
      set (st1 := {| ps_store := ps_store st; ps_ledger := ps_ledger st;
                     ps_stdout := ps_stdout st ++ [{| diag_reason := e; diag_row := i |}] |}).
      destruct (IH (S i) st1 ltac:(done)) as (new & Hled & Hsub & Himg & Hfresh & Hnd & Hout).
      cbn [ps_ledger ps_store ps_stdout st1] in Hled, Hsub, Hfresh, Hout.
      exists new. split_and!; try done.
      rewrite Hout. by rewrite <- app_assoc.
Qed.

Lemma parse_expense_log_spec (rows : list (list string)) :
  let st := parse_expense_log rows in
  Forall2 (row_image (ps_store st)) (ps_ledger st) (parsed_rows (tail rows)) /\
  length (ps_ledger st) = length (List.filter valid_row (tail rows)) /\
  NoDup (Transaction.category <$> ps_ledger st) /\
  ps_stdout st = diagnostics_from 1 (tail rows).
Proof.
  intros st.
  assert (Hspec : Forall2 (row_image (ps_store st)) (ps_ledger st) (parsed_rows (tail rows)) /\
    NoDup (Transaction.category <$> ps_ledger st) /\
    ps_stdout st = diagnostics_from 1 (tail rows)).
  { subst st. destruct rows as [|header rest].
    - cbn. split_and!; [constructor | constructor | done].
    - unfold parse_expense_log. cbn [parse_rows tail].
      replace (parse_row 0 header initial_state) with initial_state by done.
      destruct (parse_rows_spec rest 1 initial_state ltac:(done))
        as (new & Hled & _ & Himg & _ & Hnd & Hout).
      cbn [initial_state ps_ledger ps_stdout] in Hled, Hout. rewrite app_nil_l in Hled, Hout.
      rewrite Hled. done. }
  destruct Hspec as (Himg & Hnd & Hout). split_and!; try done.
  rewrite <- parsed_rows_length. by eapply Forall2_length.
Qed.

Lemma diagnostics_from_positive (rows : list (list string)) :
  forall j, (0 < j)%nat -> Forall (fun d => diag_row d <> 0%nat) (diagnostics_from j rows).
Proof.
  induction rows as [|row rows IH]; intros j Hj; cbn; [constructor|].
  destruct (parse_fields row); [apply IH; lia|].
  constructor; [cbn; lia | apply IH; lia].
Qed.

(** C2: a row whose decoding fails at any step is skipped, and only that row:
    a line with its number and the reason is printed, the loop goes on, the
    transactions of the ledger are exactly the decoded valid data rows, in
    order, and there are as many of them as valid data rows. *)
Theorem parse_expense_log_skips_bad_rows (rows : list (list string)) :
  let st := parse_expense_log rows in
  Forall2 (row_image (ps_store st)) (ps_ledger st) (parsed_rows (tail rows)) /\
  length (ps_ledger st) = length (List.filter valid_row (tail rows)) /\
  ps_stdout st = diagnostics_from 1 (tail rows) /\
  (forall (i : nat) (row : list string) (s : parser_state) (e : exn),
     i <> 0%nat -> parse_fields row = Raise e ->
     ps_ledger (parse_row i row s) = ps_ledger s /\
     ps_store (parse_row i row s) = ps_store s /\
     ps_stdout (parse_row i row s)
       = ps_stdout s ++ [{| diag_reason := e; diag_row := i |}]).
Proof.
  intros st. destruct (parse_expense_log_spec rows) as (Himg & Hlen & _ & Hout).
  split_and!; try done.
  intros i row s e Hi Hrow. by rewrite (parse_row_raise i row s e Hi Hrow).
Qed.

(** C8: the first row is skipped whatever it holds: the result of the run
    does not depend on it, no line is printed for it, and the ledger has one
    transaction per valid row among the others, also when the first row is
    itself a valid data row. *)
Theorem header_row_is_skipped (header : list string) (rest : list (list string)) :
  parse_expense_log (header :: rest) = parse_rows 1 rest initial_state /\
  (forall header', parse_expense_log (header' :: rest) = parse_expense_log (header :: rest)) /\
  length (ps_ledger (parse_expense_log (header :: rest)))
    = length (List.filter valid_row rest) /\
  Forall (fun d => diag_row d <> 0%nat) (ps_stdout (parse_expense_log (header :: rest))).
Proof.
  destruct (parse_expense_log_spec (header :: rest)) as (_ & Hlen & _ & Hout).
  split_and!; try done.
  rewrite Hout. apply diagnostics_from_positive. lia.
Qed.

End Parsing.

(** ** Strings *)
Section StringFacts.
Local Open Scope string_scope.

Lemma sapp_nil_r (s : string) : s ++ "" = s.
Proof. induction s as [|c s IH]; simpl; congruence. Qed.

Lemma sapp_assoc (a b c : string) : (a ++ b) ++ c = a ++ (b ++ c).
Proof. induction a as [|x a IH]; simpl; congruence. Qed.

Lemma slength_app (a b : string) :
  String.length (a ++ b) = (String.length a + String.length b)%nat.
Proof. induction a as [|x a IH]; simpl; congruence. Qed.

(** [all_chars f s]: every character of [s] passes [f]. *)
Fixpoint all_chars (f : ascii -> bool) (s : string) : bool :=
  match s with
  | "" => true
  | String c r => f c && all_chars f r
  end.

Lemma all_chars_app f a b : all_chars f (a ++ b) = all_chars f a && all_chars f b.
Proof. induction a as [|x a IH]; simpl; [done|]. by rewrite IH, andb_assoc. Qed.

Lemma all_chars_impl (f g : ascii -> bool) s :
  (forall c, f c = true -> g c = true) -> all_chars f s = true -> all_chars g s = true.
Proof.
  intros Hfg. induction s as [|c s IH]; simpl; [done|].
  intros [Hc Hs]%andb_true_iff. rewrite (Hfg c Hc). simpl. auto.
Qed.

Lemma all_digits_all_chars s : all_digits s = all_chars is_digit s.
Proof. induction s as [|c s IH]; simpl; congruence. Qed.

Lemma count_char_app x a b :
  count_char x (a ++ b) = (count_char x a + count_char x b)%nat.
Proof. induction a as [|c a IH]; simpl; [done|]. rewrite IH. lia. Qed.

Lemma count_char_zero x s :
  count_char x s = 0%nat <-> all_chars (fun c => negb (Ascii.eqb c x)) s = true.
Proof.
  induction s as [|c s IH]; simpl; [done|].
  destruct (Ascii.eqb c x); simpl; [split; [lia | done] | done].
Qed.

(** *** [split] *)

Lemma split_nonempty sep s : split sep s <> [].
Proof. destruct s as [|c s]; simpl; [done|]. destruct (Ascii.eqb c sep); [done|]. by destruct (split sep s). Qed.

Lemma split_no_sep sep s : count_char sep s = 0%nat -> split sep s = [s].
Proof.
  induction s as [|c s IH]; simpl; [done|].
  destruct (Ascii.eqb c sep); simpl; [lia|]. intros Hs. by rewrite (IH Hs).
Qed.

Lemma split_app_sep sep p b :
  count_char sep p = 0%nat -> split sep (p ++ String sep b) = p :: split sep b.
Proof.
  induction p as [|c p IH]; simpl.
  - intros _. by rewrite Ascii.eqb_refl.
  - destruct (Ascii.eqb c sep); simpl; [lia|]. intros Hp. by rewrite (IH Hp).
Qed.

Lemma split_single_inv sep s b : split sep s = [b] -> s = b /\ count_char sep b = 0%nat.
Proof.
  revert b; induction s as [|c s IH]; intros b; simpl.
  - by intros [= <-].
  - destruct (Ascii.eqb c sep) eqn:Hc.
    + intros [= _ Hs]. by apply split_nonempty in Hs.
    + destruct (split sep s) as [|p ps] eqn:Hs; [by apply split_nonempty in Hs|].
      intros [= <- ->]. destruct (IH p eq_refl) as [-> Hp]. simpl. by rewrite Hc.
Qed.

Lemma split_pair_inv sep s p b :
  split sep s = [p; b] ->
  s = p ++ String sep b /\ count_char sep p = 0%nat /\ count_char sep b = 0%nat.
Proof.
  revert p; induction s as [|c s IH]; intros p; simpl; [done|].
  destruct (Ascii.eqb c sep) eqn:Hc.
  - intros [= <- Hs]. apply split_single_inv in Hs as [-> Hb].
    apply Ascii.eqb_eq in Hc as ->. done.
  - destruct (split sep s) as [|p' ps] eqn:Hs; [by apply split_nonempty in Hs|].
    intros [= <- ->]. destruct (IH p' eq_refl) as (-> & Hp & Hb).
    simpl. rewrite Hc. done.
Qed.

Lemma split_length sep s : length (split sep s) = S (count_char sep s).
Proof.
  induction s as [|c s IH]; simpl; [done|].
  destruct (Ascii.eqb c sep); simpl; [by rewrite IH|].
  destruct (split sep s) as [|p ps] eqn:Hs; [by apply split_nonempty in Hs|].
  simpl in *. lia.
Qed.

(** The field holds exactly one separator exactly when [split] gives a pair. *)
Lemma unpack2_split_ok sep s p b :
  unpack2 (split sep s) = Ok (p, b) <->
  s = p ++ String sep b /\ count_char sep p = 0%nat /\ count_char sep b = 0%nat.
Proof.
  split.
  - unfold unpack2. destruct (split sep s) as [|x [|y [|z l]]] eqn:Hs; try done.
    intros [= -> ->]. by apply split_pair_inv.
  - intros (-> & Hp & Hb). rewrite split_app_sep, split_no_sep by done. done.
Qed.

Lemma unpack2_split_count sep s :
  is_ok (unpack2 (split sep s)) = true <-> count_char sep s = 1%nat.
Proof.
  pose proof (split_length sep s) as Hlen. unfold unpack2.
  destruct (split sep s) as [|x [|y [|z l]]]; simpl in *; split; (done || lia).
Qed.

End StringFacts.

(** ** [replace] *)
Section ReplaceFacts.
Local Open Scope string_scope.

Lemma strip_prefix_length p s r :
  strip_prefix p s = Some r -> String.length s = (String.length p + String.length r)%nat.
Proof.
  revert s; induction p as [|a p IH]; intros [|b s]; simpl; try done.
  - by intros [= <-].
  - by intros [= <-].
  - destruct (Ascii.eqb a b); [|done]. intros Hr. by rewrite (IH _ Hr).
Qed.

Lemma strip_prefix_spec p s r : strip_prefix p s = Some r <-> s = p ++ r.
Proof.
  revert s; induction p as [|a p IH]; intros s; simpl.
  - destruct s; split; congruence.
  - destruct s as [|b s]; [split; congruence|].
    destruct (Ascii.eqb a b) eqn:Hab.
    + apply Ascii.eqb_eq in Hab as ->. rewrite IH. split; congruence.
    + apply Ascii.eqb_neq in Hab. split; congruence.
Qed.

Lemma strip_prefix_app p r : strip_prefix p (p ++ r) = Some r.
Proof. by apply strip_prefix_spec. Qed.

(** Enough fuel is as good as any other amount of it. *)
Lemma replace_scan_fuel old new (Hold : old <> "") :
  forall n m s, (String.length s < n)%nat -> (String.length s < m)%nat ->
    replace_scan n old new s = replace_scan m old new s.
Proof.
  induction n as [|n IH]; intros m s Hn Hm; [lia|].
  destruct m as [|m]; [lia|]. simpl.
  destruct (strip_prefix old s) as [r|] eqn:Hr.
  - apply strip_prefix_length in Hr. destruct old; [done|]. simpl in Hr.
    f_equal. apply IH; lia.
  - destruct s as [|c s]; [done|]. simpl in *. f_equal. apply IH; lia.
Qed.

Lemma replace_unfold old new s :
  old <> "" -> replace old new s = replace_scan (S (String.length s)) old new s.
Proof. by destruct old. Qed.

Lemma replace_scan_S n old new s :
  replace_scan (S n) old new s =
    match strip_prefix old s with
    | Some rest => new ++ replace_scan n old new rest
    | None =>
        match s with
        | "" => ""
        | String c r => String c (replace_scan n old new r)
        end
    end.
Proof. done. Qed.

Lemma replace_nil old new : old <> "" -> replace old new "" = "".
Proof. destruct old; [done|]. done. Qed.

Lemma replace_match old new s r :
  old <> "" -> strip_prefix old s = Some r ->
  replace old new s = new ++ replace old new r.
Proof.
  intros Hold Hr. rewrite !replace_unfold by done.
  rewrite (replace_scan_S (String.length s)), Hr. f_equal.
  apply strip_prefix_length in Hr. destruct old as [|a o]; [done|]. simpl in Hr.
  apply replace_scan_fuel; [done | lia..].
Qed.

Lemma replace_skip old new c s :
  old <> "" -> strip_prefix old (String c s) = None ->
  replace old new (String c s) = String c (replace old new s).
Proof.
  intros Hold Hr. rewrite !replace_unfold by done.
  by rewrite (replace_scan_S (String.length (String c s))), Hr.
Qed.

(** Removing a character is replacing it by nothing. *)
Lemma replace_char_empty (x : ascii) (s : string) :
  replace (String x "") "" s = remove_char x s.
Proof.
  induction s as [|c s IH]; [done|]. simpl remove_char.
  destruct (Ascii.eqb c x) eqn:Hc.
  - apply Ascii.eqb_eq in Hc as ->.
    rewrite (replace_match _ _ _ s); [by rewrite IH | done |].
    simpl. by rewrite Ascii.eqb_refl.
  - rewrite replace_skip; [by rewrite IH | done |].
    simpl. rewrite Ascii.eqb_sym, Hc. done.
Qed.

Lemma remove_char_app x a b : remove_char x (a ++ b) = remove_char x a ++ remove_char x b.
Proof.
  induction a as [|c a IH]; simpl; [done|].
  destruct (Ascii.eqb c x); simpl; by rewrite IH.
Qed.

Lemma remove_char_absent x s : count_char x s = 0%nat -> remove_char x s = s.
Proof.
  induction s as [|c s IH]; simpl; [done|].
  destruct (Ascii.eqb c x); simpl; [lia|]. intros Hs. by rewrite IH.
Qed.

End ReplaceFacts.

(** ** Decimal numbers *)
Section DecimalFacts.
Local Open Scope string_scope.

Lemma ndigits_fuel_pos f c : 1 <= ndigits_fuel f c.
Proof.
  revert c; induction f as [|f IH]; intros c; simpl; [lia|].
  destruct (c <? 10)%N; [lia|]. specialize (IH (c / 10)%N). lia.
Qed.

Lemma ndigits_fuel_le f : forall (k : nat) (c : N),
  (0 < k)%nat -> (c < 10 ^ N.of_nat k)%N -> ndigits_fuel f c <= Z.of_nat k.
Proof.
  induction f as [|f IH]; intros k c Hk Hc; simpl; [lia|].
  destruct (c <? 10)%N eqn:H10; [lia|]. apply N.ltb_ge in H10.
  destruct k as [|[|k]]; [lia | simpl in Hc; lia |].
  assert (Hdiv : (c / 10 < 10 ^ N.of_nat (S k))%N).
  { apply N.Div0.div_lt_upper_bound.
    replace (N.of_nat (S (S k))) with (N.succ (N.of_nat (S k))) in Hc by lia.
    by rewrite N.pow_succ_r' in Hc. }
  specialize (IH (S k) (c / 10)%N ltac:(lia) Hdiv). lia.
Qed.

Lemma ndigits_le (k : nat) (c : N) :
  (0 < k)%nat -> (c < 10 ^ N.of_nat k)%N -> 1 <= ndigits c <= Z.of_nat k.
Proof.
  intros Hk Hc. unfold ndigits. split; [apply ndigits_fuel_pos | by apply ndigits_fuel_le].
Qed.

Lemma digits_value_from_acc (s : string) : forall acc,
  digits_value_from acc s = (acc * 10 ^ N.of_nat (String.length s) + digits_value s)%N.
Proof.
  unfold digits_value. induction s as [|c s IH]; intros acc; simpl String.length.
  - simpl. lia.
  - cbn [digits_value_from]. rewrite IH, (IH (0 * 10 + _)%N).
    replace (N.of_nat (S (String.length s))) with (N.succ (N.of_nat (String.length s))) by lia.
    rewrite N.pow_succ_r'. lia.
Qed.

Lemma digits_value_from_app (a b : string) : forall acc,
  digits_value_from acc (a ++ b) = digits_value_from (digits_value_from acc a) b.
Proof. induction a as [|c a IH]; intros acc; simpl; [done|]. apply IH. Qed.

(** The digits of the integer part followed by those of the fraction denote
    the integer part shifted left, plus the fraction. *)
Lemma digits_value_app (a b : string) :
  digits_value (a ++ b)
  = (digits_value a * 10 ^ N.of_nat (String.length b) + digits_value b)%N.
Proof.
  unfold digits_value at 1. rewrite digits_value_from_app.
  fold (digits_value a). apply digits_value_from_acc.
Qed.

Definition starts_with_digit (s : string) : bool :=
  match s with
  | String c _ => is_digit c
  | "" => false
  end.

Lemma span_digits_app (ip r : string) :
  all_digits ip = true -> starts_with_digit r = false -> span_digits (ip ++ r) = (ip, r).
Proof.
  intros Hip Hr. induction ip as [|c ip IH]; simpl in *.
  - destruct r as [|c r]; [done|]. simpl in *. by rewrite Hr.
  - apply andb_true_iff in Hip as [Hc Hip]. by rewrite Hc, (IH Hip).
Qed.

Lemma span_digits_all (ip : string) : all_digits ip = true -> span_digits ip = (ip, "").
Proof.
  intros Hip. rewrite <- (sapp_nil_r ip) at 1. by apply span_digits_app.
Qed.

Lemma lstrip_by_id f c s : f c = false -> lstrip_by f (String c s) = String c s.
Proof. intros Hc. simpl. by rewrite Hc. Qed.

Lemma rstrip_by_id f s :
  all_chars (fun c => negb (f c)) s = true -> rstrip_by f s = s.
Proof.
  induction s as [|c s IH]; simpl; [done|].
  intros [Hc Hs]%andb_true_iff. rewrite (IH Hs).
  apply negb_true_iff in Hc. rewrite Hc. by destruct s.
Qed.

Lemma strip_by_id f s :
  all_chars (fun c => negb (f c)) s = true -> strip_by f s = s.
Proof.
  intros Hs. unfold strip_by. rewrite rstrip_by_id by done.
  destruct s as [|c s]; [done|]. simpl in Hs.
  apply andb_true_iff in Hs as [Hc _]. apply negb_true_iff in Hc.
  by apply lstrip_by_id.
Qed.

(** The characters of a plain literal: digits and the decimal point. *)
Definition plain_char (c : ascii) : bool := is_digit c || Ascii.eqb c ".".

Lemma plain_char_not_space c : plain_char c = true -> negb (is_space c) = true.
Proof. destruct c as [[] [] [] [] [] [] [] []]; vm_compute; congruence. Qed.

Lemma plain_char_not_underscore c :
  plain_char c = true -> negb (Ascii.eqb c "_") = true.
Proof. destruct c as [[] [] [] [] [] [] [] []]; vm_compute; congruence. Qed.

Lemma digit_plain c : is_digit c = true -> plain_char c = true.
Proof. unfold plain_char. by intros ->. Qed.

Lemma digit_not_sign c s :
  is_digit c = true -> parse_sign (String c s) = (false, String c s).
Proof. destruct c as [[] [] [] [] [] [] [] []]; vm_compute; congruence. Qed.

(** A plain literal: digits, then possibly a point and more digits. *)
Definition plain_literal (ip : string) (frac : option string) : string :=
  ip ++ match frac with Some fp => "." ++ fp | None => "" end.

Definition digit_string (s : string) : Prop := s <> "" /\ all_digits s = true.

Lemma plain_literal_chars ip frac :
  all_digits ip = true -> all_digits (default "" frac) = true ->
  all_chars plain_char (plain_literal ip frac) = true.
Proof.
  intros Hip Hfp. unfold plain_literal. rewrite all_chars_app.
  apply andb_true_iff. split.
  - rewrite all_digits_all_chars in Hip. eapply all_chars_impl; [apply digit_plain | done].
  - destruct frac as [fp|]; [|done]. simpl in *.
    rewrite all_digits_all_chars in Hfp. eapply all_chars_impl; [apply digit_plain | done].
Qed.

Lemma parse_number_plain ip frac :
  digit_string ip -> all_digits (default "" frac) = true ->
  parse_number (plain_literal ip frac)
  = Some (digits_value (ip ++ default "" frac),
          0 - Z.of_nat (String.length (default "" frac))).
Proof.
  intros [Hne Hip] Hfp. unfold parse_number, plain_literal.
  destruct frac as [fp|]; simpl default in *.
  - change ("." ++ fp) with (String "." fp).
    rewrite span_digits_app by done. cbv beta iota zeta.
    rewrite span_digits_all by done.
    destruct ip as [|c ip]; [done|]. done.
  - rewrite span_digits_app by done. rewrite sapp_nil_r.
    destruct ip as [|c ip]; [done|]. done.
Qed.

(** [Decimal] reads a plain literal exactly. *)
Lemma of_string_plain ip frac :
  digit_string ip -> all_digits (default "" frac) = true ->
  exact_in_max_context (digits_value (ip ++ default "" frac))
    (- Z.of_nat (String.length (default "" frac))) = true ->
  of_string (plain_literal ip frac)
  = Ok (Finite false (digits_value (ip ++ default "" frac))
          (- Z.of_nat (String.length (default "" frac)))).
Proof.
  intros Hip Hfp Hexact. unfold of_string, strip.
  pose proof (plain_literal_chars ip frac (proj2 Hip) Hfp) as Hchars.
  rewrite strip_by_id
    by (eapply all_chars_impl; [apply plain_char_not_space | done]).
  rewrite remove_char_absent
    by (apply count_char_zero; eapply all_chars_impl; [apply plain_char_not_underscore | done]).
  assert (Hsign : parse_sign (plain_literal ip frac) = (false, plain_literal ip frac)).
  { destruct Hip as [Hne Hd]. destruct ip as [|c ip]; [done|].
    simpl in Hd. apply andb_true_iff in Hd as [Hc _]. by apply digit_not_sign. }
  rewrite Hsign, parse_number_plain by done.
  replace (0 - Z.of_nat (String.length (default "" frac)))
    with (- Z.of_nat (String.length (default "" frac))) by lia.
  by rewrite Hexact.
Qed.

End DecimalFacts.

(** ** Amounts *)
Section Amounts.
Local Open Scope string_scope.
Local Open Scope Z_scope.

(** The exact value of a finite decimal: sign, coefficient, power of ten. *)
Definition decimal_value (d : Decimal) : option Q :=
  match d with
  | Finite s c e =>
      Some ((if s then - (1) else 1) * inject_Z (Z.of_N c) * Qpower 10 e)%Q
  | _ => None
  end.

(** The number that an integer part and a fraction part, both strings of
    digits, encode: the integer, plus the fraction over its power of ten. *)
Definition encoded_number (ip fp : string) : Q :=
  (inject_Z (Z.of_N (digits_value ip))
   + inject_Z (Z.of_N (digits_value fp))
     / inject_Z (10 ^ Z.of_nat (String.length fp)))%Q.

Definition signed (negative : bool) (q : Q) : Q := if negative then (- q)%Q else q.

(** The text of the fraction: nothing, or a point and its digits. *)
Definition frac_text (frac : option string) : string :=
  match frac with Some fp => "." ++ fp | None => "" end.

(** An amount field in the documented form: a sign, the currency symbol, groups
    of digits separated by commas, possibly a fraction. *)
Definition amount_field (sign : string) (groups : list string) (frac : option string)
  : string :=
  sign ++ "$" ++ join "," groups ++ frac_text frac.

Lemma fix_finite_exact (sign : bool) (c : N) (e : Z) :
  (c < 10 ^ 28)%N -> -1000026 <= e <= 0 ->
  fix_finite DefaultContext sign c e = Ok (Finite sign c e).
Proof.
  intros Hc He. unfold fix_finite, Etiny, Etop, DefaultContext. cbn [prec Emax Emin].
  destruct (c =? 0)%N eqn:Hz.
  - apply N.eqb_eq in Hz as ->. do 2 f_equal. lia.
  - pose proof (ndigits_le 28 c ltac:(lia) Hc) as Hd.
    rewrite (proj2 (Z.ltb_ge _ _)) by lia.
    rewrite (proj2 (Z.ltb_ge _ _)) by lia. done.
Qed.

Lemma mul_int_sign_exact (s neg : bool) (c : N) (e : Z) :
  (c < 10 ^ 28)%N -> -1000026 <= e <= 0 ->
  mul_int (Finite s c e) (if neg then -1 else 1) = Ok (Finite (xorb s neg) c e).
Proof.
  intros Hc He. unfold mul_int, mul, of_int.
  replace (Z.abs_N (if neg then -1 else 1)) with 1%N by (by destruct neg).
  replace ((if neg then -1 else 1) <? 0) with neg by (by destruct neg).
  rewrite N.mul_1_r, Z.add_0_r. by apply fix_finite_exact.
Qed.

Lemma digit_no_comma c : is_digit c = true -> negb (Ascii.eqb c ",") = true.
Proof. destruct c as [[] [] [] [] [] [] [] []]; vm_compute; congruence. Qed.

Lemma digit_no_dollar c : is_digit c = true -> negb (Ascii.eqb c "$") = true.
Proof. destruct c as [[] [] [] [] [] [] [] []]; vm_compute; congruence. Qed.

Lemma digits_count_zero x s :
  (forall c, is_digit c = true -> negb (Ascii.eqb c x) = true) ->
  all_digits s = true -> count_char x s = 0%nat.
Proof.
  intros Hx Hs. apply count_char_zero. rewrite all_digits_all_chars in Hs.
  eapply all_chars_impl; [exact Hx | done].
Qed.

Lemma join_digits (groups : list string) :
  Forall digit_string groups -> all_digits (join "" groups) = true.
Proof.
  induction groups as [|g rest IH]; [done|]. intros Hall.
  apply Forall_cons in Hall as [[_ Hg] Hrest]. specialize (IH Hrest).
  destruct rest as [|g' rest]; [done|].
  cbn [join] in *. rewrite all_digits_all_chars, all_chars_app, <- !all_digits_all_chars, Hg.
  done.
Qed.

Lemma join_nonempty (groups : list string) :
  groups <> [] -> Forall digit_string groups -> join "" groups <> "".
Proof.
  intros Hne Hall. destruct Hall as [|g rest [Hg _] _]; [done|].
  destruct g as [|c g]; [done|]. by destruct rest.
Qed.

Lemma count_char_join x (groups : list string) :
  x <> ","%char ->
  Forall (fun g => count_char x g = 0%nat) groups -> count_char x (join "," groups) = 0%nat.
Proof.
  intros Hx. induction groups as [|g rest IH]; [done|]. intros Hall.
  apply Forall_cons in Hall as [Hg Hrest]. specialize (IH Hrest).
  destruct rest as [|g' rest]; [done|].
  cbn [join] in *. rewrite count_char_app, Hg.
  change ("," ++ ?t) with (String "," t).
  cbn [count_char]. rewrite IH.
  destruct (Ascii.eqb "," x) eqn:Hc; [|done]. apply Ascii.eqb_eq in Hc. congruence.
Qed.

Lemma remove_comma_join (groups : list string) :
  Forall (fun g => count_char "," g = 0%nat) groups ->
  remove_char "," (join "," groups) = join "" groups.
Proof.
  induction groups as [|g rest IH]; [done|]. intros Hall.
  apply Forall_cons in Hall as [Hg Hrest]. specialize (IH Hrest).
  destruct rest as [|g' rest]; [by apply remove_char_absent|].
  cbn [join] in *. rewrite remove_char_app, (remove_char_absent _ g Hg).
  change ("," ++ ?t) with (String "," t).
  cbn [remove_char]. rewrite Ascii.eqb_refl, IH. done.
Qed.

(** What the amount step does with a field in the documented form: the sign
    and the digits reach [Decimal] and the multiplication untouched. *)
Lemma parse_amount_field (sign : string) (groups : list string) (frac : option string) :
  count_char "$" sign = 0%nat ->
  groups <> [] -> Forall digit_string groups ->
  (forall fp, frac = Some fp -> digit_string fp) ->
  parse_amount (amount_field sign groups frac)
  = (d ← of_string (plain_literal (join "" groups) frac);
     mul_int d (if bool_decide (sign = "-") then -1 else 1)).
Proof.
  intros Hsign Hne Hgroups Hfrac. unfold parse_amount, amount_field.
  assert (Hfp : all_digits (default "" frac) = true).
  { destruct frac as [fp|]; [|done]. by destruct (Hfrac fp eq_refl). }
  assert (Hbody : count_char "$" (join "," groups ++ frac_text frac) = 0%nat).
  { rewrite count_char_app, count_char_join; [| done |].
    - destruct frac as [fp|]; [|done]. simpl.
      by apply digits_count_zero; [apply digit_no_dollar|].
    - eapply Forall_impl; [exact Hgroups|]. intros g [_ Hg].
      by apply digits_count_zero; [apply digit_no_dollar|]. }
  change ("$" ++ join "," groups ++ frac_text frac)
    with (String "$" (join "," groups ++ frac_text frac)).
  rewrite (proj2 (unpack2_split_ok "$" _ sign (join "," groups ++ frac_text frac)))
    by done.
  cbn [mbind result_bind Py.bind].
  rewrite replace_char_empty, remove_char_app, remove_comma_join.
  - unfold plain_literal, frac_text. destruct frac as [fp|]; [|done].
    change ("." ++ fp) with (String "." fp). cbn [remove_char].
    replace (Ascii.eqb "." ",") with false by done.
    rewrite remove_char_absent; [done|].
    by apply digits_count_zero; [apply digit_no_comma|].
  - eapply Forall_impl; [exact Hgroups|]. intros g [_ Hg].
    by apply digits_count_zero; [apply digit_no_comma|].
Qed.

End Amounts.

Section AmountTheorems.
Local Open Scope string_scope.
Local Open Scope Z_scope.

(** A field in the documented form [<sign>$<digits>[,<digits>]*[.<digits>]]. *)
Definition well_formed_amount (sign : string) (groups : list string) (frac : option string)
  : Prop :=
  count_char "$" sign = 0%nat /\ groups <> [] /\ Forall digit_string groups /\
  (forall fp, frac = Some fp -> digit_string fp).

(** The amount parsed from the field is the encoded number, negated exactly
    when the sign is a minus. *)
Definition amount_exact_on (sign : string) (groups : list string) (frac : option string)
  : Prop :=
  exists d q,
    parse_amount (amount_field sign groups frac) = Ok d /\
    decimal_value d = Some q /\
    (q == signed (bool_decide (sign = "-"))
            (encoded_number (join "" groups) (default "" frac)))%Q.

Lemma decimal_value_encoded (neg : bool) (ip fp : string) :
  exists q,
    decimal_value (Finite neg (digits_value (ip ++ fp)) (- Z.of_nat (String.length fp)))
      = Some q /\
    (q == signed neg (encoded_number ip fp))%Q.
Proof.
  eexists. split; [reflexivity|]. unfold encoded_number, signed.
  rewrite digits_value_app, N2Z.inj_add, N2Z.inj_mul, N2Z.inj_pow, nat_N_Z.
  change (Z.of_N 10) with 10.
  set (k := Z.of_nat (String.length fp)).
  set (I := Z.of_N (digits_value ip)). set (F := Z.of_N (digits_value fp)).
  rewrite Qpower_opp.
  assert (Hp : (Qpower 10 k == inject_Z (10 ^ k))%Q).
  { rewrite Zpower_Qpower by lia. reflexivity. }
  rewrite Hp, inject_Z_plus, inject_Z_mult.
  assert (Hnz : ~ (inject_Z (10 ^ k) == 0)%Q).
  { intros Hz. assert (0 < 10 ^ k) by (apply Z.pow_pos_nonneg; lia).
    unfold Qeq in Hz. simpl in Hz. lia. }
  destruct neg; field; exact Hnz.
Qed.

(** C3, amended: for a field in the documented form whose digits, leading
    zeros apart, are at most 28 and whose fraction has at most 1000026 digits,
    the amount is exactly the number the digits encode, negated if and only if
    the sign is a minus. *)
Theorem amount_exact_within_precision
    (sign : string) (groups : list string) (frac : option string) :
  well_formed_amount sign groups frac ->
  (digits_value (join "" groups ++ default "" frac) < 10 ^ 28)%N ->
  Z.of_nat (String.length (default "" frac)) <= 1000026 ->
  parse_amount (amount_field sign groups frac)
    = Ok (Finite (bool_decide (sign = "-"))
            (digits_value (join "" groups ++ default "" frac))
            (- Z.of_nat (String.length (default "" frac)))) /\
  amount_exact_on sign groups frac.
Proof.
  intros (Hsign & Hne & Hgroups & Hfrac) Hprec Hlen.
  set (ip := join "" groups) in *. set (fp := default "" frac) in *.
  assert (Hfp : all_digits fp = true).
  { subst fp. destruct frac as [f|]; [|done]. by destruct (Hfrac f eq_refl). }
  assert (Hip : digit_string ip) by (split; [by apply join_nonempty | by apply join_digits]).
  assert (Hexact : exact_in_max_context (digits_value (ip ++ fp))
                     (- Z.of_nat (String.length fp)) = true).
  { unfold exact_in_max_context, MIN_ETINY, MAX_EMAX.
    pose proof (ndigits_le 28 _ ltac:(lia) Hprec) as Hd.
    apply andb_true_iff. split; [apply Z.leb_le; lia|].
    destruct (_ =? 0)%N; apply Z.leb_le; lia. }
  assert (Hrun : parse_amount (amount_field sign groups frac)
                 = Ok (Finite (bool_decide (sign = "-")) (digits_value (ip ++ fp))
                         (- Z.of_nat (String.length fp)))).
  { rewrite parse_amount_field by done.
    fold ip. rewrite (of_string_plain ip frac Hip Hfp Hexact).
    cbn [mbind result_bind Py.bind]. fold fp.
    rewrite mul_int_sign_exact by (done || lia). done. }
  split; [done|].
  destruct (decimal_value_encoded (bool_decide (sign = "-")) ip fp) as (q & Hq & Heq).
  eexists _, q. split_and!; [exact Hrun | exact Hq | exact Heq].
Qed.

(** C3 as the specification states it, with no bound on the digits. *)
Definition amount_always_exact : Prop :=
  forall sign groups frac,
    well_formed_amount sign groups frac -> amount_exact_on sign groups frac.

(** Twenty-nine digits: the multiplication by the sign rounds the amount to the
    28 digits of the context, and [12345678901234567890123456789] becomes
    [1234567890123456789012345679E+1]. *)
Lemma amount_rounded_beyond_28_digits : ~ amount_always_exact.
Proof.
  intros Hclaim.
  destruct (Hclaim "" ["12345678901234567890123456789"] None) as (d & q & Hd & Hq & Heq).
  { unfold well_formed_amount. split_and!; [done | done | | done].
    constructor; [by split | constructor]. }
  vm_compute in Hd. injection Hd as <-.
  cbn [decimal_value] in Hq. injection Hq as <-.
  vm_compute in Heq. discriminate.
Qed.

End AmountTheorems.

(** ** The sign of an amount, and when the amount step fails *)
Section AmountSign.
Local Open Scope string_scope.
Local Open Scope Z_scope.

(** The multiplier the program derives from what stands before the symbol. *)
Definition multiplier (prefix : string) : Z := if bool_decide (prefix = "-") then -1 else 1.

Lemma parse_amount_unfold (field : string) :
  parse_amount field =
    match unpack2 (split "$" field) with
    | Ok (prefix, suffix) =>
        d ← of_string (replace "," "" suffix); mul_int d (multiplier prefix)
    | Raise e => Raise e
    end.
Proof. unfold parse_amount. by destruct (unpack2 (split "$" field)) as [[p s]|e]. Qed.

(** The adjusted exponent of a finite number stays below [Emax]: its product
    with a sign cannot overflow, even after rounding. *)
Definition below_emax (d : Decimal) : Prop :=
  match d with
  | Finite _ c e => e + ndigits c - 1 < 999999
  | _ => True
  end.

Lemma fix_finite_below_emax (sign : bool) (c : N) (e : Z) :
  e + ndigits c - 1 < 999999 -> exists a, fix_finite DefaultContext sign c e = Ok a.
Proof.
  intros Hadj. unfold fix_finite, Etiny, Etop, DefaultContext. cbn [prec Emax Emin].
  destruct (c =? 0)%N; [eauto|].
  rewrite (proj2 (Z.ltb_ge _ _)) by lia.
  destruct (e <? _); [|eauto].
  match goal with |- context [if ?b then (_, _) else (_, _)] => destruct b end;
    rewrite (proj2 (Z.ltb_ge _ _)) by lia; eauto.
Qed.

Lemma mul_int_no_trap (d : Decimal) (neg : bool) :
  not_signaling d -> below_emax d ->
  exists a, mul_int d (if neg then -1 else 1) = Ok a.
Proof.
  intros Hns Hadj. unfold mul_int, mul, of_int.
  replace (Z.abs_N (if neg then -1 else 1)) with 1%N by (by destruct neg).
  destruct d as [s c e | s | s [|] p]; simpl in Hns; try done; [| eauto | eauto].
  rewrite N.mul_1_r, Z.add_0_r. by apply fix_finite_below_emax.
Qed.

Lemma fix_finite_raises (sign : bool) (c : N) (e : Z) (x : exn) :
  fix_finite DefaultContext sign c e = Raise x ->
  x = DecimalOverflow /\ c <> 0%N /\ 999999 <= e + ndigits c - 1.
Proof.
  intros Hrun.
  destruct (Z_lt_ge_dec (e + ndigits c - 1) 999999) as [Hlt|Hge].
  { destruct (fix_finite_below_emax sign c e Hlt) as [a Ha]. congruence. }
  unfold fix_finite in Hrun. destruct (c =? 0)%N eqn:Hc; [done|].
  apply N.eqb_neq in Hc. split_and!; [|done|lia].
  destruct (Etop DefaultContext <? _); [congruence|].
  destruct (e <? _); [|done].
  match type of Hrun with context [if ?b then (_, _) else (_, _)] => destruct b end;
    match type of Hrun with context [if ?b then _ else _] => destruct b end; congruence.
Qed.

Lemma mul_int_raises (d : Decimal) (neg : bool) (x : exn) :
  mul_int d (if neg then -1 else 1) = Raise x ->
  (x = InvalidOperation /\ ~ not_signaling d) \/
  (x = DecimalOverflow /\ ~ below_emax d).
Proof.
  unfold mul_int, mul, of_int.
  replace (Z.abs_N (if neg then -1 else 1)) with 1%N by (by destruct neg).
  destruct d as [s c e | s | s [|] p]; simpl; try done.
  - rewrite N.mul_1_r, Z.add_0_r. intros (-> & _ & Hadj)%fix_finite_raises.
    right. split; [done | lia].
  - intros [= <-]. left. split; [done | tauto].
Qed.

Lemma of_string_raises (s : string) (e : exn) :
  of_string s = Raise e -> e = InvalidOperation.
Proof.
  unfold of_string. destruct (parse_sign _) as [sg body].
  destruct (parse_number body) as [[c x]|].
  - destruct (exact_in_max_context c x); congruence.
  - destruct (parse_special sg _); congruence.
Qed.

(** C10, amended: what stands before the one currency symbol is the sign, and
    anything but a lone minus counts as positive; the row goes through when the
    comma-stripped suffix is a decimal literal that is not a signalling NaN and
    whose adjusted exponent is below [Emax]; and the amount step fails only
    when the field does not hold exactly one symbol, or the suffix is not a
    decimal literal, or the multiplication by the sign traps. *)
Theorem amount_prefix_is_sign :
  (forall field prefix suffix d,
     unpack2 (split "$" field) = Ok (prefix, suffix) ->
     of_string (replace "," "" suffix) = Ok d ->
     not_signaling d -> below_emax d ->
     exists a, parse_amount field = Ok a /\
       (prefix <> "-" -> mul_int d 1 = Ok a) /\
       (prefix = "-" -> mul_int d (-1) = Ok a)) /\
  (forall field e,
     parse_amount field = Raise e ->
     (e = ValueError /\ count_char "$" field <> 1%nat) \/
     (exists prefix suffix,
        unpack2 (split "$" field) = Ok (prefix, suffix) /\
        ((e = InvalidOperation /\ of_string (replace "," "" suffix) = Raise InvalidOperation) \/
         (exists d, of_string (replace "," "" suffix) = Ok d /\
            ((e = InvalidOperation /\ ~ not_signaling d) \/
             (e = DecimalOverflow /\ ~ below_emax d)))))).
Proof.
  split.
  - intros field prefix suffix d Hsplit Hd Hns Hadj.
    rewrite parse_amount_unfold, Hsplit, Hd. cbn [mbind result_bind Py.bind].
    unfold multiplier.
    destruct (mul_int_no_trap d (bool_decide (prefix = "-")) Hns Hadj) as [a Ha].
    exists a. split; [done|]. split; intros Hp.
    + by rewrite bool_decide_eq_false_2 in Ha.
    + by rewrite bool_decide_eq_true_2 in Ha.
  - intros field e. rewrite parse_amount_unfold.
    destruct (unpack2 (split "$" field)) as [[prefix suffix]|e0] eqn:Hsplit.
    + intros Hrun. right. exists prefix, suffix. split; [done|].
      apply bind_raise_inv in Hrun as [Hd | (d & Hd & Hmul)].
      * left. pose proof (of_string_raises _ _ Hd) as ->. done.
      * right. exists d. split; [done|]. by apply mul_int_raises in Hmul.
    + intros [= <-]. left. split.
      * unfold unpack2 in Hsplit.
        destruct (split "$" field) as [|x [|y [|z l]]]; congruence.
      * intros Hc. apply unpack2_split_count in Hc. by rewrite Hsplit in Hc.
Qed.

End AmountSign.

(** C10 as stated: one currency symbol and a suffix that [Decimal] accepts are
    enough for the amount step to go through. *)
Definition any_literal_is_accepted : Prop :=
  forall field prefix suffix d,
    unpack2 (split "$" field) = Ok (prefix, suffix) ->
    of_string (replace "," "" suffix) = Ok d ->
    is_ok (parse_amount field) = true.

(** [1e1000000] is a decimal literal, but its product with the sign overflows
    the default context ([Emax] is 999999) and the row is skipped; so is a row
    whose suffix is [sNaN]. *)
Lemma literal_accepted_but_row_skipped : ~ any_literal_is_accepted.
Proof.
  intros Hclaim.
  specialize (Hclaim "$1e1000000"%string ""%string "1e1000000"%string
                (Finite false 1 1000000) eq_refl eq_refl).
  vm_compute in Hclaim. discriminate.
Qed.

(** ** The calendar *)
Section Calendar.
Local Open Scope Z_scope.

Lemma ord2ymd_decompose (n : Z) :
  1 <= n ->
  exists n400 n100 n4 n1 r,
    (n - 1) / DI400Y = n400 /\
    (n - 1) mod DI400Y / DI100Y = n100 /\
    (n - 1) mod DI400Y mod DI100Y / DI4Y = n4 /\
    (n - 1) mod DI400Y mod DI100Y mod DI4Y / 365 = n1 /\
    (n - 1) mod DI400Y mod DI100Y mod DI4Y mod 365 = r /\
    n - 1 = DI400Y * n400 + DI100Y * n100 + DI4Y * n4 + 365 * n1 + r /\
    0 <= n400 /\ 0 <= n100 <= 4 /\ 0 <= n4 <= 24 /\ 0 <= n1 <= 4 /\ 0 <= r < 365 /\
    (n100 = 4 -> n4 = 0 /\ n1 = 0 /\ r = 0) /\
    (n1 = 4 -> r = 0 /\ n4 <= 23).
Proof.
  intros Hn. unfold DI400Y, DI100Y, DI4Y.
  do 5 eexists. do 5 (split; [reflexivity|]).
  (split_and!; Z.div_mod_to_equations; lia).
Qed.

Lemma days_before_year_decomposed (n400 n100 n4 n1 : Z) :
  0 <= n400 -> 0 <= n100 <= 3 -> 0 <= n4 <= 24 -> 0 <= n1 <= 3 ->
  days_before_year (n400 * 400 + 1 + n100 * 100 + n4 * 4 + n1)
  = DI400Y * n400 + DI100Y * n100 + DI4Y * n4 + 365 * n1.
Proof.
  intros. unfold days_before_year, DI400Y, DI100Y, DI4Y. (Z.div_mod_to_equations; lia).
Qed.

Lemma is_leap_decomposed (n400 n100 n4 n1 : Z) :
  0 <= n400 -> 0 <= n100 <= 3 -> 0 <= n4 <= 24 -> 0 <= n1 <= 3 ->
  is_leap (n400 * 400 + 1 + n100 * 100 + n4 * 4 + n1)
  = (n1 =? 3) && (negb (n4 =? 24) || (n100 =? 3)).
Proof.
  intros. unfold is_leap.
  set (y := n400 * 400 + 1 + n100 * 100 + n4 * 4 + n1).
  assert (H4 : (y mod 4 =? 0) = (n1 =? 3)).
  { subst y. destruct (n1 =? 3) eqn:E; [apply Z.eqb_eq in E | apply Z.eqb_neq in E].
    - apply Z.eqb_eq. Z.div_mod_to_equations; lia.
    - apply Z.eqb_neq. Z.div_mod_to_equations; lia. }
  rewrite H4. destruct (n1 =? 3) eqn:E1; [|done]. apply Z.eqb_eq in E1. simpl.
  assert (H100 : (y mod 100 =? 0) = (n4 =? 24)).
  { subst y. destruct (n4 =? 24) eqn:E; [apply Z.eqb_eq in E | apply Z.eqb_neq in E].
    - apply Z.eqb_eq. Z.div_mod_to_equations; lia.
    - apply Z.eqb_neq. Z.div_mod_to_equations; lia. }
  rewrite H100. destruct (n4 =? 24) eqn:E2; [|done]. apply Z.eqb_eq in E2. simpl.
  subst y. destruct (n100 =? 3) eqn:E; [apply Z.eqb_eq in E | apply Z.eqb_neq in E].
    - apply Z.eqb_eq. Z.div_mod_to_equations; lia.
    - apply Z.eqb_neq. Z.div_mod_to_equations; lia.
Qed.

Lemma ord2ymd_spec (n y m d : Z) :
  1 <= n <= MAXORDINAL -> ord2ymd n = (y, m, d) ->
  ymd2ord y m d = n /\ 1 <= y <= 9999 /\ 1 <= m <= 12 /\ 1 <= d <= days_in_month y m.
Proof.
  intros [Hn Hmax].
  destruct (ord2ymd_decompose n Hn)
    as (n400 & n100 & n4 & n1 & r & E1 & E2 & E3 & E4 & E5 & Hsum & H400 & H100 & H4 & H1 & Hr & Hc100 & Hc1).
  unfold ord2ymd. cbv zeta. rewrite E1, E2, E3, E4, E5.
  unfold MAXORDINAL, DI400Y, DI100Y, DI4Y in *.
  destruct ((n1 =? 4) || (n100 =? 4)) eqn:Hend.
  - intros [= <- <- <-].
    assert (Hy : is_leap (n400 * 400 + 1 + n100 * 100 + n4 * 4 + n1 - 1) = true).
    { apply orb_true_iff in Hend as [Hend|Hend]; apply Z.eqb_eq in Hend.
      - destruct (Hc1 Hend) as [-> Hn4]. subst n1. unfold is_leap.
        apply andb_true_iff. split; [apply Z.eqb_eq; Z.div_mod_to_equations; lia|].
        apply orb_true_iff. left. apply negb_true_iff, Z.eqb_neq.
        Z.div_mod_to_equations; lia.
      - destruct (Hc100 Hend) as (-> & -> & ->). subst n100. unfold is_leap.
        apply andb_true_iff. split; [apply Z.eqb_eq; Z.div_mod_to_equations; lia|].
        apply orb_true_iff. right. apply Z.eqb_eq. Z.div_mod_to_equations; lia. }
    unfold ymd2ord, days_before_month, days_in_month. rewrite Hy. simpl.
    unfold days_before_year.
    apply orb_true_iff in Hend as [Hend|Hend]; apply Z.eqb_eq in Hend.
    + destruct (Hc1 Hend) as [-> Hn4]. subst n1.
      split_and!; Z.div_mod_to_equations; lia.
    + destruct (Hc100 Hend) as (-> & -> & ->). subst n100.
      split_and!; Z.div_mod_to_equations; lia.
  - apply orb_false_iff in Hend as [Hn1 Hn100].
    apply Z.eqb_neq in Hn1, Hn100.
    rewrite <- (is_leap_decomposed n400 n100 n4 n1) by lia.
    set (yy := n400 * 400 + 1 + n100 * 100 + n4 * 4 + n1).
    assert (Hdby : days_before_year yy = n - 1 - r).
    { subst yy. rewrite days_before_year_decomposed by lia. unfold DI400Y, DI100Y, DI4Y. lia. }
    assert (Hyy : 1 <= yy <= 9999).
    { subst yy. split; [lia|].
      destruct (Z.eq_dec n400 24) as [->|]; [|lia].
      destruct (Z.eq_dec n100 3) as [->|]; [|lia].
      destruct (Z.eq_dec n4 24) as [->|]; lia. }
    rewrite Z.shiftr_div_pow2 by lia. change (2 ^ 5) with 32.
    assert (Hm : 1 <= (r + 50) / 32 <= 12) by (Z.div_mod_to_equations; lia).
    assert (Hrm : 32 * ((r + 50) / 32) - 50 <= r <= 32 * ((r + 50) / 32) - 19)
      by (Z.div_mod_to_equations; lia).
    set (m0 := (r + 50) / 32) in *.
    assert (Hcases : m0 = 1 \/ m0 = 2 \/ m0 = 3 \/ m0 = 4 \/ m0 = 5 \/ m0 = 6 \/
                     m0 = 7 \/ m0 = 8 \/ m0 = 9 \/ m0 = 10 \/ m0 = 11 \/ m0 = 12) by lia.
    clearbody m0 yy. clear E1 E2 E3 E4 E5 Hsum.
    destruct (is_leap yy) eqn:Hleap;
    repeat (destruct Hcases as [-> | Hcases]); try subst m0; cbn;
      match goal with |- context [r <? ?p] => destruct (Z.ltb_spec r p) end;
      intros [= <- <- <-];
      unfold ymd2ord, days_before_month, days_in_month; rewrite Hdby, Hleap;
      repeat match goal with
             | |- context [Z.sub (Zpos ?a) 1] =>
                 let v := eval vm_compute in (Z.sub (Zpos a) 1) in
                 change (Z.sub (Zpos a) 1) with v
             end;
      cbn; lia.
Qed.

(** The fields of a datetime are those of a date and a time of day. *)
Definition valid_civil (dt : datetime) : Prop :=
  1 <= year dt <= 9999 /\ 1 <= month dt <= 12 /\
  1 <= day dt <= days_in_month (year dt) (month dt) /\
  0 <= hour dt <= 23 /\ 0 <= minute dt <= 59 /\ 0 <= second dt <= 59.

Lemma new_datetime_ok (y m d h mi s : Z) (z : option tzinfo) (dt : datetime) :
  new_datetime y m d h mi s z = Ok dt ->
  dt = mkdatetime y m d h mi s 0 z /\ valid_civil dt.
Proof.
  unfold new_datetime, MINYEAR, MAXYEAR.
  repeat match goal with
         | |- context [if negb ?b then _ else _] => destruct b eqn:?; simpl; [|done]
         end.
  intros [= <-]. split; [done|]. unfold valid_civil. simpl.
  repeat match goal with
         | H : _ && _ = true |- _ => apply andb_true_iff in H as [? ?]
         | H : (_ <=? _) = true |- _ => apply Z.leb_le in H
         end.
  lia.
Qed.

(** Subtracting seconds moves the instant by as much, and lands on a date. *)
Lemma sub_seconds_ok (dt dt' : datetime) (secs : Z) (z : option tzinfo) :
  sub_seconds dt secs z = Ok dt' ->
  valid_civil dt' /\ tz dt' = z /\ microsecond dt' = microsecond dt /\
  civil_seconds dt' = civil_seconds dt - secs.
Proof.
  unfold sub_seconds.
  set (total := civil_seconds dt - secs).
  destruct ((0 <? total / 86400) && (total / 86400 <=? MAXORDINAL)) eqn:Hrange; [|done].
  apply andb_true_iff in Hrange as [Hlo Hhi]. apply Z.ltb_lt in Hlo. apply Z.leb_le in Hhi.
  destruct (ord2ymd (total / 86400)) as [[y m] d] eqn:Hord.
  apply ord2ymd_spec in Hord as (Hymd & Hy & Hm & Hd); [|lia].
  intros [= <-]. unfold valid_civil, civil_seconds, toordinal. simpl.
  rewrite Hymd. split_and!; try done; Z.div_mod_to_equations; lia.
Qed.

End Calendar.

(** ** Timestamps *)
Section Timestamps.
Context {zones : TzDatabase}.
Local Open Scope string_scope.
Local Open Scope Z_scope.

Lemma split_cons_inv sep s p q rest :
  split sep s = p :: q :: rest ->
  exists s', s = p ++ String sep s' /\ split sep s' = q :: rest /\ count_char sep p = 0%nat.
Proof.
  revert p; induction s as [|c s IH]; intros p; simpl; [done|].
  destruct (Ascii.eqb c sep) eqn:Hc.
  - intros [= <- Hs]. apply Ascii.eqb_eq in Hc as ->. by exists s.
  - destruct (split sep s) as [|p' ps] eqn:Hs; [by apply split_nonempty in Hs|].
    intros [= <- ->]. destruct (IH p' eq_refl) as (s' & -> & Hs' & Hp).
    exists s'. simpl. by rewrite Hc.
Qed.

Lemma unpack3_split_ok sep s a b c :
  unpack3 (split sep s) = Ok (a, b, c) -> s = a ++ String sep (b ++ String sep c).
Proof.
  unfold unpack3. destruct (split sep s) as [|x [|y [|z [|w l]]]] eqn:Hs; try done.
  intros [= -> -> ->].
  apply split_cons_inv in Hs as (s' & -> & Hs' & _).
  apply split_pair_inv in Hs' as (-> & _ & _). done.
Qed.

Lemma astimezone_utc_edmonton (local : datetime) :
  tz local = Some Edmonton ->
  astimezone_utc local = sub_seconds local (edmonton_utcoffset local) (Some UTC).
Proof. unfold astimezone_utc. by intros ->. Qed.

(** The timestamp of a row, read back: the two fields, their five numbers, the
    civil time they denote in the zone, and the instant of the result. *)
Lemma parse_datetime_inv (row : list string) (dt : datetime) :
  parse_datetime row = Ok dt ->
  exists dd mm yy hh mi (D M Y h m : Z),
    row !! 0%nat = Some (dd ++ "/" ++ mm ++ "/" ++ yy) /\
    row !! 1%nat = Some (hh ++ ":" ++ mi) /\
    int dd = Ok D /\ int mm = Ok M /\ int yy = Ok Y /\ int hh = Ok h /\ int mi = Ok m /\
    let local := mkdatetime (2000 + Y) M D h m 0 0 (Some Edmonton) in
    valid_civil local /\ tz dt = Some UTC /\ valid_civil dt /\ microsecond dt = 0 /\
    civil_seconds dt = civil_seconds local - edmonton_utcoffset local.
Proof.
  unfold parse_datetime, index. intros Hrun.
  destruct (row !! 0%nat) as [date|] eqn:Hdate; [|done].
  cbn [mbind result_bind Py.bind] in Hrun.
  apply bind_ok_inv in Hrun as ([[dd mm] yy] & Hsplit & Hrun).
  apply unpack3_split_ok in Hsplit as ->.
  destruct (row !! 1%nat) as [time|] eqn:Htime; [|done].
  cbn [mbind result_bind Py.bind] in Hrun.
  apply bind_ok_inv in Hrun as ([hh mi] & Hsplit & Hrun).
  apply unpack2_split_ok in Hsplit as (-> & _ & _).
  apply bind_ok_inv in Hrun as (Y & HY & Hrun).
  apply bind_ok_inv in Hrun as (M & HM & Hrun).
  apply bind_ok_inv in Hrun as (D & HD & Hrun).
  apply bind_ok_inv in Hrun as (h & Hh & Hrun).
  apply bind_ok_inv in Hrun as (m & Hm & Hrun).
  apply bind_ok_inv in Hrun as (s & Hs & Hrun).
  assert (s = 0) as -> by (vm_compute in Hs; congruence).
  apply bind_ok_inv in Hrun as (local & Hlocal & Hrun).
  apply new_datetime_ok in Hlocal as [-> Hvalid].
  rewrite astimezone_utc_edmonton in Hrun by done.
  apply sub_seconds_ok in Hrun as (Hv & Htz & Hus & Hsec).
  exists dd, mm, yy, hh, mi, D, M, Y, h, m. split_and!; done.
Qed.

Lemma parse_fields_datetime (row : list string) dt amount cname notes :
  parse_fields row = Ok (dt, amount, cname, notes) -> parse_datetime row = Ok dt.
Proof.
  unfold parse_fields. intros Hrun.
  apply bind_ok_inv in Hrun as (dt' & Hdt & Hrun).
  apply bind_ok_inv in Hrun as (f & _ & Hrun).
  apply bind_ok_inv in Hrun as (a & _ & Hrun).
  apply bind_ok_inv in Hrun as (c & _ & Hrun).
  apply bind_ok_inv in Hrun as (no & _ & [= <- _ _ _]). done.
Qed.

(** C4: the timestamp of a valid row is aware and in UTC, and is the civil time
    of year 2000+YY, the month, the day, the hour and the minute of the row, at
    second 00, taken in the source zone and moved by the offset the zone has at
    that civil time; at 14:30 under an offset of seven hours behind UTC it is
    21:30 of the same day. *)
Theorem timestamp_is_local_time_in_utc (row : list string) dt amount cname notes :
  parse_fields row = Ok (dt, amount, cname, notes) ->
  exists dd mm yy hh mi (D M Y h m : Z),
    row !! 0%nat = Some (dd ++ "/" ++ mm ++ "/" ++ yy) /\
    row !! 1%nat = Some (hh ++ ":" ++ mi) /\
    int dd = Ok D /\ int mm = Ok M /\ int yy = Ok Y /\ int hh = Ok h /\ int mi = Ok m /\
    let local := mkdatetime (2000 + Y) M D h m 0 0 (Some Edmonton) in
    valid_civil local /\ tz dt = Some UTC /\ valid_civil dt /\ microsecond dt = 0 /\
    civil_seconds dt = civil_seconds local - edmonton_utcoffset local /\
    (edmonton_utcoffset local = -7 * 3600 -> h = 14 -> m = 30 ->
       toordinal dt = toordinal local /\ hour dt = 21 /\ minute dt = 30 /\ second dt = 0).
Proof.
  intros Hrow. apply parse_fields_datetime in Hrow.
  destruct (parse_datetime_inv row dt Hrow)
    as (dd & mm & yy & hh & mi & D & M & Y & h & m & H0 & H1 & HD & HM & HY & Hh & Hm & Hrest).
  exists dd, mm, yy, hh, mi, D, M, Y, h, m.
  cbv zeta in Hrest |- *. destruct Hrest as (Hvl & Htz & Hv & Hus & Hsec).
  split_and!; try done.
  intros Hoff -> ->. rewrite Hoff in Hsec.
  unfold civil_seconds in Hsec. simpl in Hsec.
  destruct Hv as (_ & _ & _ & Hh' & Hm' & Hs').
  set (o := toordinal dt) in *. set (o' := toordinal _) in *.
  split_and!; lia.
Qed.

End Timestamps.

(** ** The substitution of [+00:00] over the rendered text *)
Section Zulu.
Local Open Scope string_scope.

(** What [__repr__] does to the text of [json.dumps]. *)
Definition zulu (s : string) : string := replace "+00:00" "Z" s.

(** The characters of the pattern. *)
Definition in_pattern (c : ascii) : bool :=
  Ascii.eqb c "+" || Ascii.eqb c "0" || Ascii.eqb c ":".

Definition not_plus (c : ascii) : bool := negb (Ascii.eqb c "+").

(** A text that cannot continue an occurrence begun before it. *)
Definition safe_start (s : string) : Prop :=
  match s with
  | "" => True
  | String c _ => in_pattern c = false
  end.

Lemma zulu_nil : zulu "" = "".
Proof. done. Qed.

Lemma zulu_match (r : string) : zulu ("+00:00" ++ r) = String "Z" (zulu r).
Proof.
  unfold zulu. rewrite (replace_match "+00:00" "Z" _ r); [done | done |].
  apply strip_prefix_app.
Qed.

Lemma zulu_skip (c : ascii) (s : string) :
  strip_prefix "+00:00" (String c s) = None -> zulu (String c s) = String c (zulu s).
Proof. intros Hs. unfold zulu. by rewrite replace_skip. Qed.

Lemma zulu_not_plus (c : ascii) (s : string) :
  not_plus c = true -> zulu (String c s) = String c (zulu s).
Proof.
  intros Hc. apply zulu_skip. cbn [strip_prefix]. unfold not_plus in Hc.
  apply negb_true_iff in Hc. by rewrite Ascii.eqb_sym, Hc.
Qed.

(** No occurrence begins in a text without [+]. *)
Lemma zulu_plain_app (a b : string) :
  all_chars not_plus a = true -> zulu (a ++ b) = a ++ zulu b.
Proof.
  induction a as [|c a IH]; simpl; [done|].
  intros [Hc Ha]%andb_true_iff. by rewrite zulu_not_plus, IH.
Qed.

Lemma zulu_plain (a : string) : all_chars not_plus a = true -> zulu a = a.
Proof.
  intros Ha. rewrite <- (sapp_nil_r a) at 1. rewrite zulu_plain_app by done.
  by rewrite zulu_nil, sapp_nil_r.
Qed.

(** An occurrence that begins in [a] and is not inside [a] runs into [b]. *)
Lemma strip_prefix_straddle (p a b x : string) :
  strip_prefix p (a ++ b) = Some x -> strip_prefix p a = None ->
  exists c b', b = String c b' /\ (0 < count_char c p)%nat.
Proof.
  revert a; induction p as [|q p IH]; intros a; [by destruct a|].
  destruct a as [|c a]; simpl.
  - destruct b as [|c b]; [done|]. destruct (Ascii.eqb q c) eqn:Hq; [|done].
    intros _ _. exists c, b. split; [done|]. cbn [count_char]. rewrite Hq. lia.
  - destruct (Ascii.eqb q c); [|done]. intros Hx Ha.
    destruct (IH a Hx Ha) as (c' & b' & -> & Hc'). exists c', b'. split; [done|].
    cbn [count_char]. lia.
Qed.

Lemma in_pattern_count (c : ascii) :
  (0 < count_char c "+00:00")%nat -> in_pattern c = true.
Proof.
  unfold in_pattern. cbn [count_char].
  destruct (Ascii.eqb "+" c) eqn:H1; [apply Ascii.eqb_eq in H1 as <-; done|].
  destruct (Ascii.eqb "0" c) eqn:H2; [apply Ascii.eqb_eq in H2 as <-; done|].
  destruct (Ascii.eqb ":" c) eqn:H3; [apply Ascii.eqb_eq in H3 as <-; done|].
  simpl. lia.
Qed.

Lemma strip_prefix_safe (a b : string) :
  safe_start b -> strip_prefix "+00:00" a = None -> strip_prefix "+00:00" (a ++ b) = None.
Proof.
  intros Hb Ha. destruct (strip_prefix "+00:00" (a ++ b)) as [x|] eqn:Hx; [|done].
  destruct (strip_prefix_straddle _ _ _ _ Hx Ha) as (c & b' & -> & Hc).
  apply in_pattern_count in Hc. simpl in Hb. congruence.
Qed.

(** The substitution splits where the right part cannot continue an occurrence. *)
Lemma zulu_app_safe (a b : string) :
  safe_start b -> zulu (a ++ b) = zulu a ++ zulu b.
Proof.
  intros Hb. remember (String.length a) as n eqn:Hn.
  revert a Hn. induction n as [n IH] using lt_wf_ind. intros a Hn.
  destruct a as [|c a]; [done|].
  destruct (strip_prefix "+00:00" (String c a)) as [r|] eqn:Hr.
  - pose proof (strip_prefix_length _ _ _ Hr) as Hlen.
    apply strip_prefix_spec in Hr. rewrite Hr, sapp_assoc, !zulu_match.
    simpl. f_equal. apply (IH (String.length r)); [|done].
    simpl in Hlen. simpl in Hn. lia.
  - change (String c a ++ b) with (String c (a ++ b)).
    rewrite zulu_skip by (by apply (strip_prefix_safe (String c a) b)).
    rewrite (zulu_skip c a) by done. simpl. f_equal.
    apply (IH (String.length a)); [simpl in Hn; lia | done].
Qed.

End Zulu.

(** ** The substitution and [json.dumps] *)
Section ZuluJson.
Local Open Scope string_scope.

Lemma escape_char_not_plus (c : ascii) :
  not_plus c = true -> all_chars not_plus (escape_char c) = true.
Proof. destruct c as [[] [] [] [] [] [] [] []]; vm_compute; congruence. Qed.

(** An escape sequence never begins with a character of the pattern. *)
Lemma escape_char_head (c : ascii) :
  match escape_char c with
  | String h t => in_pattern h = true -> t = "" /\ h = c
  | "" => False
  end.
Proof. destruct c as [[] [] [] [] [] [] [] []]; vm_compute; (congruence || done). Qed.

Lemma escape_app (a b : string) : escape (a ++ b) = escape a ++ escape b.
Proof. induction a as [|c a IH]; simpl; [done|]. by rewrite IH, sapp_assoc. Qed.

Lemma strip_prefix_escape (p : string) : forall s x,
  all_chars in_pattern p = true ->
  strip_prefix p (escape s) = Some x ->
  exists r, strip_prefix p s = Some r /\ x = escape r.
Proof.
  induction p as [|q p IH]; intros s x Hp; simpl.
  - intros [= <-]. by exists s.
  - simpl in Hp. apply andb_true_iff in Hp as [Hq Hp].
    destruct s as [|c s]; [done|]. cbn [escape].
    pose proof (escape_char_head c) as Hhead.
    destruct (escape_char c) as [|h t]; [done|]. cbn [String.append].
    destruct (Ascii.eqb q h) eqn:Hqh; [|done].
    apply Ascii.eqb_eq in Hqh as <-. destruct (Hhead Hq) as [-> <-].
    simpl. rewrite Ascii.eqb_refl. by apply IH.
Qed.

(** Escaping and substituting commute. *)
Lemma zulu_escape (s : string) : zulu (escape s) = escape (zulu s).
Proof.
  remember (String.length s) as n eqn:Hn.
  revert s Hn. induction n as [n IH] using lt_wf_ind. intros s Hn.
  destruct s as [|c s]; [done|].
  destruct (strip_prefix "+00:00" (String c s)) as [r|] eqn:Hr.
  - pose proof (strip_prefix_length _ _ _ Hr) as Hlen.
    apply strip_prefix_spec in Hr. rewrite Hr, escape_app.
    change (escape "+00:00") with "+00:00". rewrite !zulu_match.
    cbn [escape]. change (escape_char "Z") with "Z". simpl. f_equal.
    apply (IH (String.length r)); [|done]. simpl in Hlen, Hn. lia.
  - rewrite (zulu_skip c s Hr). cbn [escape].
    rewrite <- (IH (String.length s)) by (simpl in Hn; lia || done).
    destruct (not_plus c) eqn:Hc.
    + by rewrite zulu_plain_app by (by apply escape_char_not_plus).
    + unfold not_plus in Hc. apply negb_false_iff, Ascii.eqb_eq in Hc as ->.
      change (escape_char "+") with "+". simpl. apply zulu_skip.
      destruct (strip_prefix "+00:00" (String "+" (escape s))) as [x|] eqn:Hx; [|done].
      change (String "+" (escape s)) with (escape (String "+" s)) in Hx.
      apply strip_prefix_escape in Hx as (r & Hr' & _); [congruence | done].
Qed.

Lemma zulu_encode_string (s b : string) :
  safe_start b ->
  zulu (encode_string s ++ b) = encode_string (zulu s) ++ zulu b.
Proof.
  intros Hb. unfold encode_string. cbn [String.append].
  rewrite zulu_not_plus by done. rewrite sapp_assoc. cbn [String.append].
  rewrite zulu_app_safe by done. rewrite zulu_not_plus by done.
  rewrite zulu_escape. by rewrite sapp_assoc.
Qed.

Lemma spaces_plain (k : nat) : all_chars not_plus (spaces k) = true.
Proof. induction k as [|k IH]; simpl; [done|]. done. Qed.

Lemma newline_indent_plain (level : nat) :
  all_chars not_plus (newline_indent level) = true.
Proof. unfold newline_indent. simpl. apply spaces_plain. Qed.

(** The substitution carried through a JSON value. *)
Fixpoint json_z (v : json) : json :=
  match v with
  | JString s => JString (zulu s)
  | JNumber text => JNumber (zulu text)
  | JArray items => JArray (List.map json_z items)
  | JObject members => JObject (List.map (fun kv => (zulu (fst kv), json_z (snd kv))) members)
  end.

(** Induction over JSON values, with the hypothesis for every element. *)
Fixpoint json_induction (P : json -> Prop)
    (HS : forall s, P (JString s)) (HN : forall t, P (JNumber t))
    (HA : forall items, Forall P items -> P (JArray items))
    (HO : forall members, Forall (fun kv => P (snd kv)) members -> P (JObject members))
    (v : json) {struct v} : P v :=
  match v with
  | JString s => HS s
  | JNumber t => HN t
  | JArray items =>
      HA items
        ((fix go (l : list json) : Forall P l :=
            match l with
            | [] => List.Forall_nil P
            | x :: r => List.Forall_cons P x r (json_induction P HS HN HA HO x) (go r)
            end) items)
  | JObject members =>
      HO members
        ((fix go (l : list (string * json)) : Forall (fun kv => P (snd kv)) l :=
            match l with
            | [] => List.Forall_nil _
            | kv :: r =>
                List.Forall_cons (fun kv => P (snd kv)) kv r
                  (json_induction P HS HN HA HO (snd kv)) (go r)
            end) members)
  end.

Lemma zulu_join {A} (f g : A -> string) (s0 : ascii) (sep : string)
    (items : list A) (c : string) :
  all_chars not_plus (String s0 sep) = true -> in_pattern s0 = false -> safe_start c ->
  Forall (fun x => forall b, safe_start b -> zulu (f x ++ b) = g x ++ zulu b) items ->
  zulu (join (String s0 sep) (List.map f items) ++ c)
  = join (String s0 sep) (List.map g items) ++ zulu c.
Proof.
  intros Hsep Hs0 Hc. induction items as [|x rest IH]; [done|]. intros Hall.
  apply Forall_cons in Hall as [Hx Hrest]. specialize (IH Hrest).
  destruct rest as [|y rest]; [by apply Hx|].
  cbn [join List.map] in *. rewrite !sapp_assoc.
  rewrite Hx by done. rewrite zulu_plain_app by done. by rewrite IH.
Qed.

End ZuluJson.

Section ZuluDumps.
Local Open Scope string_scope.

Lemma zulu_key (k r : string) :
  zulu (encode_string k ++ ": " ++ r) = encode_string (zulu k) ++ ": " ++ zulu r.
Proof.
  unfold encode_string. cbn [String.append].
  rewrite zulu_not_plus by done. rewrite sapp_assoc. cbn [String.append].
  rewrite zulu_app_safe by done. rewrite !zulu_not_plus by done.
  rewrite zulu_escape. by rewrite sapp_assoc.
Qed.

Lemma safe_start_newline_indent (level : nat) (r : string) :
  safe_start (newline_indent level ++ r).
Proof. done. Qed.

(** Substituting in the rendered text is rendering the substituted value. *)
Lemma zulu_dumps_at (v : json) :
  forall (level : nat) (b : string),
    safe_start b -> zulu (dumps_at level v ++ b) = dumps_at level (json_z v) ++ zulu b.
Proof.
  induction v as [s | t | items IH | members IH] using json_induction; intros level b Hb.
  - by apply zulu_encode_string.
  - cbn [dumps_at json_z]. by apply zulu_app_safe.
  - destruct items as [|x rest]; [by apply (zulu_plain_app "[]")|].
    cbn [json_z List.map]. cbn [dumps_at].
    rewrite !sapp_assoc.
    rewrite (zulu_plain_app "[") by done.
    rewrite (zulu_plain_app (newline_indent (S level))) by apply newline_indent_plain.
    change ("," ++ newline_indent (S level)) with (String "," (newline_indent (S level))).
    rewrite (zulu_join (dumps_at (S level)) (fun x => dumps_at (S level) (json_z x)) "," _ (x :: rest));
      [| by apply (newline_indent_plain (S level)) | done | apply safe_start_newline_indent | ].
    + rewrite (zulu_plain_app (newline_indent level)) by apply newline_indent_plain.
      rewrite (zulu_plain_app "]") by done.
      cbn [List.map]. by rewrite List.map_map.
    + eapply Forall_impl; [exact IH|]. intros y Hy b' Hb'. by apply Hy.
  - destruct members as [|kv rest]; [by apply (zulu_plain_app "{}")|].
    cbn [json_z List.map]. cbn [dumps_at].
    rewrite !sapp_assoc.
    rewrite (zulu_plain_app "{") by done.
    rewrite (zulu_plain_app (newline_indent (S level))) by apply newline_indent_plain.
    change ("," ++ newline_indent (S level)) with (String "," (newline_indent (S level))).
    rewrite (zulu_join
               (fun kv => encode_string (fst kv) ++ ": " ++ dumps_at (S level) (snd kv))
               (fun kv => encode_string (zulu (fst kv)) ++ ": "
                          ++ dumps_at (S level) (json_z (snd kv)))
               "," _ (kv :: rest));
      [| by apply (newline_indent_plain (S level)) | done | apply safe_start_newline_indent | ].
    + rewrite (zulu_plain_app (newline_indent level)) by apply newline_indent_plain.
      rewrite (zulu_plain_app "}") by done.
      cbn [List.map]. by rewrite List.map_map.
    + eapply Forall_impl; [exact IH|]. intros [k y] Hy b' Hb'. cbn [fst snd] in *.
      rewrite !sapp_assoc, zulu_key. by rewrite Hy.
Qed.

(** What [__repr__] returns for a dictionary [doc]. *)
Lemma zulu_dumps (doc : json) : zulu (dumps doc) = dumps (json_z doc).
Proof.
  unfold dumps. rewrite <- (sapp_nil_r (dumps_at 0 doc)).
  rewrite zulu_dumps_at by done. by rewrite zulu_nil, sapp_nil_r.
Qed.

End ZuluDumps.

(** ** The text of timestamps and amounts *)
Section Texts.
Context {zones : TzDatabase} {floats : FloatRepr}.
Local Open Scope string_scope.
Local Open Scope Z_scope.

Lemma digit_char_is_digit (n : N) : is_digit (digit_char (n mod 10)) = true.
Proof.
  assert (Hn : (n mod 10 < 10)%N) by (by apply N.mod_lt).
  revert Hn. generalize (n mod 10)%N. intros k Hk.
  destruct k as [|p]; [done|].
  do 4 (destruct p as [p|p|]; try done; try lia).
Qed.

Lemma str_of_N_fuel_digits (fuel : nat) : forall (n : N) (acc : string),
  all_chars is_digit acc = true -> all_chars is_digit (str_of_N_fuel fuel n acc) = true.
Proof.
  induction fuel as [|fuel IH]; intros n acc Hacc; simpl; [done|].
  assert (Hacc' : all_chars is_digit (String (digit_char (n mod 10)) acc) = true).
  { simpl. by rewrite digit_char_is_digit. }
  destruct (n <? 10)%N; [done | by apply IH].
Qed.

Lemma zfill_digits (width : nat) (s : string) :
  all_chars is_digit s = true -> all_chars is_digit (zfill width s) = true.
Proof.
  intros Hs. unfold zfill. rewrite all_chars_app, Hs, andb_true_r.
  induction (width - String.length s)%nat as [|k IH]; simpl; done.
Qed.

Lemma digit_not_plus (c : ascii) : is_digit c = true -> not_plus c = true.
Proof. destruct c as [[] [] [] [] [] [] [] []]; vm_compute; congruence. Qed.

Lemma str_of_N_digits (n : N) : all_chars is_digit (str_of_N n) = true.
Proof. unfold str_of_N. by apply str_of_N_fuel_digits. Qed.

Lemma fmt_d_plain (width : nat) (n : Z) : all_chars not_plus (fmt_d width n) = true.
Proof.
  unfold fmt_d. destruct (n <? 0).
  - cbn [all_chars]. apply andb_true_iff. split; [done|].
    eapply all_chars_impl; [apply digit_not_plus|].
    apply zfill_digits, str_of_N_digits.
  - eapply all_chars_impl; [apply digit_not_plus|].
    apply zfill_digits, str_of_N_digits.
Qed.

Lemma civil_isoformat_plain (dt : datetime) :
  all_chars not_plus (civil_isoformat dt) = true.
Proof.
  unfold civil_isoformat. rewrite !all_chars_app, !fmt_d_plain.
  destruct (microsecond dt =? 0); simpl; [done|]. by rewrite fmt_d_plain.
Qed.

Lemma isoformat_utc (dt : datetime) :
  is_utc dt -> isoformat dt = civil_isoformat dt ++ "+00:00".
Proof. unfold is_utc, isoformat. by intros ->. Qed.

(** The timestamp of a UTC datetime as the document shows it. *)
Lemma zulu_isoformat_utc (dt : datetime) :
  is_utc dt -> zulu (isoformat dt) = civil_isoformat dt ++ "Z".
Proof.
  intros Hdt. rewrite isoformat_utc by done.
  by rewrite zulu_plain_app by apply civil_isoformat_plain.
Qed.

Definition no_colon (c : ascii) : bool := negb (Ascii.eqb c ":").

Lemma zulu_no_colon (t : string) : all_chars no_colon t = true -> zulu t = t.
Proof.
  induction t as [|c t IH]; [done|]. intros Ht.
  rewrite zulu_skip.
  - simpl in Ht. apply andb_true_iff in Ht as [_ Ht]. by rewrite IH.
  - destruct (strip_prefix "+00:00" (String c t)) as [r|] eqn:Hr; [|done].
    apply strip_prefix_spec in Hr. rewrite Hr in Ht. simpl in Ht. done.
Qed.

Lemma float_chars_no_colon (cs : list float_char) :
  all_chars no_colon (string_of_float_chars cs) = true.
Proof.
  induction cs as [|c cs IH]; [done|]. cbn [string_of_float_chars all_chars].
  rewrite IH, andb_true_r. destruct c as [d| | | |]; try done.
  cbn [float_char_ascii]. pose proof (digit_char_is_digit d) as Hd.
  revert Hd. generalize (digit_char (d mod 10)). intros a.
  destruct a as [[] [] [] [] [] [] [] []]; vm_compute; congruence.
Qed.

Lemma amount_json_text (d : Decimal) (j : json) :
  amount_json d = Ok j -> exists text, j = JNumber text /\ zulu text = text.
Proof.
  unfold amount_json. destruct d as [s c e | s | s [|] p]; intros [= <-]; eexists;
    (split; [reflexivity|]).
  - destruct (float_repr s c e) as [cs|neg].
    + apply zulu_no_colon, float_chars_no_colon.
    + by destruct neg.
  - by destruct s.
  - done.
Qed.

End Texts.

(** ** The serialized document *)
Section Document.
Context {zones : TzDatabase} {floats : FloatRepr}.
Local Open Scope string_scope.

(** The timestamps the aggregation stores are those of transactions. *)
Lemma set_default_utc (h h' : store) (txs : ledger) (l : loc) (c : Category.t) (dt : datetime) :
  utc_ledger txs ->
  set_default_category_created_ats h txs = Ok h' ->
  l ∈ Transaction.category <$> txs ->
  h' !! l = Some c -> Category.created_at c = Some dt -> is_utc dt.
Proof.
  intros Hutc Hrun Hl Hc Hdt.
  assert (Hwf : wf_ledger h txs).
  { apply set_default_inv in Hrun as (d & _ & Hres & _).
    eapply Forall_impl; [exact Hres|]. intros t (c' & Hc' & _). eauto. }
  destruct (set_default_spec h txs Hwf Hutc) as (h'' & Hrun' & Hspec).
  assert (h'' = h') as -> by congruence.
  apply list_elem_of_fmap in Hl as (t & -> & Ht).
  destruct (Hspec t Ht) as (c' & m & Hc' & _ & Hm & Hutcm & _). congruence.
Qed.

Lemma top_level_inv (order : list loc) (h : store) (txs : ledger) (doc : json) :
  top_level order h txs = Ok doc ->
  exists cds tds,
    doc = JObject [("transactions", JArray tds);
                   ("categories", JArray (category_json <$> cds))] /\
    Forall2 (fun l cd => category_dict h l = Ok cd) order cds /\
    Forall2 (fun t j => transaction_dict h cds t = Ok j) txs tds.
Proof.
  unfold top_level. intros Hrun.
  apply bind_ok_inv in Hrun as (cds & Hcds & Hrun).
  apply bind_ok_inv in Hrun as (tds & Htds & [= <-]).
  exists cds, tds. split_and!; [done | by apply mapM_ok_inv..].
Qed.

Lemma transaction_dict_inv (h : store) (cds : list (string * string)) (t : Transaction.t)
    (j : json) :
  transaction_dict h cds t = Ok j ->
  exists cd text,
    cd ∈ cds /\ zulu text = text /\
    j = JObject [("category", category_json cd);
                 ("description", JString (Transaction.notes t));
                 ("amount", JNumber text);
                 ("created_at", JString (isoformat (Transaction.created_at t)))].
Proof.
  unfold transaction_dict. intros Hrun.
  apply bind_ok_inv in Hrun as (c & _ & Hrun).
  apply bind_ok_inv in Hrun as (cd & Hcd & Hrun).
  apply bind_ok_inv in Hrun as (a & Ha & [= <-]).
  apply amount_json_text in Ha as (text & -> & Htext).
  exists cd, text. split_and!; [|done..].
  unfold first_by_name in Hcd.
  destruct (List.filter _ cds) as [|cd' rest] eqn:Hf; [done|]. injection Hcd as ->.
  assert (Hin : In cd (List.filter (fun cd0 => bool_decide (Category.name c = fst cd0)) cds))
    by (rewrite Hf; by left).
  apply filter_In in Hin as [Hin _]. by apply list_elem_of_In.
Qed.

(** A category as the document shows it. *)
Definition category_entry (n : string) (dt : datetime) : json :=
  JObject [("name", JString (zulu n));
           ("created_at", JString (civil_isoformat dt ++ "Z"))].

(** A transaction as the document shows it, given its category entry and the
    text of its amount. *)
Definition transaction_entry (category : json) (amount : string) (t : Transaction.t) : json :=
  JObject [("category", category);
           ("description", JString (zulu (Transaction.notes t)));
           ("amount", JNumber amount);
           ("created_at", JString (civil_isoformat (Transaction.created_at t) ++ "Z"))].

(** The document [to_json] returns, entry by entry. *)
Lemma to_json_document (order : list loc) (h h' : store) (txs : ledger) (text : string) :
  set_iteration (categories txs) order ->
  utc_ledger txs ->
  to_json order h txs = Ok (h', text) ->
  exists cds tds,
    text = dumps (JObject [("transactions", JArray tds); ("categories", JArray cds)]) /\
    Forall2 (fun l j => exists c dt,
               h' !! l = Some c /\ Category.created_at c = Some dt /\
               j = category_entry (Category.name c) dt) order cds /\
    Forall2 (fun t j => exists c amount,
               c ∈ cds /\ j = transaction_entry c amount t) txs tds.
Proof.
  intros Hit Hutc Hrun. unfold to_json, repr in Hrun.
  apply bind_ok_inv in Hrun as (h1 & Hagg & Hrun).
  apply bind_ok_inv in Hrun as (doc & Hdoc & Heq).
  assert (Hh : h1 = h') by congruence.
  assert (Htext : text = zulu (dumps doc)) by (unfold zulu; congruence).
  subst h' text. clear Heq.
  apply top_level_inv in Hdoc as (cds0 & tds0 & -> & Hcds & Htds).
  rewrite zulu_dumps. cbn [json_z List.map fst snd].
  change (zulu "transactions") with "transactions".
  change (zulu "categories") with "categories".
  assert (Hcat : forall l cd, l ∈ order -> category_dict h1 l = Ok cd ->
            exists c dt, h1 !! l = Some c /\ Category.created_at c = Some dt /\
              json_z (category_json cd) = category_entry (Category.name c) dt).
  { intros l cd Hl Hcd. unfold category_dict, deref in Hcd.
    destruct (h1 !! l) as [c|] eqn:Hc; [|done]. cbn in Hcd.
    destruct (Category.created_at c) as [dt|] eqn:Hdt; [|done]. injection Hcd as <-.
    exists c, dt. split_and!; [done..|].
    unfold category_json, category_entry. cbn [json_z List.map fst snd].
    change (zulu "name") with "name". change (zulu "created_at") with "created_at".
    rewrite zulu_isoformat_utc; [done|].
    eapply (set_default_utc h h1 txs l); [done | done | | done | done].
    by apply (elem_of_iteration txs order). }
  exists (List.map json_z (category_json <$> cds0)), (List.map json_z tds0).
  split_and!; [done | |].
  - apply Forall2_fmap_r, Forall2_fmap_r.
    apply Forall2_same_length_lookup. split; [by eapply Forall2_length|].
    intros i l cd Hl Hcd.
    apply (Hcat l cd); [by eapply list_elem_of_lookup_2|].
    by apply (Forall2_lookup_lr _ _ _ _ _ _ Hcds Hl Hcd).
  - apply Forall2_fmap_r.
    apply Forall2_same_length_lookup. split; [by eapply Forall2_length|].
    intros i t j Ht Hj.
    pose proof (Forall2_lookup_lr _ _ _ _ _ _ Htds Ht Hj) as Hdict. cbn beta in Hdict.
    apply transaction_dict_inv in Hdict as (cd & amount & Hcd & Hamount & ->).
    exists (json_z (category_json cd)), amount. split.
    + apply list_elem_of_In, in_map, in_map. by apply list_elem_of_In.
    + unfold transaction_entry. cbn [json_z List.map fst snd].
      change (zulu "category") with "category".
      change (zulu "description") with "description".
      change (zulu "amount") with "amount".
      change (zulu "created_at") with "created_at".
      rewrite Hamount, zulu_isoformat_utc; [done|].
      apply (proj1 (Forall_forall _ _) Hutc). by eapply list_elem_of_lookup_2.
Qed.

(** C7: in the document every [created_at], of a category or of a
    transaction, is the date and time of a UTC timestamp followed by the
    letter Z; such a text holds no [+] at all, so it never ends in [+00:00]. *)
Theorem created_at_rendered_with_Z
    (order : list loc) (h h' : store) (txs : ledger) (text : string) :
  set_iteration (categories txs) order ->
  utc_ledger txs ->
  to_json order h txs = Ok (h', text) ->
  exists cds tds,
    text = dumps (JObject [("transactions", JArray tds); ("categories", JArray cds)]) /\
    Forall (fun j => exists n dt,
              j = JObject [("name", JString n);
                           ("created_at", JString (civil_isoformat dt ++ "Z"))]) cds /\
    Forall2 (fun t j => exists c description amount,
               c ∈ cds /\
               j = JObject [("category", c);
                            ("description", JString description);
                            ("amount", JNumber amount);
                            ("created_at",
                             JString (civil_isoformat (Transaction.created_at t) ++ "Z"))])
            txs tds /\
    (forall dt, count_char "+" (civil_isoformat dt ++ "Z") = 0%nat).
Proof.
  intros Hit Hutc Hrun.
  destruct (to_json_document order h h' txs text Hit Hutc Hrun) as (cds & tds & Htext & Hcds & Htds).
  exists cds, tds. split_and!; [done | | |].
  - apply Forall_forall. intros j Hj. apply list_elem_of_lookup in Hj as [i Hi].
    destruct (Forall2_lookup_r _ _ _ _ _ Hcds Hi) as (l & _ & c & dt & _ & _ & ->).
    by exists (zulu (Category.name c)), dt.
  - eapply Forall2_impl; [exact Htds|]. intros t j (c & amount & Hc & ->).
    by exists c, (zulu (Transaction.notes t)), amount.
  - intros dt. apply count_char_zero. rewrite all_chars_app.
    pose proof (civil_isoformat_plain dt) as Hplain. unfold not_plus in Hplain.
    by rewrite Hplain.
Qed.

(** The ledger of one transaction whose note and category name hold [+00:00]. *)
Definition offset_note_store : store :=
  {[ 0%nat := Category.mk "Zone+00:00" None ]}.

Definition offset_note_ledger : ledger :=
  [Transaction.mk (mkdatetime 2024 1 15 21 30 0 0 (Some UTC)) (Finite false 5 0) 0%nat
     "moved +00:00 again"].

(** C9: the substitution runs over the whole text: for the ledger whose only
    transaction has the note [moved +00:00 again] in the category
    [Zone+00:00], the document shows the description [moved Z again] and the
    name [ZoneZ]. *)
Theorem substitution_reaches_notes_and_names :
  set_iteration (categories offset_note_ledger) [0%nat] /\
  exists h' text stamp amount,
    to_json [0%nat] offset_note_store offset_note_ledger = Ok (h', text) /\
    text = dumps (JObject [
      ("transactions", JArray [
         JObject [("category", JObject [("name", JString "ZoneZ");
                                        ("created_at", JString stamp)]);
                  ("description", JString "moved Z again");
                  ("amount", JNumber amount);
                  ("created_at", JString "2024-01-15T21:30:00Z")]]);
      ("categories", JArray [
         JObject [("name", JString "ZoneZ"); ("created_at", JString stamp)]])]).
Proof.
  assert (Hit : set_iteration (categories offset_note_ledger) [0%nat]).
  { unfold set_iteration, categories, offset_note_ledger. cbn [fmap list_fmap Transaction.category].
    rewrite list_to_set_singleton, elements_singleton. done. }
  split; [done|].
  assert (Hutc : utc_ledger offset_note_ledger) by (by repeat constructor).
  destruct (repr_ok [0%nat] offset_note_store offset_note_ledger Hit) as (h' & text & Hrun);
    [by repeat constructor | done | by repeat constructor |].
  destruct (to_json_document _ _ _ _ _ Hit Hutc Hrun) as (cds & tds & Htext & Hcds & Htds).
  apply Forall2_cons_inv_l in Hcds as (j & cds' & (c & dt & Hc & Hdt & ->) & Hnil & ->).
  apply Forall2_nil_inv_l in Hnil as ->.
  apply Forall2_cons_inv_l in Htds as (j' & tds' & (c' & amount & Hc' & ->) & Hnil & ->).
  apply Forall2_nil_inv_l in Hnil as ->.
  apply list_elem_of_singleton in Hc' as ->.
  assert (Hname : Category.name c = "Zone+00:00").
  { unfold to_json, repr in Hrun. apply bind_ok_inv in Hrun as (h1 & Hagg & Hrun).
    apply bind_ok_inv in Hrun as (doc & _ & Heq).
    assert (h1 = h') as -> by congruence.
    pose proof (set_default_names _ _ _ Hagg 0%nat) as Hn. rewrite Hc in Hn.
    unfold offset_note_store in Hn. rewrite lookup_singleton_eq in Hn.
    cbn in Hn. congruence. }
  exists h', text, (civil_isoformat dt ++ "Z"), amount. split; [done|].
  rewrite Htext. unfold category_entry, transaction_entry. rewrite Hname. done.
Qed.

End Document.

(** ** From the file to the document *)
Section Pipeline.
Context {zones : TzDatabase} {floats : FloatRepr}.
Local Open Scope string_scope.

Lemma mul_not_signaling (ctx : Context) (a b r : Decimal) :
  mul ctx a b = Ok r -> not_signaling r.
Proof.
  unfold mul, fix_nan, fix_finite.
  destruct a as [sa ca ea | sa | sa [|] pa], b as [sb cb eb | sb | sb [|] pb];
    try discriminate; try (intros [= <-]; exact I).
  - destruct (ca * cb =? 0)%N; [by intros [= <-]|].
    destruct (Etop ctx <? _)%Z; [done|].
    destruct (_ <? _)%Z; [|by intros [= <-]].
    match goal with |- context [if ?c then (_, _) else (_, _)] => destruct c end;
      match goal with |- context [if ?c then _ else _] => destruct c end;
      (done || by intros [= <-]).
  - destruct (ca =? 0)%N; [done | by intros [= <-]].
  - destruct (cb =? 0)%N; [done | by intros [= <-]].
Qed.

Lemma parse_fields_ok_inv (row : list string) dt amount cname notes :
  parse_fields row = Ok (dt, amount, cname, notes) -> is_utc dt /\ not_signaling amount.
Proof.
  intros Hrow. split.
  - apply parse_fields_datetime in Hrow.
    by destruct (parse_datetime_inv row dt Hrow)
      as (? & ? & ? & ? & ? & ? & ? & ? & ? & ? & _ & _ & _ & _ & _ & _ & _ & _ & Hutc & _).
  - unfold parse_fields in Hrow.
    apply bind_ok_inv in Hrow as (dt' & _ & Hrow).
    apply bind_ok_inv in Hrow as (f & _ & Hrow).
    apply bind_ok_inv in Hrow as (a & Ha & Hrow).
    apply bind_ok_inv in Hrow as (c & _ & Hrow).
    apply bind_ok_inv in Hrow as (no & _ & [= _ <- _ _]).
    rewrite parse_amount_unfold in Ha.
    destruct (unpack2 _) as [[p sfx]|]; [|done].
    apply bind_ok_inv in Ha as (d & _ & Ha). by eapply mul_not_signaling.
Qed.

Lemma parsed_rows_elem (rows : list (list string)) x :
  x ∈ parsed_rows rows -> exists row, row ∈ rows /\ parse_fields row = Ok x.
Proof.
  unfold parsed_rows. intros Hx. apply list_elem_of_omap in Hx as (row & Hrow & Hx).
  exists row. split; [done|]. destruct (parse_fields row); congruence.
Qed.

(** The ledger that [parse_expense_log] returns: every transaction has a UTC
    timestamp, an amount that is not a signalling NaN and a category object
    of its own, in the store and without a timestamp. *)
Lemma parse_expense_log_invariants (rows : list (list string)) :
  let st := parse_expense_log rows in
  wf_ledger (ps_store st) (ps_ledger st) /\
  utc_ledger (ps_ledger st) /\
  Forall (fun t => not_signaling (Transaction.amount t)) (ps_ledger st) /\
  NoDup (Transaction.category <$> ps_ledger st) /\
  Forall (fun t => Category.created_at <$> ps_store st !! Transaction.category t = Some None)
    (ps_ledger st).
Proof.
  intros st. destruct (parse_expense_log_spec rows) as (Himg & _ & Hnd & _). fold st in Himg, Hnd.
  assert (Hall : forall t, t ∈ ps_ledger st ->
            is_Some (ps_store st !! Transaction.category t) /\
            is_utc (Transaction.created_at t) /\ not_signaling (Transaction.amount t) /\
            Category.created_at <$> ps_store st !! Transaction.category t = Some None).
  { intros t Ht. apply list_elem_of_lookup in Ht as [i Hi].
    destruct (Forall2_lookup_l _ _ _ _ _ Himg Hi) as ([[[dt amount] cname] notes] & Hx & Himage).
    destruct Himage as (<- & <- & <- & Hstore).
    apply list_elem_of_lookup_2, parsed_rows_elem in Hx as (row & _ & Hrow).
    apply parse_fields_ok_inv in Hrow as [Hutc Hns].
    rewrite Hstore. split_and!; eauto. }
  split_and!; [| | | done |]; apply Forall_forall; intros t Ht; by apply Hall.
Qed.

(** X1 (src/convert.py, line 170): every accepted row gets a category object
    of its own. The references of the ledger are pairwise distinct, so the
    category set has as many members as the ledger has transactions, and each
    object is stored under the name of the row with no timestamp. *)
Theorem categories_fresh_per_row (rows : list (list string)) :
  let st := parse_expense_log rows in
  NoDup (Transaction.category <$> ps_ledger st) /\
  size (categories (ps_ledger st)) = length (ps_ledger st) /\
  Forall2 (fun t x => ps_store st !! Transaction.category t
                      = Some (Category.mk (x.1.2) None))
    (ps_ledger st) (parsed_rows (tail rows)).
Proof.
  intros st. destruct (parse_expense_log_spec rows) as (Himg & _ & Hnd & _).
  fold st in Himg, Hnd. split_and!; [done | |].
  - unfold categories. rewrite size_list_to_set by done. by rewrite length_fmap.
  - eapply Forall2_impl; [exact Himg|].
    intros t [[[dt amount] cname] notes] (_ & _ & _ & Hstore). exact Hstore.
Qed.

(** X2 (src/convert.py, lines 105-133 after 136-178): the run as a whole.
    Whatever the rows of the file, [to_json] on the ledger that
    [parse_expense_log] built returns the document, for every order in which
    the category set is iterated; its category entries are those of the
    objects in that order, each with the timestamp aggregation gave it, and
    every timestamp is rendered with the letter Z. *)
Theorem parse_then_serialize (rows : list (list string)) (order : list loc) :
  let st := parse_expense_log rows in
  set_iteration (categories (ps_ledger st)) order ->
  exists h' text cds tds,
    to_json order (ps_store st) (ps_ledger st) = Ok (h', text) /\
    text = dumps (JObject [("transactions", JArray tds); ("categories", JArray cds)]) /\
    Forall2 (fun l j => exists c dt,
               h' !! l = Some c /\ Category.created_at c = Some dt /\
               j = category_entry (Category.name c) dt) order cds /\
    Forall2 (fun t j => exists c amount,
               c ∈ cds /\ j = transaction_entry c amount t) (ps_ledger st) tds.
Proof.
  intros st Hit.
  destruct (parse_expense_log_invariants rows) as (Hwf & Hutc & Hns & _ & _).
  fold st in Hwf, Hutc, Hns.
  destruct (repr_ok order (ps_store st) (ps_ledger st) Hit Hwf Hutc Hns) as (h' & text & Hrun).
  destruct (to_json_document order _ h' _ text Hit Hutc Hrun) as (cds & tds & Htext & Hcds & Htds).
  exists h', text, cds, tds. done.
Qed.

End Pipeline.

(** ** More on the aggregation *)
Section AggregationFrame.
Context {zones : TzDatabase}.

(** Two stores with the same names give the same dictionary, and the second
    loop writes the same objects at the categories of the ledger. *)
Lemma set_default_same_names (h1 h2 h1' : store) (txs : ledger) :
  (forall l, Category.name <$> h1 !! l = Category.name <$> h2 !! l) ->
  set_default_category_created_ats h1 txs = Ok h1' ->
  exists h2', set_default_category_created_ats h2 txs = Ok h2' /\
    forall l, h2' !! l = if decide (l ∈ Transaction.category <$> txs)
                         then h1' !! l else h2 !! l.
Proof.
  intros Hn Hrun. apply set_default_inv in Hrun as (d & Hloop & Hres & Hlook).
  assert (Hres2 : Forall (resolvable d h2) txs).
  { apply Forall_forall. intros t Ht.
    destruct (proj1 (Forall_forall _ _) Hres t Ht) as (c & Hc & Hd).
    specialize (Hn (Transaction.category t)). rewrite Hc in Hn. simpl in Hn.
    destruct (h2 !! Transaction.category t) as [c2|] eqn:Hc2; [|done].
    injection Hn as Hn. exists c2. split; [done|]. by rewrite <- Hn. }
  destruct (assign_loop_ok d txs h2 Hres2) as [h2' Hassign].
  exists h2'. split.
  - unfold set_default_category_created_ats.
    rewrite <- (earliest_loop_names h1 h2 txs Hn), Hloop. exact Hassign.
  - apply assign_loop_inv in Hassign as [_ Hlook2]. intros l.
    rewrite Hlook2, Hlook. case_decide; [|done].
    specialize (Hn l). destruct (h1 !! l) as [c1|], (h2 !! l) as [c2|]; try done.
    injection Hn as Hn. simpl. unfold stamp. by rewrite Hn.
Qed.

Lemma set_default_fixpoint (h h1 : store) (txs : ledger) :
  set_default_category_created_ats h txs = Ok h1 ->
  set_default_category_created_ats h1 txs = Ok h1.
Proof.
  intros Hrun.
  destruct (set_default_same_names h h1 h1 txs) as (h2 & Hrun2 & Hlook); [|done|].
  { intros l. symmetry. by eapply set_default_names. }
  rewrite Hrun2. f_equal. apply map_eq. intros l. rewrite Hlook. by case_decide.
Qed.

(** The timestamp the aggregation leaves in a category of the ledger is the
    entry of one dictionary for the name of the category. *)
Lemma set_default_created_at (h h' : store) (txs : ledger) :
  set_default_category_created_ats h txs = Ok h' ->
  exists d : gmap string datetime,
    forall l c, l ∈ Transaction.category <$> txs -> h' !! l = Some c ->
      Category.created_at c = d !! Category.name c.
Proof.
  intros Hrun. apply set_default_inv in Hrun as (d & _ & _ & Hlook).
  exists d. intros l c Hl. rewrite Hlook, decide_True by done.
  destruct (h !! l) as [c0|]; [|done]. by intros [= <-].
Qed.

(** X4 (src/convert.py, lines 93-103): the aggregation writes the
    [created_at] of the categories of the ledger and nothing else. No object
    is created or deleted, no name changes, and a category that no transaction
    of the ledger refers to is left as it was. *)
Theorem aggregation_frame (h h' : store) (txs : ledger) :
  set_default_category_created_ats h txs = Ok h' ->
  dom h' = dom h /\
  (forall l, Category.name <$> h' !! l = Category.name <$> h !! l) /\
  (forall l, l ∉ categories txs -> h' !! l = h !! l).
Proof.
  intros Hrun. assert (Hnames := set_default_names h h' txs Hrun).
  split_and!; [|done|].
  - apply set_eq. intros l. rewrite !elem_of_dom. specialize (Hnames l).
    destruct (h' !! l), (h !! l); try done; split; intros [? ?]; done.
  - intros l Hl. apply set_default_inv in Hrun as (d & _ & _ & Hlook).
    rewrite Hlook. rewrite decide_False; [done|].
    intros Hin. apply Hl. unfold categories. by apply elem_of_list_to_set.
Qed.

(** X5 (src/convert.py, lines 10-12 and 93-103): a [created_at] that a
    category holds before the aggregation is discarded. Two stores that give
    the categories the same names end, after the aggregation of the same
    ledger, with the same objects at every category of the ledger. *)
Theorem aggregation_discards_previous_created_at (h1 h2 h1' : store) (txs : ledger) :
  (forall l, Category.name <$> h1 !! l = Category.name <$> h2 !! l) ->
  set_default_category_created_ats h1 txs = Ok h1' ->
  exists h2', set_default_category_created_ats h2 txs = Ok h2' /\
    forall l, l ∈ categories txs -> h2' !! l = h1' !! l.
Proof.
  intros Hn Hrun.
  destruct (set_default_same_names h1 h2 h1' txs Hn Hrun) as (h2' & Hrun2 & Hlook).
  exists h2'. split; [done|]. intros l Hl. rewrite Hlook.
  rewrite decide_True; [done|]. unfold categories in Hl. by apply elem_of_list_to_set in Hl.
Qed.

End AggregationFrame.

Section AggregationFailure.
Context {zones : TzDatabase}.

(** Two transactions of the same category name, one with a naive and one with
    an aware timestamp. *)
Definition mixed_awareness (h : store) (txs : ledger) : Prop :=
  exists t1 t2, t1 ∈ txs /\ t2 ∈ txs /\ cat_name h t1 = cat_name h t2 /\
    tz (Transaction.created_at t1) = None /\ tz (Transaction.created_at t2) <> None.

(** The dictionary of the first loop after the transactions [pre]. *)
Definition dict_of (h : store) (pre : ledger) (d : gmap string datetime) : Prop :=
  (forall n m, d !! n = Some m ->
     exists t, t ∈ pre /\ cat_name h t = Some n /\ Transaction.created_at t = m) /\
  (forall t n, t ∈ pre -> cat_name h t = Some n -> is_Some (d !! n)).

Lemma datetime_lt_awareness (a b : datetime) :
  match datetime_lt a b with
  | Ok _ => (tz a = None <-> tz b = None)
  | Raise e => e = TypeError /\ ~ (tz a = None <-> tz b = None)
  end.
Proof.
  unfold datetime_lt, datetime_cmp.
  destruct (tz a) as [za|], (tz b) as [zb|]; simpl.
  - destruct (decide (za = zb)); simpl; [done|]. by destruct (_ =? _).
  - split; [done|]. intros [_ H]. by specialize (H eq_refl).
  - split; [done|]. intros [H _]. by specialize (H eq_refl).
  - done.
Qed.

Lemma mixed_awareness_mono (h : store) (txs txs' : ledger) :
  (forall t, t ∈ txs -> t ∈ txs') -> mixed_awareness h txs -> mixed_awareness h txs'.
Proof. intros Hsub (t1 & t2 & ? & ? & ?). exists t1, t2. split_and!; auto; tauto. Qed.

Lemma earliest_loop_awareness (h : store) (rest : ledger) :
  forall (pre : ledger) (d : gmap string datetime),
    wf_ledger h (pre ++ rest) -> dict_of h pre d -> ~ mixed_awareness h pre ->
    match earliest_loop h d rest with
    | Ok d' => dict_of h (pre ++ rest) d' /\ ~ mixed_awareness h (pre ++ rest)
    | Raise e => e = TypeError /\ mixed_awareness h (pre ++ rest)
    end.
Proof.
  induction rest as [|t rest IH]; intros pre d Hwf Hd Hnm.
  - simpl. by rewrite app_nil_r.
  - assert (Hwft : is_Some (h !! Transaction.category t)).
    { apply (proj1 (Forall_forall _ _) Hwf). apply elem_of_app. right. by left. }
    destruct Hwft as [c Hc].
    assert (Hname : cat_name h t = Some (Category.name c)).
    { unfold cat_name. by rewrite Hc. }
    assert (Hsplit : pre ++ t :: rest = (pre ++ [t]) ++ rest) by (by rewrite <- app_assoc).
    cbn [earliest_loop]. unfold earliest_step, deref. rewrite Hc. simpl.
    destruct Hd as [Hd1 Hd2].
    destruct (d !! Category.name c) as [e|] eqn:He.
    + destruct (Hd1 _ _ He) as (t0 & Ht0 & Hn0 & Hm0).
      pose proof (datetime_lt_awareness (Transaction.created_at t) e) as Hlt.
      destruct (datetime_lt (Transaction.created_at t) e) as [b|x]; simpl.
      * rewrite Hsplit. apply IH; [by rewrite <- Hsplit | |].
        -- split.
           ++ intros n m Hn.
              assert (Hcase : d !! n = Some m \/
                        (n = Category.name c /\ m = Transaction.created_at t)).
              { destruct b; [|by left]. rewrite lookup_insert in Hn.
                case_decide; [right; split; congruence | by left]. }
              destruct Hcase as [Hold | [-> ->]].
              ** destruct (Hd1 _ _ Hold) as (t' & ? & ? & ?).
                 exists t'. split; [apply elem_of_app; by left | done].
              ** exists t. split; [apply elem_of_app; right; by left | done].
           ++ intros t' n Ht' Hn'.
              assert (Hsome : is_Some (d !! n)).
              { apply elem_of_app in Ht' as [Ht'|Ht'].
                - by eapply Hd2.
                - apply list_elem_of_singleton in Ht' as ->.
                  assert (n = Category.name c) as -> by congruence. by rewrite He. }
              destruct b; [|done]. rewrite lookup_insert. by case_decide.
        -- intros (t1 & t2 & H1 & H2 & Hsame & Hnaive & Haware).
           assert (Hpre : forall t', t' ∈ pre ++ [t] ->
                     cat_name h t' = Some (Category.name c) ->
                     (tz (Transaction.created_at t') = None <-> tz e = None)).
           { intros t' Ht' Hn'. apply elem_of_app in Ht' as [Ht'|Ht'].
             - subst e. split; intros Hz.
               + destruct (tz (Transaction.created_at t0)) eqn:Hz0; [|done].
                 exfalso. apply Hnm. exists t', t0. split_and!; auto; congruence.
               + destruct (tz (Transaction.created_at t')) eqn:Hz'; [|done].
                 exfalso. apply Hnm. exists t0, t'. split_and!; auto; congruence.
             - apply list_elem_of_singleton in Ht' as ->. exact Hlt. }
           destruct (decide (cat_name h t1 = Some (Category.name c))) as [Hn1|Hn1].
           ++ apply Haware. apply (Hpre t2 H2); [congruence|].
              by apply (Hpre t1 H1).
           ++ assert (H1' : t1 ∈ pre).
              { apply elem_of_app in H1 as [?|H1]; [done|].
                apply list_elem_of_singleton in H1 as ->. done. }
              assert (H2' : t2 ∈ pre).
              { apply elem_of_app in H2 as [?|H2]; [done|].
                apply list_elem_of_singleton in H2 as ->. congruence. }
              apply Hnm. exists t1, t2. done.
      * destruct Hlt as [-> Hmix]. split; [done|].
        assert (Hin0 : t0 ∈ pre ++ t :: rest) by (apply elem_of_app; by left).
        assert (Hint : t ∈ pre ++ t :: rest) by (apply elem_of_app; right; by left).
        subst e. destruct (tz (Transaction.created_at t)) eqn:Hzt.
        -- exists t0, t. split_and!; [done | done | congruence | | congruence].
           destruct (tz (Transaction.created_at t0)); [|done].
           exfalso. apply Hmix. done.
        -- exists t, t0. split_and!; [done | done | congruence | done |].
           intros Hz0. apply Hmix. done.
    + rewrite Hsplit. apply IH; [by rewrite <- Hsplit | |].
      * split.
        -- intros n m Hn. rewrite lookup_insert in Hn. case_decide as Heq.
           ++ injection Hn as <-. subst n.
              exists t. split; [apply elem_of_app; right; by left | done].
           ++ destruct (Hd1 _ _ Hn) as (t' & ? & ? & ?).
              exists t'. split; [apply elem_of_app; by left | done].
        -- intros t' n Ht' Hn'. rewrite lookup_insert. case_decide; [done|].
           apply elem_of_app in Ht' as [Ht'|Ht']; [by eapply Hd2|].
           apply list_elem_of_singleton in Ht' as ->. congruence.
      * intros (t1 & t2 & H1 & H2 & Hsame & Hnaive & Haware).
        assert (Hfresh : forall t', t' ∈ pre -> cat_name h t' <> Some (Category.name c)).
        { intros t' Ht' Hn'. destruct (Hd2 t' _ Ht' Hn') as [? ?]. congruence. }
        apply elem_of_app in H1 as [H1|H1], H2 as [H2|H2].
        -- apply Hnm. exists t1, t2. done.
        -- apply list_elem_of_singleton in H2 as ->. apply (Hfresh t1 H1). congruence.
        -- apply list_elem_of_singleton in H1 as ->. apply (Hfresh t2 H2). congruence.
        -- apply list_elem_of_singleton in H1 as ->.
           apply list_elem_of_singleton in H2 as ->. done.
Qed.

(** X6 (src/convert.py, lines 93-103): when the aggregation fails. On a
    ledger whose categories are in the store the only exception is the
    [TypeError] of [<], and it is raised exactly when two transactions of the
    same category name have a naive and an aware timestamp. *)
Theorem aggregation_fails_on_mixed_awareness (h : store) (txs : ledger) :
  wf_ledger h txs ->
  (forall e, set_default_category_created_ats h txs = Raise e -> e = TypeError) /\
  (set_default_category_created_ats h txs = Raise TypeError <-> mixed_awareness h txs).
Proof.
  intros Hwf.
  pose proof (earliest_loop_awareness h txs [] ∅) as Hloop. simpl in Hloop.
  specialize (Hloop Hwf).
  assert (Hinit : dict_of h [] ∅).
  { split; [intros n m Hn; by rewrite lookup_empty in Hn|].
    intros t n Ht. by apply elem_of_nil in Ht. }
  assert (Hnm0 : ~ mixed_awareness h []).
  { intros (t1 & _ & Ht1 & _). by apply elem_of_nil in Ht1. }
  specialize (Hloop Hinit Hnm0).
  unfold set_default_category_created_ats.
  destruct (earliest_loop h ∅ txs) as [d|x]; simpl.
  - destruct Hloop as [[_ Hd2] Hnm].
    assert (Hres : Forall (resolvable d h) txs).
    { apply Forall_forall. intros t Ht.
      destruct (proj1 (Forall_forall _ _) Hwf t Ht) as [c Hc].
      exists c. split; [done|]. apply (Hd2 t); [done|]. unfold cat_name. by rewrite Hc. }
    destruct (assign_loop_ok d txs h Hres) as [h' ->]. split; [done|]. split; [done|].
    intros Hmix. by destruct Hnm.
  - destruct Hloop as [-> Hmix]. split; [by intros e [= <-]|]. done.
Qed.

End AggregationFailure.

Section AggregationOrder.
Context {zones : TzDatabase}.

Lemma is_earliest_unique (h : store) (txs : ledger) (n : string) (m1 m2 : datetime) :
  is_utc m1 -> is_utc m2 ->
  is_earliest h txs n m1 -> is_earliest h txs n m2 -> m1 = m2.
Proof.
  intros Hu1 Hu2 [(t1 & Ht1 & Hn1 & Hm1) Hmin1] [(t2 & Ht2 & Hn2 & Hm2) Hmin2].
  specialize (Hmin1 t2 Ht2 Hn2). specialize (Hmin2 t1 Ht1 Hn1).
  rewrite Hm2 in Hmin1. rewrite Hm1 in Hmin2.
  rewrite datetime_lt_utc in Hmin1, Hmin2 by done.
  apply base_tuple_inj; [|congruence].
  apply tuple_cmp_eq. rewrite (tuple_cmp_antisym (base_tuple m1) (base_tuple m2)) in Hmin1.
  destruct (tuple_cmp (base_tuple m1) (base_tuple m2)); simpl in *; congruence.
Qed.

Lemma is_earliest_perm (h : store) (txs txs' : ledger) (n : string) (m : datetime) :
  txs ≡ₚ txs' -> is_earliest h txs n m -> is_earliest h txs' n m.
Proof.
  intros Hp [(t & Ht & Hn & Hm) Hmin]. split.
  - exists t. by rewrite <- Hp.
  - intros t' Ht'. apply Hmin. by rewrite Hp.
Qed.

(** X7 (src/convert.py, lines 93-103): the order of the ledger does not
    matter to the aggregation. On UTC timestamps, two ledgers with the same
    transactions in different orders leave the same store; transactions that
    share the earliest timestamp of a name all carry the same value. *)
Theorem aggregation_order_independent (h : store) (txs txs' : ledger) :
  wf_ledger h txs -> utc_ledger txs -> txs ≡ₚ txs' ->
  set_default_category_created_ats h txs' = set_default_category_created_ats h txs.
Proof.
  intros Hwf Hutc Hp.
  assert (Hwf' : wf_ledger h txs') by (unfold wf_ledger; by rewrite <- Hp).
  assert (Hutc' : utc_ledger txs') by (unfold utc_ledger; by rewrite <- Hp).
  destruct (earliest_dict_spec h txs Hwf Hutc) as (d & Hloop & Hd & Hmin & Htot).
  destruct (earliest_dict_spec h txs' Hwf' Hutc') as (d' & Hloop' & Hd' & Hmin' & Htot').
  destruct (set_default_spec h txs Hwf Hutc) as (h1 & Hrun & _).
  destruct (set_default_spec h txs' Hwf' Hutc') as (h2 & Hrun' & _).
  rewrite Hrun, Hrun'. f_equal. apply map_eq. intros l.
  apply set_default_inv in Hrun as (d0 & Hloop0 & _ & Hlook).
  apply set_default_inv in Hrun' as (d0' & Hloop0' & _ & Hlook').
  assert (d0 = d) as -> by congruence. assert (d0' = d') as -> by congruence.
  rewrite Hlook, Hlook'.
  assert (Hiff : l ∈ Transaction.category <$> txs' <-> l ∈ Transaction.category <$> txs).
  { by rewrite Hp. }
  destruct (decide (l ∈ Transaction.category <$> txs)) as [Hin|Hnin].
  - rewrite decide_True by (by apply Hiff).
    destruct (h !! l) as [c|] eqn:Hc; [|done]. simpl. f_equal. unfold stamp. f_equal.
    apply list_elem_of_fmap in Hin as (t & -> & Ht).
    assert (Hn : cat_name h t = Some (Category.name c)) by (unfold cat_name; by rewrite Hc).
    assert (Ht' : t ∈ txs') by (by rewrite <- Hp).
    destruct (Htot t _ Ht Hn) as [m Hm]. destruct (Htot' t _ Ht' Hn) as [m' Hm'].
    rewrite Hm, Hm'. f_equal.
    apply (is_earliest_unique h txs (Category.name c)); [by eapply Hd' | by eapply Hd | |].
    + eapply is_earliest_perm; [symmetry; exact Hp | by apply Hmin'].
    + by apply Hmin.
  - rewrite decide_False; [done|]. intros Hin. by apply Hnin, Hiff.
Qed.

End AggregationOrder.

(** ** More on the serialization *)
Section SerializationMore.
Context {zones : TzDatabase} {floats : FloatRepr}.
Local Open Scope string_scope.

Lemma mapM_perm {A B} (f : A -> result B) (l1 l2 : list A) :
  l1 ≡ₚ l2 ->
  forall ys1, mapM f l1 = Ok ys1 -> exists ys2, mapM f l2 = Ok ys2 /\ ys1 ≡ₚ ys2.
Proof.
  induction 1 as [|x l1 l2 Hp IH|x y l|l1 l2 l3 Hp1 IH1 Hp2 IH2]; intros ys1 Hrun.
  - exists ys1. done.
  - cbn [mapM] in *. apply bind_ok_inv in Hrun as (y & Hy & Hrun).
    apply bind_ok_inv in Hrun as (ys & Hys & [= <-]).
    destruct (IH ys Hys) as (ys2 & Hys2 & Hperm).
    exists (y :: ys2). rewrite Hy. simpl. rewrite Hys2. simpl. split; [done|].
    by constructor.
  - cbn [mapM] in *. apply bind_ok_inv in Hrun as (b & Hb & Hrun).
    apply bind_ok_inv in Hrun as (ys & Hrun & [= <-]).
    apply bind_ok_inv in Hrun as (a & Ha & Hrun).
    apply bind_ok_inv in Hrun as (ys' & Hys' & [= <-]).
    exists (a :: b :: ys'). rewrite Ha. simpl. rewrite Hb. simpl. rewrite Hys'. simpl.
    split; [done | apply perm_swap].
  - destruct (IH1 ys1 Hrun) as (ys2 & Hys2 & Hperm1).
    destruct (IH2 ys2 Hys2) as (ys3 & Hys3 & Hperm2).
    exists ys3. split; [done | by etrans].
Qed.

Lemma mapM_ext_in {A B} (f g : A -> result B) (l : list A) :
  (forall x, x ∈ l -> f x = g x) -> mapM f l = mapM g l.
Proof.
  induction l as [|x l IH]; intros Hfg; [done|]. cbn [mapM].
  rewrite (Hfg x) by (by left). rewrite IH; [done|]. intros y Hy. apply Hfg. by right.
Qed.

Lemma first_by_name_inv (n : string) (cds : list (string * string)) (cd : string * string) :
  first_by_name n cds = Ok cd -> fst cd = n /\ cd ∈ cds.
Proof.
  unfold first_by_name. destruct (List.filter _ cds) as [|cd' rest] eqn:Hf; [done|].
  intros [= ->].
  assert (Hin : In cd (List.filter (fun cd0 => bool_decide (n = fst cd0)) cds))
    by (rewrite Hf; by left).
  apply filter_In in Hin as [Hin Hn]. apply bool_decide_eq_true in Hn.
  split; [done | by apply list_elem_of_In].
Qed.

(** Entries with the same name are the same entry. *)
Definition by_name (cds : list (string * string)) : Prop :=
  forall a b, a ∈ cds -> b ∈ cds -> fst a = fst b -> a = b.

Lemma first_by_name_perm (n : string) (c1 c2 : list (string * string)) (cd : string * string) :
  c1 ≡ₚ c2 -> by_name c1 -> first_by_name n c1 = Ok cd -> first_by_name n c2 = Ok cd.
Proof.
  intros Hp Hfun Hcd. apply first_by_name_inv in Hcd as [Hn Hin].
  assert (Hn2 : n ∈ c2.*1).
  { apply list_elem_of_fmap. exists cd. split; [done | by rewrite <- Hp]. }
  destruct (first_by_name_ok n c2 Hn2) as (cd' & Hcd' & Hn' & Hin'). rewrite Hcd'.
  f_equal. apply Hfun; [by rewrite Hp | done | congruence].
Qed.

(** After the aggregation, the entry of a category of the ledger is given by
    its name. *)
Lemma category_dicts_by_name (order : list loc) (h h' : store) (txs : ledger)
    (cds : list (string * string)) :
  set_iteration (categories txs) order ->
  set_default_category_created_ats h txs = Ok h' ->
  mapM (category_dict h') order = Ok cds ->
  by_name cds /\
  forall t c cd, t ∈ txs -> h' !! Transaction.category t = Some c -> cd ∈ cds ->
    fst cd = Category.name c ->
    exists dt, Category.created_at c = Some dt /\ cd = (Category.name c, isoformat dt).
Proof.
  intros Hit Hrun Hcds.
  destruct (set_default_created_at h h' txs Hrun) as [d Hd].
  assert (Hshape : forall cd, cd ∈ cds ->
            exists n dt, d !! n = Some dt /\ cd = (n, isoformat dt)).
  { intros cd Hcd. apply mapM_ok_inv in Hcds.
    apply list_elem_of_lookup in Hcd as [i Hi].
    destruct (Forall2_lookup_r _ _ _ _ _ Hcds Hi) as (l & Hl & Hdict).
    apply list_elem_of_lookup_2 in Hl. apply (elem_of_iteration txs order) in Hl; [|done].
    unfold category_dict, deref in Hdict.
    destruct (h' !! l) as [c|] eqn:Hc; [|done]. simpl in Hdict.
    destruct (Category.created_at c) as [dt|] eqn:Hdt; [|done]. injection Hdict as <-.
    exists (Category.name c), dt. split; [|done]. rewrite <- (Hd l c Hl Hc). done. }
  split.
  - intros a b Ha Hb Hab.
    destruct (Hshape a Ha) as (na & dta & Hda & ->).
    destruct (Hshape b Hb) as (nb & dtb & Hdb & ->).
    simpl in Hab. subst nb. congruence.
  - intros t c cd Ht Hc Hcd Hn. destruct (Hshape cd Hcd) as (n & dt & Hdt & ->).
    simpl in Hn. subst n. exists dt. split; [|done].
    rewrite (Hd (Transaction.category t) c); [done | by apply list_elem_of_fmap_2 | done].
Qed.

(** X8 (src/convert.py, lines 105-133): [to_json] can be called again. The
    first call stamps the categories; a second call on the objects it left
    returns the same text and leaves them as they are. *)
Theorem to_json_twice (order : list loc) (h h' : store) (txs : ledger) (text : string) :
  to_json order h txs = Ok (h', text) -> to_json order h' txs = Ok (h', text).
Proof.
  unfold to_json, repr. intros Hrun.
  apply bind_ok_inv in Hrun as (h1 & Hagg & Hrun).
  apply bind_ok_inv in Hrun as (doc & Hdoc & Heq).
  assert (h1 = h') as -> by congruence.
  rewrite (set_default_fixpoint h h' txs Hagg). cbn [mbind result_bind Py.bind].
  rewrite Hdoc. exact Heq.
Qed.

(** X9 (src/convert.py, lines 113-128): the order in which the set of
    categories is iterated shows in the array of categories and nowhere else.
    Two iteration orders give the same array of transactions, since the
    entries of one name are all the same, and arrays of categories that are
    permutations of each other. *)
Theorem iteration_order_permutes_categories
    (o1 o2 : list loc) (h h' : store) (txs : ledger) (text : string) :
  set_iteration (categories txs) o1 -> set_iteration (categories txs) o2 ->
  to_json o1 h txs = Ok (h', text) ->
  exists tds cds1 cds2,
    text = replace "+00:00" "Z"
             (dumps (JObject [("transactions", JArray tds); ("categories", JArray cds1)])) /\
    to_json o2 h txs =
      Ok (h', replace "+00:00" "Z"
                (dumps (JObject [("transactions", JArray tds); ("categories", JArray cds2)]))) /\
    cds1 ≡ₚ cds2.
Proof.
  intros Hit1 Hit2 Hrun. unfold to_json, repr in *.
  apply bind_ok_inv in Hrun as (h1 & Hagg & Hrun).
  apply bind_ok_inv in Hrun as (doc & Hdoc & Heq).
  assert (h1 = h') as -> by congruence.
  assert (Htext : text = replace "+00:00" "Z" (dumps doc)) by congruence. clear Heq.
  unfold top_level in Hdoc.
  apply bind_ok_inv in Hdoc as (c1 & Hc1 & Hdoc).
  apply bind_ok_inv in Hdoc as (tds & Htds & [= <-]).
  assert (Hperm : o1 ≡ₚ o2) by (unfold set_iteration in *; by rewrite Hit1, Hit2).
  destruct (mapM_perm _ _ _ Hperm c1 Hc1) as (c2 & Hc2 & Hcperm).
  destruct (category_dicts_by_name o1 h h' txs c1 Hit1 Hagg Hc1) as [Hfun _].
  exists tds, (category_json <$> c1), (category_json <$> c2).
  split; [done|]. split; [|by apply fmap_Permutation].
  rewrite Hagg. simpl. unfold top_level. rewrite Hc2. simpl.
  assert (Htds2 : mapM (transaction_dict h' c2) txs = Ok tds).
  { rewrite <- Htds. apply mapM_ext_in. intros t Ht.
    apply mapM_ok_inv in Htds. apply list_elem_of_lookup in Ht as [i Hi].
    destruct (Forall2_lookup_l _ _ _ _ _ Htds Hi) as (j & _ & Hj). cbn beta in Hj.
    unfold transaction_dict in *. destruct (deref h' (Transaction.category t)); [|done].
    simpl in *. apply bind_ok_inv in Hj as (cd & Hcd & Hj).
    by rewrite Hcd, (first_by_name_perm _ c1 c2 cd Hcperm Hfun Hcd). }
  rewrite Htds2. done.
Qed.

End SerializationMore.

Section DocumentMore.
Context {zones : TzDatabase} {floats : FloatRepr}.
Local Open Scope string_scope.

(** X10 (src/convert.py, lines 105-130): in the document, the category object
    of every transaction shows the name of the category of the transaction
    and the earliest timestamp among the transactions of that name, whichever
    of the entries of that name the search by name picks first. *)
Theorem transaction_category_is_earliest
    (order : list loc) (h h' : store) (txs : ledger) (text : string) :
  set_iteration (categories txs) order ->
  utc_ledger txs ->
  to_json order h txs = Ok (h', text) ->
  exists cds tds,
    text = dumps (JObject [("transactions", JArray tds); ("categories", JArray cds)]) /\
    Forall2 (fun t j => exists c m amount,
               h' !! Transaction.category t = Some c /\
               is_earliest h' txs (Category.name c) m /\
               j = transaction_entry (category_entry (Category.name c) m) amount t) txs tds.
Proof.
  intros Hit Hutc Hrun. unfold to_json, repr in Hrun.
  apply bind_ok_inv in Hrun as (h1 & Hagg & Hrun).
  apply bind_ok_inv in Hrun as (doc & Hdoc & Heq).
  assert (Hh : h1 = h') by congruence.
  assert (Htext : text = zulu (dumps doc)) by (unfold zulu; congruence).
  subst h' text. clear Heq.
  unfold top_level in Hdoc.
  apply bind_ok_inv in Hdoc as (cds0 & Hcds & Hdoc).
  apply bind_ok_inv in Hdoc as (tds0 & Htds & [= <-]).
  rewrite zulu_dumps. cbn [json_z List.map fst snd].
  change (zulu "transactions") with "transactions".
  change (zulu "categories") with "categories".
  exists (List.map json_z (category_json <$> cds0)), (List.map json_z tds0).
  split; [done|].
  assert (Hwf : wf_ledger h txs).
  { apply set_default_inv in Hagg as (d & _ & Hres & _).
    eapply Forall_impl; [exact Hres|]. intros t (c' & Hc' & _). eauto. }
  destruct (set_default_spec h txs Hwf Hutc) as (h'' & Hagg' & Hspec).
  assert (h'' = h1) as -> by congruence.
  destruct (category_dicts_by_name order h h1 txs cds0 Hit Hagg Hcds) as [_ Hname].
  apply mapM_ok_inv in Htds.
  apply Forall2_fmap_r.
  apply Forall2_same_length_lookup. split; [by eapply Forall2_length|].
  intros i t j Ht Hj.
  pose proof (Forall2_lookup_lr _ _ _ _ _ _ Htds Ht Hj) as Hdict. cbn beta in Hdict.
  apply list_elem_of_lookup_2 in Ht.
  destruct (Hspec t Ht) as (c & m & Hc & _ & Hm & Hutcm & Hmin).
  unfold transaction_dict, deref in Hdict. rewrite Hc in Hdict.
  cbn [mbind result_bind Py.bind] in Hdict.
  apply bind_ok_inv in Hdict as (cd & Hcd & Hdict).
  apply bind_ok_inv in Hdict as (a & Ha & [= <-]).
  apply first_by_name_inv in Hcd as [Hfst Hin].
  destruct (Hname t c cd Ht Hc Hin Hfst) as (dt & Hdt & ->).
  assert (dt = m) as -> by congruence.
  apply amount_json_text in Ha as (amount & -> & Hamount).
  exists c, m, amount. split_and!; [done | done |].
  unfold transaction_entry, category_entry, category_json. cbn [json_z List.map fst snd].
  change (zulu "category") with "category".
  change (zulu "description") with "description".
  change (zulu "amount") with "amount".
  change (zulu "created_at") with "created_at".
  change (zulu "name") with "name".
  rewrite Hamount, !zulu_isoformat_utc; [done | | done].
  by apply (proj1 (Forall_forall _ _) Hutc).
Qed.

End DocumentMore.

(** ** The characters of the document *)
Section DocumentText.
Context {zones : TzDatabase} {floats : FloatRepr}.
Local Open Scope string_scope.
Local Open Scope Z_scope.

(** A printable ASCII character, or the line feed. *)
Definition text_char (c : ascii) : bool :=
  (code c =? 10) || ((32 <=? code c) && (code c <=? 126)).

Fixpoint plain_numbers (v : json) : bool :=
  match v with
  | JString _ => true
  | JNumber text => all_chars text_char text
  | JArray items => forallb plain_numbers items
  | JObject members => forallb (fun kv => plain_numbers (snd kv)) members
  end.

Lemma replace_scan_chars (P : ascii -> bool) (old new : string) (fuel : nat) :
  all_chars P new = true ->
  forall s, all_chars P s = true -> all_chars P (replace_scan fuel old new s) = true.
Proof.
  intros Hnew. induction fuel as [|fuel IH]; intros s Hs; [done|]. cbn [replace_scan].
  destruct (strip_prefix old s) as [rest|] eqn:Hp.
  - apply strip_prefix_spec in Hp. rewrite Hp, all_chars_app in Hs.
    apply andb_true_iff in Hs as [_ Hrest]. rewrite all_chars_app, Hnew. by apply IH.
  - destruct s as [|c r]; [done|]. cbn [all_chars] in *.
    apply andb_true_iff in Hs as [Hc Hr]. by rewrite Hc, IH.
Qed.

Lemma zulu_chars (P : ascii -> bool) (s : string) :
  P "Z"%char = true -> all_chars P s = true -> all_chars P (zulu s) = true.
Proof.
  intros HZ Hs. unfold zulu, replace. apply replace_scan_chars; [|done].
  cbn [all_chars]. by rewrite HZ.
Qed.

Lemma escape_chars (s : string) : all_chars text_char (escape s) = true.
Proof.
  induction s as [|c s IH]; [done|]. cbn [escape]. rewrite all_chars_app, IH, andb_true_r.
  destruct c as [[] [] [] [] [] [] [] []]; vm_compute; reflexivity.
Qed.

Lemma encode_string_chars (s : string) : all_chars text_char (encode_string s) = true.
Proof.
  unfold encode_string. cbn [all_chars]. rewrite all_chars_app, escape_chars. done.
Qed.

Lemma spaces_chars (k : nat) : all_chars text_char (spaces k) = true.
Proof. induction k as [|k IH]; [done|]. cbn [spaces all_chars]. by rewrite IH. Qed.

Lemma newline_indent_chars (level : nat) :
  all_chars text_char (newline_indent level) = true.
Proof. unfold newline_indent. cbn [all_chars]. by rewrite spaces_chars. Qed.

Lemma join_chars (P : ascii -> bool) (sep : string) (l : list string) :
  all_chars P sep = true -> Forall (fun x => all_chars P x = true) l ->
  all_chars P (join sep l) = true.
Proof.
  intros Hsep. induction 1 as [|x l Hx Hl IH]; [done|].
  destruct l as [|y l]; [done|]. cbn [join] in *. by rewrite !all_chars_app, Hx, Hsep, IH.
Qed.

Lemma dumps_at_chars (v : json) :
  plain_numbers v = true -> forall level, all_chars text_char (dumps_at level v) = true.
Proof.
  induction v as [s | t | items IH | members IH] using json_induction; intros Hv level.
  - apply encode_string_chars.
  - exact Hv.
  - destruct items as [|x items]; [done|]. cbn [dumps_at].
    set (l := x :: items) in *. cbn [plain_numbers] in Hv.
    assert (Hj : all_chars text_char
                   (join ("," ++ newline_indent (S level)) (List.map (dumps_at (S level)) l))
                 = true).
    { apply join_chars.
      - change ("," ++ ?t) with (String "," t). cbn [all_chars].
        by rewrite newline_indent_chars.
      - apply Forall_forall. intros y Hy. apply list_elem_of_In, in_map_iff in Hy.
        destruct Hy as (z & <- & Hz).
        apply (proj1 (Forall_forall _ _) IH z); [by apply list_elem_of_In|].
        by apply (proj1 (forallb_forall _ _) Hv). }
    change ("[" ++ ?t) with (String "[" t). cbn [all_chars].
    rewrite !all_chars_app, !newline_indent_chars, Hj. reflexivity.
  - destruct members as [|x members]; [done|]. cbn [dumps_at].
    set (l := x :: members) in *. cbn [plain_numbers] in Hv.
    assert (Hj : all_chars text_char
                   (join ("," ++ newline_indent (S level))
                      (List.map (fun kv => encode_string (fst kv) ++ ": "
                                           ++ dumps_at (S level) (snd kv)) l))
                 = true).
    { apply join_chars.
      - change ("," ++ ?t) with (String "," t). cbn [all_chars].
        by rewrite newline_indent_chars.
      - apply Forall_forall. intros y Hy. apply list_elem_of_In, in_map_iff in Hy.
        destruct Hy as (z & <- & Hz).
        rewrite !all_chars_app, encode_string_chars.
        change (": " ++ ?t) with (String ":" (String " " t)). cbn [all_chars].
        rewrite (proj1 (Forall_forall _ _) IH z); [reflexivity | by apply list_elem_of_In|].
        by apply (proj1 (forallb_forall _ _) Hv z). }
    change ("{" ++ ?t) with (String "{" t). cbn [all_chars].
    rewrite !all_chars_app, !newline_indent_chars, Hj. reflexivity.
Qed.

Lemma float_chars_text (cs : list float_char) :
  all_chars text_char (string_of_float_chars cs) = true.
Proof.
  induction cs as [|c cs IH]; [done|]. cbn [string_of_float_chars all_chars].
  rewrite IH, andb_true_r. destruct c as [d| | | |]; try done.
  cbn [float_char_ascii]. pose proof (digit_char_is_digit d) as Hd.
  revert Hd. generalize (digit_char (d mod 10)). intros a.
  destruct a as [[] [] [] [] [] [] [] []]; vm_compute; congruence.
Qed.

Lemma amount_json_chars (d : Decimal) (j : json) :
  amount_json d = Ok j -> plain_numbers j = true.
Proof.
  unfold amount_json. destruct d as [s c e | s | s [|] p]; intros [= <-]; cbn [plain_numbers].
  - destruct (float_repr s c e) as [cs|neg]; [apply float_chars_text | by destruct neg].
  - by destruct s.
  - done.
Qed.

(** X11 (src/convert.py, lines 105-130): the text [to_json] returns is made
    of printable ASCII characters and line feeds only, whatever the notes and
    the names of the categories hold. *)
Theorem document_is_ascii (order : list loc) (h h' : store) (txs : ledger) (text : string) :
  to_json order h txs = Ok (h', text) -> all_chars text_char text = true.
Proof.
  unfold to_json, repr. intros Hrun.
  apply bind_ok_inv in Hrun as (h1 & _ & Hrun).
  apply bind_ok_inv in Hrun as (doc & Hdoc & Heq).
  assert (Htext : text = zulu (dumps doc)) by (unfold zulu; congruence).
  subst text. clear Heq. apply zulu_chars; [done|]. apply dumps_at_chars.
  apply top_level_inv in Hdoc as (cds & tds & -> & _ & Htds).
  cbn [plain_numbers forallb snd]. rewrite andb_true_r. apply andb_true_iff. split.
  - apply forallb_forall. intros j Hj. apply list_elem_of_In in Hj.
    apply list_elem_of_lookup in Hj as [i Hi].
    destruct (Forall2_lookup_r _ _ _ _ _ Htds Hi) as (t & _ & Hdict). cbn beta in Hdict.
    unfold transaction_dict in Hdict.
    apply bind_ok_inv in Hdict as (c & _ & Hdict).
    apply bind_ok_inv in Hdict as (cd & _ & Hdict).
    apply bind_ok_inv in Hdict as (a & Ha & [= <-]).
    cbn [plain_numbers forallb snd category_json]. by rewrite (amount_json_chars _ _ Ha).
  - apply forallb_forall. intros j Hj. apply list_elem_of_In in Hj.
    apply list_elem_of_fmap in Hj as (cd & -> & _). done.
Qed.

(** X12 (src/convert.py, lines 164-168 and 125): an amount that [Decimal]
    reads as an infinity or as a NaN is accepted, and [json.dumps] prints it
    as [Infinity], [-Infinity] or [NaN]; the sign before the currency symbol
    turns an infinity around and leaves a NaN as it is. *)
Theorem non_finite_amount_is_printed (field prefix suffix : string) :
  unpack2 (split "$" field) = Ok (prefix, suffix) ->
  (forall s, of_string (replace "," "" suffix) = Ok (Infinity s) ->
     let s' := xorb s (bool_decide (prefix = "-")) in
     parse_amount field = Ok (Infinity s') /\
     amount_json (Infinity s') = Ok (JNumber (if s' then "-Infinity" else "Infinity"))) /\
  (forall s p, of_string (replace "," "" suffix) = Ok (NaN s false p) ->
     exists p', parse_amount field = Ok (NaN s false p') /\
       amount_json (NaN s false p') = Ok (JNumber "NaN")).
Proof.
  intros Hsplit. rewrite parse_amount_unfold, Hsplit. split.
  - intros s Hd. rewrite Hd. cbn [mbind result_bind Py.bind]. split; [|done].
    unfold multiplier. by destruct (bool_decide (prefix = "-")).
  - intros s p Hd. rewrite Hd. cbn [mbind result_bind Py.bind].
    unfold multiplier. destruct (bool_decide (prefix = "-")); eexists; split; reflexivity.
Qed.

End DocumentText.

(** ** More on the row loop *)
Section ParsingMore.
Context {zones : TzDatabase}.
Local Open Scope string_scope.

Lemma index_take (n i : nat) (row : list string) :
  (i < n)%nat -> index (take n row) i = index row i.
Proof. intros Hi. unfold index. by rewrite lookup_take_lt. Qed.

Lemma index_ok_length (row : list string) (i : nat) (x : string) :
  index row i = Ok x -> (i < length row)%nat.
Proof.
  unfold index. destruct (row !! i) eqn:Hi; [|done]. intros _. by eapply lookup_lt_Some.
Qed.


(** X13 (src/convert.py, lines 148-171): a row is read through its first five
    fields. Further fields are ignored, and a row with fewer than five fields
    is never accepted. *)
Theorem row_reads_five_fields (row : list string) :
  parse_fields row = parse_fields (take 5 row) /\
  ((length row < 5)%nat -> is_ok (parse_fields row) = false).
Proof.
  split.
  - unfold parse_fields, parse_datetime. by rewrite !index_take by lia.
  - intros Hlen. destruct (parse_fields row) as [x|] eqn:Hrun; [|done]. exfalso.
    unfold parse_fields in Hrun.
    apply bind_ok_inv in Hrun as (dt & _ & Hrun).
    apply bind_ok_inv in Hrun as (f & _ & Hrun).
    apply bind_ok_inv in Hrun as (a & _ & Hrun).
    apply bind_ok_inv in Hrun as (c & _ & Hrun).
    apply bind_ok_inv in Hrun as (no & Hno & _).
    apply index_ok_length in Hno. lia.
Qed.









Lemma diagnostics_from_elem (rows : list (list string)) :
  forall (j : nat) (d : diagnostic),
    d ∈ diagnostics_from j rows <->
    exists k row, rows !! k = Some row /\ diag_row d = (j + k)%nat /\
      parse_fields row = Raise (diag_reason d).
Proof.
  induction rows as [|row rest IH]; intros j d; cbn [diagnostics_from].
  - split; [by intros ?%elem_of_nil | by intros (k & r & ? & _)].
  - assert (Hrest : d ∈ diagnostics_from (S j) rest <->
              exists k r, (row :: rest) !! S k = Some r /\ diag_row d = (j + S k)%nat /\
                parse_fields r = Raise (diag_reason d)).
    { rewrite IH. by setoid_rewrite Nat.add_succ_r. }
    destruct (parse_fields row) as [x|e] eqn:Hrow.
    + rewrite Hrest. split.
      * intros (k & r & ?). by exists (S k), r.
      * intros ([|k] & r & Hk & Hd & Hr); [|by exists k, r].
        injection Hk as <-. congruence.
    + rewrite elem_of_cons, Hrest. split.
      * intros [-> | (k & r & ?)]; [|by exists (S k), r].
        exists 0%nat, row. cbn. split_and!; [done | lia | done].
      * intros ([|k] & r & Hk & Hd & Hr); [|right; by exists k, r].
        left. injection Hk as <-. destruct d as [e' i']. cbn in *.
        f_equal; [congruence | lia].
Qed.

Lemma diagnostics_from_length (rows : list (list string)) :
  forall j, (length (List.filter valid_row rows) + length (diagnostics_from j rows))%nat
            = length rows.
Proof.
  induction rows as [|row rest IH]; intros j; [done|].
  cbn [List.filter diagnostics_from]. unfold valid_row at 1.
  destruct (parse_fields row); cbn [is_ok length]; rewrite <- (IH (S j)); lia.
Qed.

(** X15 (src/convert.py, lines 141-176): every row after the first is
    accounted for once. The transactions and the lines printed are together as
    many as those rows, and a line is printed exactly for each of them that
    raises, with its index in the file and its exception. *)
Theorem every_data_row_is_accounted_for (rows : list (list string)) :
  let st := parse_expense_log rows in
  (length (ps_ledger st) + length (ps_stdout st))%nat = length (tail rows) /\
  forall d, d ∈ ps_stdout st <->
    exists row, rows !! diag_row d = Some row /\ diag_row d <> 0%nat /\
      parse_fields row = Raise (diag_reason d).
Proof.
  intros st. destruct (parse_expense_log_spec rows) as (_ & Hlen & _ & Hout).
  fold st in Hlen, Hout. rewrite Hlen, Hout. split; [apply diagnostics_from_length|].
  intros d. rewrite diagnostics_from_elem. split.
  - intros (k & row & Hk & Hd & Hrow). exists row. rewrite Hd. split_and!; [|lia|done].
    destruct rows as [|header rest]; [done|]. done.
  - intros (row & Hrow & Hd & Hraise). destruct (diag_row d) as [|k] eqn:Hk; [done|].
    exists k, row. split_and!; [|done..]. by destruct rows.
Qed.

Lemma parse_rows_app (a b : list (list string)) :
  forall (i : nat) (st : parser_state),
    parse_rows i (a ++ b) st = parse_rows (i + length a) b (parse_rows i a st).
Proof.
  induction a as [|row a IH]; intros i st; cbn [parse_rows app length].
  - by rewrite Nat.add_0_r.
  - rewrite IH. f_equal. lia.
Qed.

(** X16 (src/convert.py, lines 141-176): the ledger only grows. Rows added at
    the end of a file leave the transactions, the category objects and the
    lines printed for the rows before them as they were, and are read from the
    state those rows left. *)
Theorem parse_expense_log_app (rows more : list (list string)) :
  rows <> [] ->
  let st := parse_expense_log rows in
  let st' := parse_expense_log (rows ++ more) in
  st' = parse_rows (length rows) more st /\
  ps_ledger st `prefix_of` ps_ledger st' /\
  ps_stdout st `prefix_of` ps_stdout st' /\
  ps_store st ⊆ ps_store st'.
Proof.
  intros Hne st st'.
  assert (Heq : st' = parse_rows (length rows) more st).
  { subst st st'. unfold parse_expense_log. by rewrite parse_rows_app. }
  split; [done|]. rewrite Heq.
  assert (Hpos : length rows <> 0%nat) by (by destruct rows).
  destruct (parse_rows_spec more (length rows) st Hpos)
    as (new & Hled & Hsub & _ & _ & _ & Hout).
  split_and!; [by exists new | by eexists | done].
Qed.

End ParsingMore.

(** ** The dates and times that are accepted *)
Section AcceptedTimes.
Context {zones : TzDatabase}.
Local Open Scope string_scope.
Local Open Scope Z_scope.

(** The characters [int] reads: blanks, digits, the underscore and the signs. *)
Definition int_char (c : ascii) : bool :=
  is_int_space c || is_digit c || Ascii.eqb c "_" || Ascii.eqb c "+" || Ascii.eqb c "-".

Lemma int_body_chars (s : string) : forall acc n b v,
  int_body acc n b s = Some v ->
  all_chars (fun c => is_digit c || Ascii.eqb c "_") s = true.
Proof.
  induction s as [|c s IH]; intros acc n b v; cbn [int_body all_chars]; [done|].
  destruct (is_digit c) eqn:Hd; cbn [orb andb].
  - apply IH.
  - destruct (Ascii.eqb c "_"); [|done]. destruct b; [apply IH | done].
Qed.

Lemma lstrip_by_chars (f P : ascii -> bool) (s : string) :
  all_chars P (lstrip_by f s) = true -> all_chars (fun c => f c || P c) s = true.
Proof.
  induction s as [|c s IH]; [done|]. cbn [lstrip_by all_chars].
  destruct (f c) eqn:Hf; [by intros ?%IH|].
  cbn [all_chars orb]. intros [Hc Hs]%andb_true_iff. rewrite Hc. cbn [andb].
  eapply all_chars_impl; [|exact Hs]. intros x ->. apply orb_true_r.
Qed.

Lemma rstrip_by_empty (f : ascii -> bool) (s : string) :
  rstrip_by f s = "" -> all_chars f s = true.
Proof.
  induction s as [|c s IH]; [done|]. cbn [rstrip_by all_chars].
  destruct (rstrip_by f s) as [|c' r]; [|done].
  destruct (f c); [by rewrite IH | done].
Qed.

Lemma rstrip_by_chars (f P : ascii -> bool) (s : string) :
  all_chars P (rstrip_by f s) = true -> all_chars (fun c => f c || P c) s = true.
Proof.
  induction s as [|c s IH]; [done|]. cbn [rstrip_by all_chars].
  destruct (rstrip_by f s) as [|c' r] eqn:Hr.
  - apply rstrip_by_empty in Hr.
    assert (Hs : all_chars (fun c => f c || P c) s = true).
    { eapply all_chars_impl; [|exact Hr]. by intros x ->. }
    rewrite Hs, andb_true_r. destruct (f c); [done|].
    cbn [all_chars]. by intros [-> _]%andb_true_iff.
  - cbn [all_chars]. intros [Hc Hrest]%andb_true_iff.
    rewrite Hc, orb_true_r. cbn [andb]. apply IH. exact Hrest.
Qed.

Lemma strip_by_chars (f P : ascii -> bool) (s : string) :
  all_chars P (strip_by f s) = true -> all_chars (fun c => f c || P c) s = true.
Proof.
  unfold strip_by. intros H%lstrip_by_chars%rstrip_by_chars.
  eapply all_chars_impl; [|exact H]. intros c. cbn beta. by destruct (f c).
Qed.

Lemma int_ok_chars (s : string) (v : Z) : int s = Ok v -> all_chars int_char s = true.
Proof.
  intros Hrun.
  assert (Hu : forall r w, int_unsigned r = Ok w ->
            all_chars (fun c => is_digit c || Ascii.eqb c "_") r = true).
  { intros r w. unfold int_unsigned.
    destruct (int_body 0 0 false r) as [[x n]|] eqn:Hb; [|done].
    intros _. by eapply int_body_chars. }
  assert (Hbody : all_chars (fun c => is_digit c || Ascii.eqb c "_" || Ascii.eqb c "+"
                                      || Ascii.eqb c "-") (strip_by is_int_space s) = true).
  { unfold int in Hrun. destruct (strip_by is_int_space s) as [|c r]; [done|].
    assert (Hw : forall P : ascii -> bool,
              (forall x, (is_digit x || Ascii.eqb x "_") = true -> P x = true) ->
              all_chars (fun c => is_digit c || Ascii.eqb c "_") r = true ->
              all_chars P r = true).
    { intros P HP. by apply all_chars_impl. }
    destruct (Ascii.ascii_dec c "+") as [->|Hp].
    { cbn [all_chars]. apply andb_true_iff. split; [done|].
      apply Hw; [by intros x -> | by eapply Hu]. }
    destruct (Ascii.ascii_dec c "-") as [->|Hm].
    { apply bind_ok_inv in Hrun as (w & Hrun & _).
      cbn [all_chars]. apply andb_true_iff. split; [done|].
      apply Hw; [by intros x -> | by eapply Hu]. }
    assert (Hrun' : int_unsigned (String c r) = Ok v).
    { destruct c as [[] [] [] [] [] [] [] []]; try done. }
    eapply all_chars_impl; [|by eapply Hu]. by intros x ->. }
  apply strip_by_chars in Hbody. eapply all_chars_impl; [|exact Hbody].
  intros c. unfold int_char. cbn beta.
  destruct (is_int_space c), (is_digit c), (Ascii.eqb c "_"), (Ascii.eqb c "+"),
    (Ascii.eqb c "-"); done.
Qed.

Lemma int_char_no_slash (c : ascii) : int_char c = true -> negb (Ascii.eqb c "/") = true.
Proof. destruct c as [[] [] [] [] [] [] [] []]; vm_compute; congruence. Qed.

Lemma int_char_no_colon (c : ascii) : int_char c = true -> negb (Ascii.eqb c ":") = true.
Proof. destruct c as [[] [] [] [] [] [] [] []]; vm_compute; congruence. Qed.

Lemma int_ok_no_slash (s : string) (v : Z) : int s = Ok v -> count_char "/" s = 0%nat.
Proof.
  intros H%int_ok_chars. apply count_char_zero.
  eapply all_chars_impl; [apply int_char_no_slash | done].
Qed.

Lemma int_ok_no_colon (s : string) (v : Z) : int s = Ok v -> count_char ":" s = 0%nat.
Proof.
  intros H%int_ok_chars. apply count_char_zero.
  eapply all_chars_impl; [apply int_char_no_colon | done].
Qed.

Lemma new_datetime_valid (y m d h mi s : Z) (z : option tzinfo) :
  valid_civil (mkdatetime y m d h mi s 0 z) ->
  new_datetime y m d h mi s z = Ok (mkdatetime y m d h mi s 0 z).
Proof.
  unfold valid_civil, new_datetime, MINYEAR, MAXYEAR. cbn [year month day hour minute second].
  intros (Hy & Hm & Hd & Hh & Hmi & Hs).
  repeat match goal with
         | |- context [negb ((?a <=? ?b) && (?c <=? ?e))] =>
             rewrite (proj2 (Z.leb_le a b)) by lia;
             rewrite (proj2 (Z.leb_le c e)) by lia; cbn [andb negb]
         end.
  done.
Qed.

Lemma ymd2ord_bounds (y m d : Z) :
  2 <= y <= 9998 -> 1 <= m <= 12 -> 1 <= d <= days_in_month y m ->
  366 <= ymd2ord y m d <= 3651695.
Proof.
  intros Hy Hm Hd. unfold ymd2ord, days_before_year, days_before_month.
  assert (Hdim : days_in_month y m <= 31).
  { unfold days_in_month. destruct (_ && _); [lia|].
    assert (m = 1 \/ m = 2 \/ m = 3 \/ m = 4 \/ m = 5 \/ m = 6 \/ m = 7 \/ m = 8 \/ m = 9
            \/ m = 10 \/ m = 11 \/ m = 12) as Hcases by lia.
    repeat destruct Hcases as [-> | Hcases]; try subst m; cbn; lia. }
  assert (Hdbm : 0 <= DAYS_BEFORE_MONTH m + (if (2 <? m) && is_leap y then 1 else 0) <= 335).
  { assert (m = 1 \/ m = 2 \/ m = 3 \/ m = 4 \/ m = 5 \/ m = 6 \/ m = 7 \/ m = 8 \/ m = 9
            \/ m = 10 \/ m = 11 \/ m = 12) as Hcases by lia.
    repeat destruct Hcases as [-> | Hcases]; try subst m;
      cbn [DAYS_BEFORE_MONTH]; destruct (_ && _); lia. }
  Z.div_mod_to_equations. lia.
Qed.

Lemma sub_seconds_in_range (dt : datetime) (secs : Z) (z : option tzinfo) :
  valid_civil dt -> 2 <= year dt <= 9998 -> -86400 <= secs <= 86400 ->
  exists dt', sub_seconds dt secs z = Ok dt'.
Proof.
  intros (Hy & Hm & Hd & Hh & Hmi & Hs) Hyear Hsecs. unfold sub_seconds.
  set (total := civil_seconds dt - secs).
  pose proof (ymd2ord_bounds (year dt) (month dt) (day dt) Hyear Hm Hd) as Hord.
  assert (Hrange : 0 < total / 86400 <= MAXORDINAL).
  { subst total. unfold civil_seconds, toordinal, MAXORDINAL.
    set (o := ymd2ord _ _ _) in *. Z.div_mod_to_equations. lia. }
  rewrite (proj2 (Z.ltb_lt _ _)) by lia. rewrite (proj2 (Z.leb_le _ _)) by lia.
  cbn [andb]. destruct (ord2ymd _) as [[y m] d]. eauto.
Qed.

(** X17 (src/convert.py, lines 148-161): no date of the calendar and no time
    of day is refused. When the five numbers of the two fields are a day of
    the years 2 to 9998 and a minute of the day, the timestamp is built,
    whatever offset below a day the zone gives to that civil time. *)
Theorem valid_civil_time_is_accepted
    (row : list string) (dd mm yy hh mi : string) (D M Y h m : Z) :
  row !! 0%nat = Some (dd ++ "/" ++ mm ++ "/" ++ yy) ->
  row !! 1%nat = Some (hh ++ ":" ++ mi) ->
  int dd = Ok D -> int mm = Ok M -> int yy = Ok Y -> int hh = Ok h -> int mi = Ok m ->
  let local := mkdatetime (2000 + Y) M D h m 0 0 (Some Edmonton) in
  valid_civil local -> 2 <= 2000 + Y <= 9998 ->
  -86400 <= edmonton_utcoffset local <= 86400 ->
  exists dt, parse_datetime row = Ok dt /\ tz dt = Some UTC /\
    civil_seconds dt = civil_seconds local - edmonton_utcoffset local.
Proof.
  intros Hdate Htime HD HM HY Hh Hm local Hvalid Hyear Hoff.
  destruct (sub_seconds_in_range local (edmonton_utcoffset local) (Some UTC))
    as [dt Hdt]; [done | done | done |].
  exists dt. split.
  - unfold parse_datetime, index. rewrite Hdate, Htime.
    cbn [mbind result_bind Py.bind].
    change (dd ++ "/" ++ mm ++ "/" ++ yy) with (dd ++ String "/" (mm ++ String "/" yy)).
    rewrite (split_app_sep "/" dd) by (by eapply int_ok_no_slash).
    rewrite (split_app_sep "/" mm) by (by eapply int_ok_no_slash).
    rewrite (split_no_sep "/" yy) by (by eapply int_ok_no_slash).
    cbn [unpack3 mbind result_bind Py.bind].
    change (hh ++ ":" ++ mi) with (hh ++ String ":" mi).
    rewrite (split_app_sep ":" hh) by (by eapply int_ok_no_colon).
    rewrite (split_no_sep ":" mi) by (by eapply int_ok_no_colon).
    cbn [unpack2 mbind result_bind Py.bind].
    rewrite HY, HM, HD, Hh, Hm. cbn [mbind result_bind Py.bind].
    replace (int "00") with (Ok 0 : result Z) by (vm_compute; reflexivity).
    cbn [mbind result_bind Py.bind].
    rewrite (new_datetime_valid _ _ _ _ _ _ _ Hvalid). cbn [mbind result_bind Py.bind].
    rewrite astimezone_utc_edmonton by done. exact Hdt.
  - apply sub_seconds_ok in Hdt as (_ & Htz & _ & Hsec). done.
Qed.

End AcceptedTimes.

(** ** A sign inside the amount *)
Section InnerSign.
Local Open Scope string_scope.
Local Open Scope Z_scope.

Definition signed_char (c : ascii) : bool :=
  plain_char c || Ascii.eqb c "-" || Ascii.eqb c "+".

Lemma signed_char_not_space c : signed_char c = true -> negb (is_space c) = true.
Proof. destruct c as [[] [] [] [] [] [] [] []]; vm_compute; congruence. Qed.

Lemma signed_char_not_underscore c :
  signed_char c = true -> negb (Ascii.eqb c "_") = true.
Proof. destruct c as [[] [] [] [] [] [] [] []]; vm_compute; congruence. Qed.

(** [Decimal] reads a plain literal with a sign in front. *)
Lemma of_string_signed (neg : bool) (ip : string) (frac : option string) :
  digit_string ip -> all_digits (default "" frac) = true ->
  exact_in_max_context (digits_value (ip ++ default "" frac))
    (- Z.of_nat (String.length (default "" frac))) = true ->
  of_string (String (if neg then "-" else "+")%char (plain_literal ip frac))
  = Ok (Finite neg (digits_value (ip ++ default "" frac))
          (- Z.of_nat (String.length (default "" frac)))).
Proof.
  intros Hip Hfp Hexact. unfold of_string, strip.
  pose proof (plain_literal_chars ip frac (proj2 Hip) Hfp) as Hchars.
  assert (Hall : all_chars signed_char
                   (String (if neg then "-" else "+")%char (plain_literal ip frac)) = true).
  { cbn [all_chars]. apply andb_true_iff. split; [by destruct neg|].
    eapply all_chars_impl; [|exact Hchars]. intros c. unfold signed_char. by intros ->. }
  rewrite strip_by_id
    by (eapply all_chars_impl; [apply signed_char_not_space | done]).
  rewrite remove_char_absent
    by (apply count_char_zero; eapply all_chars_impl;
        [apply signed_char_not_underscore | done]).
  assert (Hsign : parse_sign (String (if neg then "-" else "+")%char (plain_literal ip frac))
                  = (neg, plain_literal ip frac)) by (by destruct neg).
  rewrite Hsign, parse_number_plain by done.
  replace (0 - Z.of_nat (String.length (default "" frac)))
    with (- Z.of_nat (String.length (default "" frac))) by lia.
  by rewrite Hexact.
Qed.

(** X18 (src/convert.py, lines 164-168): a sign written after the currency
    symbol is read by [Decimal], and the sign before the symbol multiplies it:
    [$-5] is minus five, and [-$-5] is five. *)
Theorem amount_literal_sign
    (prefix : string) (neg : bool) (groups : list string) (frac : option string) :
  well_formed_amount prefix groups frac ->
  (digits_value (join "" groups ++ default "" frac) < 10 ^ 28)%N ->
  Z.of_nat (String.length (default "" frac)) <= 1000026 ->
  parse_amount (prefix ++ "$" ++ String (if neg then "-" else "+")%char
                                   (join "," groups ++ frac_text frac))
    = Ok (Finite (xorb neg (bool_decide (prefix = "-")))
            (digits_value (join "" groups ++ default "" frac))
            (- Z.of_nat (String.length (default "" frac)))).
Proof.
  intros (Hsign & Hne & Hgroups & Hfrac) Hprec Hlen.
  set (ip := join "" groups) in *. set (fp := default "" frac) in *.
  assert (Hfp : all_digits fp = true).
  { subst fp. destruct frac as [f|]; [|done]. by destruct (Hfrac f eq_refl). }
  assert (Hip : digit_string ip) by (split; [by apply join_nonempty | by apply join_digits]).
  assert (Hexact : exact_in_max_context (digits_value (ip ++ fp))
                     (- Z.of_nat (String.length fp)) = true).
  { unfold exact_in_max_context, MIN_ETINY, MAX_EMAX.
    pose proof (ndigits_le 28 _ ltac:(lia) Hprec) as Hd.
    apply andb_true_iff. split; [apply Z.leb_le; lia|].
    destruct (_ =? 0)%N; apply Z.leb_le; lia. }
  set (sc := (if neg then "-" else "+")%char).
  set (body := join "," groups ++ frac_text frac).
  assert (Hdollar : count_char "$" (String sc body) = 0%nat).
  { cbn [count_char]. replace (Ascii.eqb sc "$") with false by (by destruct neg).
    subst body. rewrite count_char_app, count_char_join; [| done |].
    - destruct frac as [f|]; [|done]. simpl.
      by apply digits_count_zero; [apply digit_no_dollar|].
    - eapply Forall_impl; [exact Hgroups|]. intros g [_ Hg].
      by apply digits_count_zero; [apply digit_no_dollar|]. }
  assert (Hcommas : remove_char "," (String sc body) = String sc (plain_literal ip frac)).
  { cbn [remove_char]. replace (Ascii.eqb sc ",") with false by (by destruct neg).
    f_equal. subst body. rewrite remove_char_app, remove_comma_join.
    - unfold plain_literal, frac_text. fold ip. destruct frac as [f|]; [|done].
      change ("." ++ f) with (String "." f). cbn [remove_char].
      replace (Ascii.eqb "." ",") with false by done.
      rewrite remove_char_absent; [done|].
      by apply digits_count_zero; [apply digit_no_comma|].
    - eapply Forall_impl; [exact Hgroups|]. intros g [_ Hg].
      by apply digits_count_zero; [apply digit_no_comma|]. }
  unfold parse_amount.
  change ("$" ++ String sc body) with (String "$" (String sc body)).
  rewrite (proj2 (unpack2_split_ok "$" _ prefix (String sc body))) by done.
  cbn [mbind result_bind Py.bind].
  rewrite replace_char_empty, Hcommas. subst sc.
  rewrite (of_string_signed neg ip frac Hip Hfp Hexact).
  cbn [mbind result_bind Py.bind]. fold fp.
  rewrite mul_int_sign_exact by (done || lia). done.
Qed.

End InnerSign.

Import PyCsv.

(** ** The reader of the file *)
Section CsvFacts.
Local Open Scope string_scope.

(** The field being read, first character first. *)
Definition field_of (r : reader) : string := rev_append (rd_field r) "".

(** The counter of the reader is the length of its field. *)
Definition counted (r : reader) : Prop :=
  rd_field_len r = N.of_nat (String.length (rd_field r)).

Lemma rev_append_app (s acc : string) : rev_append s acc = rev_append s "" ++ acc.
Proof.
  revert acc. induction s as [|c s IH]; intros acc; cbn [rev_append]; [done|].
  rewrite (IH (String c acc)), (IH (String c "")). by rewrite sapp_assoc.
Qed.

Lemma process_line_cons (r : reader) (c : ascii) (l : string) :
  process_line r (String c l) = r1 ← parse_process_char r (Some c); process_line r1 l.
Proof.
  unfold process_line. cbn [process_chars].
  by destruct (parse_process_char r (Some c)).
Qed.

Lemma parse_add_char_ok (r : reader) (c : ascii) :
  counted r -> (N.of_nat (String.length (rd_field r)) < field_limit)%N ->
  parse_add_char r c =
    Some {| rd_state := rd_state r; rd_field := String c (rd_field r);
            rd_field_len := rd_field_len r + 1; rd_fields := rd_fields r |}.
Proof.
  intros Hc Hlen. unfold parse_add_char. rewrite Hc.
  by rewrite (proj2 (N.leb_gt _ _)).
Qed.

(** A character of a line that holds no quote. *)
Definition plain_csv_char (c : ascii) : bool :=
  negb (is_newline c) && negb (Ascii.eqb c quotechar).

(** The end of a line, or nothing at the end of the file. *)
Definition line_end (eol : bool) : string := if eol then String LF "" else "".

Definition cleared (fields : list string) : reader :=
  {| rd_state := START_RECORD; rd_field := ""; rd_field_len := 0; rd_fields := fields |}.

Lemma plain_tail (s : string) :
  forall (r : reader) (eol : bool),
    rd_state r = START_FIELD \/ rd_state r = IN_FIELD ->
    counted r ->
    all_chars plain_csv_char s = true ->
    (N.of_nat (String.length (rd_field r) + String.length s) <= field_limit)%N ->
    count_char "," (field_of r) = 0%nat ->
    process_line r (s ++ line_end eol)
    = Some (cleared (rd_fields r ++ split "," (field_of r ++ s))).
Proof.
  induction s as [|c s IH]; intros r eol Hst Hcount Hplain Hlen Hcomma.
  - rewrite sapp_nil_r, split_no_sep by done. cbn [String.append].
    unfold field_of. destruct r as [st f n fs]. cbn [rd_state] in Hst.
    destruct eol, Hst as [-> | ->]; reflexivity.
  - cbn [all_chars] in Hplain. apply andb_true_iff in Hplain as [Hc Hplain].
    unfold plain_csv_char in Hc. apply andb_true_iff in Hc as [Hnl Hq].
    apply negb_true_iff in Hnl, Hq.
    change (String c s ++ line_end eol) with (String c (s ++ line_end eol)).
    rewrite process_line_cons.
    cbn [String.length] in Hlen.
    destruct (Ascii.eqb c delimiter) eqn:Hd.
    + apply Ascii.eqb_eq in Hd as ->.
      assert (Hstep : parse_process_char r (Some delimiter)
                = Some (set_state (parse_save_field r) START_FIELD)).
      { unfold parse_process_char, start_field.
        destruct Hst as [Hst|Hst]; rewrite Hst; [|reflexivity].
        cbn. unfold set_state, parse_save_field. cbn. by rewrite Hst. }
      rewrite Hstep. cbn [mbind option_bind].
      rewrite (IH (set_state (parse_save_field r) START_FIELD) eol);
        [| by left | done | done | cbn; lia | done].
      f_equal. unfold cleared. f_equal. cbn [rd_fields set_state parse_save_field].
      change (field_of (set_state (parse_save_field r) START_FIELD)) with "".
      cbn [String.append]. fold (field_of r).
      change (String delimiter s) with (String "," s).
      rewrite split_app_sep by done. by rewrite <- app_assoc.
    + set (r1 := {| rd_state := IN_FIELD; rd_field := String c (rd_field r);
                    rd_field_len := rd_field_len r + 1; rd_fields := rd_fields r |}).
      assert (Hstep : parse_process_char r (Some c) = Some r1).
      { unfold parse_process_char, start_field.
        destruct Hst as [Hst|Hst]; rewrite Hst; rewrite Hnl, ?Hq, Hd;
          rewrite parse_add_char_ok by (done || lia); cbn [mbind option_bind];
          unfold set_state; cbn; subst r1; by rewrite ?Hst. }
      rewrite Hstep. cbn [mbind option_bind].
      assert (Hfield : field_of r1 = field_of r ++ String c "").
      { unfold field_of, r1. cbn [rd_field rev_append].
        by rewrite (rev_append_app (rd_field r) (String c "")). }
      rewrite (IH r1 eol); [| by right | | done | | ].
      * f_equal. unfold cleared. f_equal. cbn [rd_fields r1]. f_equal.
        rewrite Hfield, sapp_assoc. done.
      * unfold counted, r1. cbn. rewrite Hcount. lia.
      * unfold r1. cbn [rd_field String.length]. lia.
      * rewrite Hfield, count_char_app, Hcomma. cbn [count_char].
        unfold delimiter in Hd. by rewrite Hd.
Qed.

(** The row of a line that holds no quote: nothing for an empty line, and
    else what is between its commas. *)
Definition plain_row (l : string) : list string :=
  match l with
  | "" => []
  | _ => split "," l
  end.

Lemma plain_line_row (l : string) (eol : bool) :
  all_chars plain_csv_char l = true ->
  (N.of_nat (String.length l) <= field_limit)%N ->
  l <> "" \/ eol = true ->
  process_line parse_reset (l ++ line_end eol) = Some (cleared (plain_row l)).
Proof.
  intros Hplain Hlen Hne. destruct l as [|c l].
  - destruct Hne as [?| ->]; [done|]. reflexivity.
  - assert (Hstart : process_line parse_reset (String c l ++ line_end eol)
              = process_line (set_state parse_reset START_FIELD) (String c l ++ line_end eol)).
    { change (String c l ++ line_end eol) with (String c (l ++ line_end eol)).
      rewrite !process_line_cons. f_equal.
      cbn [all_chars] in Hplain. apply andb_true_iff in Hplain as [Hc _].
      unfold plain_csv_char in Hc. apply andb_true_iff in Hc as [Hnl _].
      apply negb_true_iff in Hnl.
      unfold parse_process_char. cbn [rd_state parse_reset set_state]. by rewrite Hnl. }
    rewrite Hstart, plain_tail; [done | by left | done | done | done | done].
Qed.

Definition no_newline (s : string) : Prop :=
  all_chars (fun c => negb (is_newline c)) s = true.

Lemma translate_plain (l rest : string) :
  no_newline l -> translate_newlines (l ++ rest) = l ++ translate_newlines rest.
Proof.
  unfold no_newline. induction l as [|c l IH]; [done|]. cbn [all_chars].
  intros [Hc Hl]%andb_true_iff. apply negb_true_iff in Hc.
  unfold is_newline in Hc. apply orb_false_iff in Hc as [_ Hcr].
  change (String c l ++ rest) with (String c (l ++ rest)).
  cbn [translate_newlines]. rewrite Hcr, IH by done. done.
Qed.

Lemma readlines_line (l rest : string) :
  no_newline l -> readlines (l ++ String LF rest) = (l ++ String LF "") :: readlines rest.
Proof.
  unfold no_newline. induction l as [|c l IH]; [done|]. cbn [all_chars].
  intros [Hc Hl]%andb_true_iff. apply negb_true_iff in Hc.
  unfold is_newline in Hc. apply orb_false_iff in Hc as [Hlf _].
  change (String c l ++ ?t) with (String c (l ++ t)).
  cbn [readlines]. rewrite Hlf, IH by done. done.
Qed.

Lemma readlines_last (l : string) :
  no_newline l -> readlines l = match l with "" => [] | _ => [l] end.
Proof.
  unfold no_newline. induction l as [|c l IH]; [done|]. cbn [all_chars].
  intros [Hc Hl]%andb_true_iff. apply negb_true_iff in Hc.
  unfold is_newline in Hc. apply orb_false_iff in Hc as [Hlf _].
  cbn [readlines]. rewrite Hlf, IH by done. by destruct l.
Qed.

(** The two line endings of text files. *)
Definition line_ending (crlf : bool) : string :=
  if crlf then String CR (String LF "") else String LF "".

Fixpoint unlines (ending : string) (ls : list string) : string :=
  match ls with
  | [] => ""
  | l :: rest => l ++ ending ++ unlines ending rest
  end.

Lemma readlines_unlines (crlf : bool) (ls : list string) (last : string) :
  Forall no_newline ls -> no_newline last ->
  readlines (translate_newlines (unlines (line_ending crlf) ls ++ last))
  = app ((fun l : string => l ++ String LF "") <$> ls)
        match last with "" => [] | _ => [last] end.
Proof.
  intros Hls Hlast. induction Hls as [|l ls Hl Hls IH].
  - cbn [unlines fmap list_fmap app String.append].
    rewrite <- (sapp_nil_r last) at 1. rewrite translate_plain by done.
    cbn [translate_newlines]. rewrite sapp_nil_r. by apply readlines_last.
  - cbn [unlines]. rewrite !sapp_assoc, translate_plain by done.
    assert (Hend : forall t, translate_newlines (line_ending crlf ++ t)
                             = String LF (translate_newlines t)).
    { intros t. by destruct crlf. }
    rewrite Hend, readlines_line, IH by done. done.
Qed.

Lemma read_records_rows (lines : list string) (rows : list (list string)) :
  Forall2 (fun l row => process_line parse_reset l = Some (cleared row)) lines rows ->
  read_records parse_reset lines = (rows, false).
Proof.
  induction 1 as [|l row lines rows Hl _ IH]; [done|].
  cbn [read_records]. rewrite Hl. cbn [cleared rd_state rd_fields].
  rewrite bool_decide_eq_true_2 by done. by rewrite IH.
Qed.

(** A line of the file that holds no quote and fits in a field. *)
Definition plain_line (l : string) : Prop :=
  all_chars plain_csv_char l = true /\ (N.of_nat (String.length l) <= field_limit)%N.

Lemma plain_line_no_newline (l : string) : plain_line l -> no_newline l.
Proof.
  intros [Hl _]. unfold no_newline. eapply all_chars_impl; [|exact Hl].
  intros c. unfold plain_csv_char. by intros [? _]%andb_true_iff.
Qed.

(** X19 (src/convert.py, lines 139-141): the rows of a file without quotes.
    With either line ending, each line gives one row, the fields between its
    commas; an empty line gives a row without fields, and a last line that no
    line ending follows gives a row like the others. The reader does not
    fail. *)
Theorem reader_rows_plain (crlf : bool) (ls : list string) (last : string) :
  Forall plain_line ls -> plain_line last ->
  reader_rows (unlines (line_ending crlf) ls ++ last)
  = (app (plain_row <$> ls) match last with "" => [] | _ => [split "," last] end, false).
Proof.
  intros Hls Hlast. unfold reader_rows.
  rewrite readlines_unlines;
    [| eapply Forall_impl; [exact Hls | apply plain_line_no_newline]
     | by apply plain_line_no_newline].
  apply read_records_rows. apply Forall2_app.
  - apply Forall2_fmap. apply Forall_Forall2_diag.
    eapply Forall_impl; [exact Hls|]. intros l [Hl Hlen]. cbn beta.
    apply (plain_line_row l true); auto.
  - destruct last as [|c last]; [constructor|].
    constructor; [|constructor]. destruct Hlast as [Hl Hlen].
    pose proof (plain_line_row (String c last) false Hl Hlen) as Hrow.
    rewrite sapp_nil_r in Hrow. apply Hrow. by left.
Qed.

End CsvFacts.

Section CsvQuoted.
Local Open Scope string_scope.

(** The reader after the characters [s] went to its field. *)
Fixpoint push (s : string) (r : reader) : reader :=
  match s with
  | "" => r
  | String c s' =>
      push s' {| rd_state := rd_state r; rd_field := String c (rd_field r);
                 rd_field_len := rd_field_len r + 1; rd_fields := rd_fields r |}
  end.

Lemma push_facts (s : string) : forall r,
  counted r ->
  rd_state (push s r) = rd_state r /\ rd_fields (push s r) = rd_fields r /\
  field_of (push s r) = field_of r ++ s /\ counted (push s r) /\
  String.length (rd_field (push s r)) = (String.length (rd_field r) + String.length s)%nat.
Proof.
  induction s as [|c s IH]; intros r Hr; cbn [push].
  - rewrite sapp_nil_r. split_and!; [done..|cbn [String.length]; lia].
  - set (r1 := {| rd_state := rd_state r; rd_field := String c (rd_field r);
                  rd_field_len := rd_field_len r + 1; rd_fields := rd_fields r |}).
    assert (Hr1 : counted r1) by (unfold counted, r1; cbn; rewrite Hr; lia).
    destruct (IH r1 Hr1) as (Hst & Hfs & Hf & Hc & Hlen).
    split_and!; [done | done | | done |].
    + rewrite Hf. unfold field_of, r1. cbn [rd_field rev_append].
      rewrite (rev_append_app (rd_field r) (String c "")), sapp_assoc. done.
    + rewrite Hlen. unfold r1. cbn [rd_field String.length]. lia.
Qed.

Lemma scan_field (keep : ascii -> bool) (s : string) : forall r,
  (forall c, keep c = true -> forall r0, rd_state r0 = rd_state r ->
     parse_process_char r0 (Some c) = parse_add_char r0 c) ->
  counted r -> all_chars keep s = true ->
  (N.of_nat (String.length (rd_field r) + String.length s) <= field_limit)%N ->
  process_chars r s = Some (push s r).
Proof.
  induction s as [|c s IH]; intros r Hstep Hr Hs Hlen; [done|].
  cbn [all_chars] in Hs. apply andb_true_iff in Hs as [Hc Hs].
  cbn [String.length] in Hlen. cbn [process_chars push].
  rewrite (Hstep c Hc r eq_refl). rewrite parse_add_char_ok; [| done | lia].
  cbn [mbind option_bind]. apply IH; [exact Hstep | | done |].
  - unfold counted. cbn. rewrite Hr. lia.
  - cbn [rd_field String.length]. lia.
Qed.

(** The characters of a field written bare, and of a field between quotes. *)
Definition bare_char (c : ascii) : bool :=
  negb (is_newline c) && negb (Ascii.eqb c quotechar) && negb (Ascii.eqb c delimiter).

Definition quoted_char (c : ascii) : bool :=
  negb (is_newline c) && negb (Ascii.eqb c quotechar).

Lemma in_field_scan (s : string) (r : reader) :
  rd_state r = IN_FIELD -> counted r -> all_chars bare_char s = true ->
  (N.of_nat (String.length (rd_field r) + String.length s) <= field_limit)%N ->
  process_chars r s = Some (push s r).
Proof.
  intros Hst. apply scan_field. intros c Hc r0 Hr0. rewrite Hst in Hr0.
  unfold bare_char in Hc. apply andb_true_iff in Hc as [[Hnl Hq]%andb_true_iff Hd].
  apply negb_true_iff in Hnl, Hd. unfold parse_process_char. by rewrite Hr0, Hnl, Hd.
Qed.

Lemma in_quoted_scan (s : string) (r : reader) :
  rd_state r = IN_QUOTED_FIELD -> counted r -> all_chars quoted_char s = true ->
  (N.of_nat (String.length (rd_field r) + String.length s) <= field_limit)%N ->
  process_chars r s = Some (push s r).
Proof.
  intros Hst. apply scan_field. intros c Hc r0 Hr0. rewrite Hst in Hr0.
  unfold quoted_char in Hc. apply andb_true_iff in Hc as [_ Hq].
  apply negb_true_iff in Hq. unfold parse_process_char. by rewrite Hr0, Hq.
Qed.

Lemma process_chars_app (a b : string) : forall r,
  process_chars r (a ++ b) = r1 ← process_chars r a; process_chars r1 b.
Proof.
  induction a as [|c a IH]; intros r; [done|].
  change (String c a ++ b) with (String c (a ++ b)). cbn [process_chars].
  destruct (parse_process_char r (Some c)) as [r1|]; [|done]. cbn [mbind option_bind].
  apply IH.
Qed.

Lemma process_line_app (a b : string) (r : reader) :
  process_line r (a ++ b) = r1 ← process_chars r a; process_line r1 b.
Proof.
  unfold process_line. rewrite process_chars_app.
  by destruct (process_chars r a).
Qed.

(** A field as a line shows it: bare, or between quotes. *)
Definition render_item (it : bool * string) : string :=
  if it.1 then String quotechar (it.2 ++ String quotechar "") else it.2.

Definition item_ok (it : bool * string) : Prop :=
  (N.of_nat (String.length it.2) <= field_limit)%N /\
  all_chars (if it.1 then quoted_char else bare_char) it.2 = true.

Definition render_line (items : list (bool * string)) : string :=
  join "," (render_item <$> items).

(** A reader that has read a whole field and waits for what ends it. *)
Definition field_read (r : reader) : Prop :=
  rd_state r = START_FIELD \/ rd_state r = IN_FIELD \/ rd_state r = QUOTE_IN_QUOTED_FIELD.

Definition at_field (fields : list string) : reader :=
  {| rd_state := START_FIELD; rd_field := ""; rd_field_len := 0; rd_fields := fields |}.

Lemma item_scan (it : bool * string) (fields : list string) :
  item_ok it ->
  exists r2, process_chars (at_field fields) (render_item it) = Some r2 /\
    field_read r2 /\ rd_fields r2 = fields /\ field_of r2 = it.2.
Proof.
  destruct it as [[|] f]; intros [Hlen Hchars]; cbn [fst snd] in *; unfold render_item;
    cbn [fst snd].
  - set (r1 := set_state (at_field fields) IN_QUOTED_FIELD).
    assert (Hr1 : counted r1) by done.
    destruct (push_facts f r1 Hr1) as (Hst & Hfs & Hf & Hc & _).
    exists (set_state (push f r1) QUOTE_IN_QUOTED_FIELD).
    split_and!; [| by right; right | done | done].
    cbn [process_chars]. change (parse_process_char (at_field fields) (Some quotechar))
      with (Some r1). cbn [mbind option_bind].
    rewrite process_chars_app, in_quoted_scan by done. cbn [mbind option_bind process_chars].
    unfold parse_process_char. rewrite Hst. cbn [r1 set_state rd_state].
    by rewrite Ascii.eqb_refl.
  - destruct f as [|c f].
    + exists (at_field fields). split_and!; [done | by left | done | done].
    + cbn [all_chars] in Hchars. apply andb_true_iff in Hchars as [Hc Hchars].
      cbn [String.length] in Hlen.
      set (r1 := {| rd_state := IN_FIELD; rd_field := String c ""; rd_field_len := 0 + 1;
                    rd_fields := fields |}).
      assert (Hr1 : counted r1) by done.
      destruct (push_facts f r1 Hr1) as (Hst & Hfs & Hf & _ & _).
      exists (push f r1). split_and!; [| right; by left | done | done].
      cbn [process_chars].
      assert (Hstep : parse_process_char (at_field fields) (Some c) = Some r1).
      { unfold bare_char in Hc. apply andb_true_iff in Hc as [[Hnl Hq]%andb_true_iff Hd].
        apply negb_true_iff in Hnl, Hq, Hd.
        unfold parse_process_char, start_field. cbn [at_field rd_state].
        by rewrite Hnl, Hq, Hd. }
      rewrite Hstep. cbn [mbind option_bind]. apply in_field_scan; [done | done | done|].
      cbn [r1 rd_field String.length]. lia.
Qed.

Lemma field_closed_by_delimiter (r : reader) :
  field_read r ->
  parse_process_char r (Some delimiter) = Some (at_field (rd_fields r ++ [field_of r])).
Proof.
  destruct r as [st f n fs]. unfold field_read. cbn [rd_state].
  intros [-> | [-> | ->]]; reflexivity.
Qed.

Lemma field_closed_by_line_end (r : reader) (eol : bool) :
  field_read r ->
  process_line r (line_end eol) = Some (cleared (rd_fields r ++ [field_of r])).
Proof.
  destruct r as [st f n fs]. unfold field_read. cbn [rd_state].
  intros [-> | [-> | ->]]; destruct eol; reflexivity.
Qed.

Lemma render_line_one (it : bool * string) : render_line [it] = render_item it.
Proof. done. Qed.

Lemma render_line_cons (it it' : bool * string) (rest : list (bool * string)) :
  render_line (it :: it' :: rest)
  = render_item it ++ String delimiter (render_line (it' :: rest)).
Proof. done. Qed.

Lemma items_tail (items : list (bool * string)) :
  forall (fields : list string) (eol : bool),
    items <> [] -> Forall item_ok items ->
    process_line (at_field fields) (render_line items ++ line_end eol)
    = Some (cleared (fields ++ items.*2)).
Proof.
  induction items as [|it rest IH]; intros fields eol Hne Hok; [done|].
  apply Forall_cons in Hok as [Hit Hrest].
  destruct (item_scan it fields Hit) as (r2 & Hscan & Hread & Hfs & Hf).
  destruct rest as [|it' rest].
  - rewrite render_line_one, process_line_app, Hscan. cbn [mbind option_bind].
    rewrite field_closed_by_line_end by done. by rewrite Hfs, Hf.
  - rewrite render_line_cons, sapp_assoc, process_line_app, Hscan. cbn [mbind option_bind].
    change (String delimiter (render_line (it' :: rest)) ++ line_end eol)
      with (String delimiter (render_line (it' :: rest) ++ line_end eol)).
    rewrite process_line_cons, field_closed_by_delimiter by done.
    cbn [mbind option_bind]. rewrite IH by done.
    rewrite Hfs, Hf. rewrite (fmap_cons snd it). by rewrite <- app_assoc.
Qed.

Lemma start_record_line (c : ascii) (l : string) :
  is_newline c = false ->
  process_line parse_reset (String c l) = process_line (at_field []) (String c l).
Proof.
  intros Hnl. rewrite !process_line_cons. f_equal.
  unfold parse_process_char. cbn [rd_state parse_reset at_field]. by rewrite Hnl.
Qed.

Lemma render_item_chars (it : bool * string) :
  item_ok it -> all_chars (fun c => negb (is_newline c)) (render_item it) = true.
Proof.
  destruct it as [[|] f]; intros [_ Hchars]; cbn [fst snd] in *; unfold render_item;
    cbn [fst snd].
  - cbn [all_chars]. rewrite all_chars_app. cbn [all_chars].
    replace (negb (is_newline quotechar)) with true by done.
    rewrite andb_true_r. cbn [andb].
    eapply all_chars_impl; [|exact Hchars]. intros c. unfold quoted_char.
    by intros [? _]%andb_true_iff.
  - eapply all_chars_impl; [|exact Hchars]. intros c. unfold bare_char.
    by intros [[? _]%andb_true_iff _]%andb_true_iff.
Qed.

Lemma render_line_chars (items : list (bool * string)) :
  Forall item_ok items -> no_newline (render_line items).
Proof.
  unfold no_newline. induction 1 as [|it rest Hit Hrest IH]; [done|].
  destruct rest as [|it' rest]; [by apply render_item_chars|].
  rewrite render_line_cons, all_chars_app, render_item_chars by done.
  cbn [all_chars andb].
  replace (negb (is_newline delimiter)) with true by done. exact IH.
Qed.

(** The fields of a record, bare or between quotes, none of them with a
    quote or a line break inside, and the line is not empty. *)
Definition record_ok (items : list (bool * string)) : Prop :=
  Forall item_ok items /\ render_line items <> "".

Lemma record_row (items : list (bool * string)) :
  record_ok items ->
  process_line parse_reset (render_line items ++ String LF "") = Some (cleared items.*2).
Proof.
  intros [Hitems Hne].
  assert (Hitems' : items <> []) by (intros ->; by apply Hne).
  pose proof (render_line_chars items Hitems) as Hnl. unfold no_newline in Hnl.
  pose proof (items_tail items [] true Hitems' Hitems) as Hrow.
  cbn [line_end app] in Hrow.
  destruct (render_line items) as [|c l] eqn:Hl; [done|].
  cbn [all_chars] in Hnl. apply andb_true_iff in Hnl as [Hc _]. apply negb_true_iff in Hc.
  change (String c l ++ String LF "") with (String c (l ++ String LF "")) in *.
  rewrite start_record_line by done. exact Hrow.
Qed.

(** X20 (src/convert.py, lines 139-141): quoted fields. In a file whose
    lines are fields separated by commas, a field between quotes reaches the
    program without its quotes and with the commas it holds, so an amount
    written with a thousands separator is one field when it is quoted. *)
Theorem reader_rows_quoted (crlf : bool) (records : list (list (bool * string))) :
  Forall record_ok records ->
  reader_rows (unlines (line_ending crlf) (render_line <$> records))
  = ((fun items => items.*2) <$> records, false).
Proof.
  intros Hok. unfold reader_rows.
  rewrite <- (sapp_nil_r (unlines _ _)).
  rewrite readlines_unlines; [| | done].
  - rewrite app_nil_r. apply read_records_rows.
    rewrite <- list_fmap_compose. apply Forall2_fmap. apply Forall_Forall2_diag.
    eapply Forall_impl; [exact Hok|]. intros items Hitems. by apply record_row.
  - apply Forall_fmap. eapply Forall_impl; [exact Hok|].
    intros items [Hitems _]. by apply render_line_chars.
Qed.

End CsvQuoted.

(** ** The run of the program *)
Section Run.
Context {zones : TzDatabase} {floats : FloatRepr}.
Local Open Scope string_scope.



End Run.

Section EmptyRun.
Context {zones : TzDatabase} {floats : FloatRepr}.
Local Open Scope string_scope.

(** The text of [json.dumps(top_level, indent=2)] when both lists are empty. *)
Definition empty_document : string :=
  "{" ++ String newline ("  " ++ encode_string "transactions" ++ ": [],")
      ++ String newline ("  " ++ encode_string "categories" ++ ": []")
      ++ String newline "}".

Lemma to_json_empty (h : store) : to_json [] h [] = Ok (h, empty_document).
Proof. reflexivity. Qed.

(** X3 (src/convert.py, lines 105-130, 136-178 and 187-191): a file without
    a valid row after the first, such as an empty file or a header alone,
    still gives the output file: the key [transactions] then the key
    [categories], both with an empty array, and one line printed for every
    row after the first. *)
Theorem main_without_valid_rows (text : string) (rows : list (list string)) :
  reader_rows text = (rows, false) ->
  Forall (fun row => valid_row row = false) (tail rows) ->
  main [] (Some text)
    = {| run_stdout := ps_stdout (parse_expense_log rows);
         run_output := Written empty_document; run_error := None |} /\
  length (ps_stdout (parse_expense_log rows)) = length (tail rows).
Proof.
  intros Hrows Hbad.
  destruct (parse_expense_log_spec rows) as (_ & Hlen & _ & Hout).
  assert (Hnone : List.filter valid_row (tail rows) = []).
  { clear Hlen Hout. induction Hbad as [|row rest Hrow _ IH]; [done|].
    cbn [List.filter]. by rewrite Hrow. }
  rewrite Hnone in Hlen. apply nil_length_inv in Hlen. split.
  - unfold main, parse_expense_log_file. rewrite Hrows, Hlen. by rewrite to_json_empty.
  - rewrite Hout. pose proof (diagnostics_from_length (tail rows) 1) as Hcount.
    rewrite Hnone in Hcount. exact Hcount.
Qed.

End EmptyRun.

(** * Concrete runs *)

(** A zone that is seven hours behind UTC all year, to run the examples. *)
Definition mst_zone : TzDatabase := fun _ => -25200.

Fixpoint float_digits_fuel (fuel : nat) (n : N) (acc : list float_char) : list float_char :=
  match fuel with
  | O => acc
  | S fuel' =>
      let acc' := FDigit (n mod 10) :: acc in
      if (n <? 10)%N then acc' else float_digits_fuel fuel' (n / 10)%N acc'
  end.

Definition float_digits (n : N) : list float_char :=
  float_digits_fuel (S (N.to_nat (N.size n))) n [].

(** A stand-in for the text of a float, to run the examples: the coefficient
    and the exponent as they are, in scientific notation. *)
Definition scientific_repr : FloatRepr := fun s c e =>
  FloatFinite ((if s then [FMinus] else []) ++ float_digits c ++ [FExp]
               ++ (if e <? 0 then [FMinus] else [FPlus]) ++ float_digits (Z.abs_N e)).

(** Two purchases of food, the later one first in the ledger, each with a
    category object of its own. *)
Definition first_of_january : datetime := mkdatetime 2024 1 1 1 5 0 0 (Some UTC).
Definition mid_january : datetime := mkdatetime 2024 1 15 21 30 0 0 (Some UTC).

Definition food_store : store :=
  <[0%nat := Category.mk "Food" None]> {[ 1%nat := Category.mk "Food" None ]}.

Definition food_ledger : ledger :=
  [Transaction.mk mid_january (Finite true 123456 (-2)) 0%nat "lunch";
   Transaction.mk first_of_january (Finite false 5 0) 1%nat "coffee"].

Definition lunch_row : list string :=
  ["15/01/24"; "14:30"; "-$1,234.56"; "Food"; "lunch"]%string.

Lemma food_ledger_wf : wf_ledger food_store food_ledger.
Proof. repeat constructor; by eexists. Defined.

Lemma food_ledger_utc : utc_ledger food_ledger.
Proof. by repeat constructor. Defined.

Lemma aggregation_assigns_earliest_witness :
  exists h',
    set_default_category_created_ats (zones := mst_zone) food_store food_ledger = Ok h' /\
    Category.created_at <$> h' !! 0%nat = Some (Some first_of_january) /\
    Category.created_at <$> h' !! 1%nat = Some (Some first_of_january).
Proof.
  destruct (aggregation_assigns_earliest (zones := mst_zone) food_store food_ledger
              food_ledger_wf food_ledger_utc) as (h' & Hrun & _ & Hpair).
  exists h'. split; [exact Hrun|].
  destruct (Hpair (Transaction.mk first_of_january (Finite false 5 0) 1%nat "coffee")
                  (Transaction.mk mid_january (Finite true 123456 (-2)) 0%nat "lunch"))
    as [H1 H0]; [by right | reflexivity | reflexivity |].
  split; [exact H0 | exact H1].
Defined.

Lemma aggregation_idempotent_witness :
  exists h1,
    set_default_category_created_ats (zones := mst_zone) food_store food_ledger = Ok h1 /\
    set_default_category_created_ats (zones := mst_zone) h1 food_ledger = Ok h1.
Proof.
  eexists. split; [vm_compute; reflexivity|].
  apply (aggregation_idempotent (zones := mst_zone) food_store).
  vm_compute. reflexivity.
Defined.

Lemma amount_exact_within_precision_witness :
  parse_amount "-$1,234.56" = Ok (Finite true 123456 (-2)) /\
  amount_exact_on "-" ["1"; "234"]%string (Some "56"%string).
Proof.
  apply (amount_exact_within_precision "-" ["1"; "234"]%string (Some "56"%string)).
  - unfold well_formed_amount. split; [reflexivity|]. split; [discriminate|].
    split; [|intros fp [= <-]; split; [discriminate | reflexivity]].
    repeat constructor; discriminate.
  - vm_compute. reflexivity.
  - vm_compute. discriminate.
Defined.

Lemma amount_prefix_is_sign_witness :
  exists a, parse_amount "+$7.5" = Ok a /\ mul_int (Finite false 75 (-1)) 1 = Ok a.
Proof.
  destruct (proj1 amount_prefix_is_sign "+$7.5"%string "+"%string "7.5"%string
              (Finite false 75 (-1)) eq_refl eq_refl I)
    as (a & Hrun & Hpos & _).
  - vm_compute. reflexivity.
  - exists a. split; [exact Hrun | apply Hpos; discriminate].
Defined.

Lemma timestamp_is_local_time_in_utc_witness :
  parse_fields (zones := mst_zone) lunch_row
    = Ok (mid_january, Finite true 123456 (-2), "Food"%string, "lunch"%string) /\
  exists dd mm yy hh mi (D M Y h m : Z),
    lunch_row !! 0%nat = Some (dd ++ "/" ++ mm ++ "/" ++ yy)%string /\
    lunch_row !! 1%nat = Some (hh ++ ":" ++ mi)%string /\
    int dd = Ok D /\ int mm = Ok M /\ int yy = Ok Y /\ int hh = Ok h /\ int mi = Ok m /\
    civil_seconds mid_january
      = civil_seconds (mkdatetime (2000 + Y) M D h m 0 0 (Some Edmonton)) - (-25200).
Proof.
  split; [vm_compute; reflexivity|].
  destruct (timestamp_is_local_time_in_utc (zones := mst_zone) lunch_row mid_january
              (Finite true 123456 (-2)) "Food"%string "lunch"%string)
    as (dd & mm & yy & hh & mi & D & M & Y & h & m & H0 & H1 & HD & HM & HY & Hh & Hm & Hrest).
  - vm_compute. reflexivity.
  - exists dd, mm, yy, hh, mi, D, M, Y, h, m.
    destruct Hrest as (_ & _ & _ & _ & Hsec & _).
    repeat (split; [assumption|]). exact Hsec.
Defined.

Lemma food_iteration :
  set_iteration (categories food_ledger) (elements (categories food_ledger)).
Proof. unfold set_iteration. reflexivity. Defined.

Lemma repr_assertion_never_fails_witness :
  repr (zones := mst_zone) (floats := scientific_repr)
    (elements (categories food_ledger)) food_store food_ledger <> Raise AssertionError /\
  exists h' text,
    repr (zones := mst_zone) (floats := scientific_repr)
      (elements (categories food_ledger)) food_store food_ledger = Ok (h', text).
Proof.
  destruct (repr_assertion_never_fails (zones := mst_zone) (floats := scientific_repr)
              (elements (categories food_ledger)) food_store food_ledger food_iteration)
    as (Hno & _ & _ & Hok).
  split; [exact Hno|].
  apply Hok; [exact food_ledger_wf | exact food_ledger_utc | repeat constructor].
Defined.

Lemma created_at_rendered_with_Z_witness :
  exists h' text cds tds,
    to_json (zones := mst_zone) (floats := scientific_repr)
      (elements (categories food_ledger)) food_store food_ledger = Ok (h', text) /\
    text = dumps (JObject [("transactions", JArray tds); ("categories", JArray cds)]) /\
    Forall (fun j => exists n dt,
              j = JObject [("name", JString n);
                           ("created_at", JString (civil_isoformat dt ++ "Z"))]) cds.
Proof.
  destruct (repr_ok (zones := mst_zone) (floats := scientific_repr)
              (elements (categories food_ledger)) food_store food_ledger food_iteration
              food_ledger_wf food_ledger_utc)
    as (h' & text & Hrun); [repeat constructor|].
  destruct (created_at_rendered_with_Z (zones := mst_zone) (floats := scientific_repr)
              (elements (categories food_ledger)) food_store h' food_ledger text
              food_iteration food_ledger_utc Hrun)
    as (cds & tds & Htext & Hcds & _).
  exists h', text, cds, tds. split; [exact Hrun|]. split; [exact Htext | exact Hcds].
Defined.

(** A file of a header and two purchases of food. *)
Definition food_rows : list (list string) :=
  [["Date"; "Time"; "Amount"; "Category"; "Notes"];
   lunch_row;
   ["01/01/24"; "18:05"; "$5"; "Food"; "coffee"]]%string.

Lemma food_rows_iteration :
  set_iteration (categories (ps_ledger (parse_expense_log (zones := mst_zone) food_rows)))
    [0%nat; 1%nat].
Proof. unfold set_iteration. vm_compute. apply perm_swap. Defined.

Lemma parse_then_serialize_witness :
  exists h' text cds tds,
    to_json (zones := mst_zone) (floats := scientific_repr) [0%nat; 1%nat]
      (ps_store (parse_expense_log (zones := mst_zone) food_rows))
      (ps_ledger (parse_expense_log (zones := mst_zone) food_rows)) = Ok (h', text) /\
    text = dumps (JObject [("transactions", JArray tds); ("categories", JArray cds)]) /\
    length cds = 2%nat /\ length tds = 2%nat.
Proof.
  destruct (parse_then_serialize (zones := mst_zone) (floats := scientific_repr)
              food_rows [0%nat; 1%nat] food_rows_iteration)
    as (h' & text & cds & tds & Hrun & Htext & Hcds & Htds).
  exists h', text, cds, tds. split; [exact Hrun|]. split; [exact Htext|].
  split.
  - symmetry. exact (Forall2_length _ _ _ Hcds).
  - symmetry. rewrite <- (Forall2_length _ _ _ Htds). vm_compute. reflexivity.
Defined.

(** A store where the first category was built with a timestamp of its own. *)
Definition preset_store : store :=
  <[0%nat := Category.mk "Food" (Some mid_january)]> {[ 1%nat := Category.mk "Food" None ]}.

Lemma aggregation_frame_witness :
  exists h',
    set_default_category_created_ats (zones := mst_zone) food_store food_ledger = Ok h' /\
    dom h' = dom food_store /\
    (forall l, l ∉ categories food_ledger -> h' !! l = food_store !! l).
Proof.
  destruct (set_default_category_created_ats (zones := mst_zone) food_store food_ledger)
    as [h'|e] eqn:Hrun.
  - exists h'. split; [reflexivity|].
    destruct (aggregation_frame (zones := mst_zone) food_store h' food_ledger Hrun)
      as (Hdom & _ & Hframe).
    split; [exact Hdom | exact Hframe].
  - vm_compute in Hrun. discriminate.
Defined.

Lemma preset_store_names (l : loc) :
  Category.name <$> food_store !! l = Category.name <$> preset_store !! l.
Proof.
  unfold food_store, preset_store.
  destruct (decide (l = 0%nat)) as [->|H0]; [by rewrite !lookup_insert_eq|].
  rewrite !lookup_insert_ne by done. reflexivity.
Defined.

Lemma aggregation_discards_previous_created_at_witness :
  exists h1' h2',
    set_default_category_created_ats (zones := mst_zone) food_store food_ledger = Ok h1' /\
    set_default_category_created_ats (zones := mst_zone) preset_store food_ledger = Ok h2' /\
    h2' !! 0%nat = h1' !! 0%nat.
Proof.
  destruct (set_default_category_created_ats (zones := mst_zone) food_store food_ledger)
    as [h1'|e] eqn:Hrun.
  - destruct (aggregation_discards_previous_created_at (zones := mst_zone)
                food_store preset_store h1' food_ledger preset_store_names Hrun)
      as (h2' & Hrun2 & Hsame).
    exists h1', h2'. split; [reflexivity|]. split; [exact Hrun2|].
    apply Hsame. vm_compute. reflexivity.
  - vm_compute in Hrun. discriminate.
Defined.

(** The purchases of [food_ledger], the first with a timestamp without zone. *)
Definition mixed_ledger : ledger :=
  [Transaction.mk (mkdatetime 2024 1 15 21 30 0 0 None) (Finite true 123456 (-2)) 0%nat "lunch";
   Transaction.mk first_of_january (Finite false 5 0) 1%nat "coffee"].

Lemma mixed_ledger_wf : wf_ledger food_store mixed_ledger.
Proof. repeat constructor; by eexists. Defined.

Lemma aggregation_fails_on_mixed_awareness_witness :
  set_default_category_created_ats (zones := mst_zone) food_store mixed_ledger
    = Raise TypeError.
Proof.
  apply (proj2 (aggregation_fails_on_mixed_awareness (zones := mst_zone)
                  food_store mixed_ledger mixed_ledger_wf)).
  exists (Transaction.mk (mkdatetime 2024 1 15 21 30 0 0 None) (Finite true 123456 (-2))
            0%nat "lunch"),
         (Transaction.mk first_of_january (Finite false 5 0) 1%nat "coffee").
  split; [by left|]. split; [right; by left|]. split; [reflexivity|].
  split; [reflexivity | discriminate].
Defined.

Lemma aggregation_order_independent_witness :
  set_default_category_created_ats (zones := mst_zone) food_store
    [Transaction.mk first_of_january (Finite false 5 0) 1%nat "coffee";
     Transaction.mk mid_january (Finite true 123456 (-2)) 0%nat "lunch"]
  = set_default_category_created_ats (zones := mst_zone) food_store food_ledger.
Proof.
  apply (aggregation_order_independent (zones := mst_zone) food_store food_ledger);
    [exact food_ledger_wf | exact food_ledger_utc | apply perm_swap].
Defined.

Lemma food_ledger_amounts :
  Forall (fun t => not_signaling (Transaction.amount t)) food_ledger.
Proof. repeat constructor. Defined.

Lemma to_json_twice_witness :
  exists h' text,
    to_json (zones := mst_zone) (floats := scientific_repr)
      (elements (categories food_ledger)) food_store food_ledger = Ok (h', text) /\
    to_json (zones := mst_zone) (floats := scientific_repr)
      (elements (categories food_ledger)) h' food_ledger = Ok (h', text).
Proof.
  destruct (repr_ok (zones := mst_zone) (floats := scientific_repr)
              (elements (categories food_ledger)) food_store food_ledger food_iteration
              food_ledger_wf food_ledger_utc food_ledger_amounts)
    as (h' & text & Hrun).
  exists h', text. split; [exact Hrun|].
  exact (to_json_twice (zones := mst_zone) (floats := scientific_repr) _ _ _ _ _ Hrun).
Defined.

Lemma food_iteration_swapped : set_iteration (categories food_ledger) [0%nat; 1%nat].
Proof. unfold set_iteration. vm_compute. apply perm_swap. Defined.

Lemma food_iteration_stored : set_iteration (categories food_ledger) [1%nat; 0%nat].
Proof. unfold set_iteration. vm_compute. reflexivity. Defined.

Lemma iteration_order_permutes_categories_witness :
  exists h' tds cds1 cds2,
    to_json (zones := mst_zone) (floats := scientific_repr) [0%nat; 1%nat]
      food_store food_ledger
      = Ok (h', replace "+00:00" "Z"
                  (dumps (JObject [("transactions", JArray tds);
                                   ("categories", JArray cds1)]))) /\
    to_json (zones := mst_zone) (floats := scientific_repr) [1%nat; 0%nat]
      food_store food_ledger
      = Ok (h', replace "+00:00" "Z"
                  (dumps (JObject [("transactions", JArray tds);
                                   ("categories", JArray cds2)]))) /\
    cds1 ≡ₚ cds2.
Proof.
  destruct (repr_ok (zones := mst_zone) (floats := scientific_repr)
              [0%nat; 1%nat] food_store food_ledger food_iteration_swapped
              food_ledger_wf food_ledger_utc food_ledger_amounts)
    as (h' & text & Hrun).
  destruct (iteration_order_permutes_categories (zones := mst_zone)
              (floats := scientific_repr) [0%nat; 1%nat] [1%nat; 0%nat]
              food_store h' food_ledger text
              food_iteration_swapped food_iteration_stored Hrun)
    as (tds & cds1 & cds2 & Htext & Hrun2 & Hperm).
  exists h', tds, cds1, cds2. split; [by rewrite <- Htext|]. split; [exact Hrun2 | exact Hperm].
Defined.

Lemma transaction_category_is_earliest_witness :
  exists h' text cds tds,
    to_json (zones := mst_zone) (floats := scientific_repr)
      (elements (categories food_ledger)) food_store food_ledger = Ok (h', text) /\
    text = dumps (JObject [("transactions", JArray tds); ("categories", JArray cds)]) /\
    length tds = 2%nat.
Proof.
  destruct (repr_ok (zones := mst_zone) (floats := scientific_repr)
              (elements (categories food_ledger)) food_store food_ledger food_iteration
              food_ledger_wf food_ledger_utc food_ledger_amounts)
    as (h' & text & Hrun).
  destruct (transaction_category_is_earliest (zones := mst_zone) (floats := scientific_repr)
              (elements (categories food_ledger)) food_store h' food_ledger text
              food_iteration food_ledger_utc Hrun)
    as (cds & tds & Htext & Htds).
  exists h', text, cds, tds. split; [exact Hrun|]. split; [exact Htext|].
  symmetry. exact (Forall2_length _ _ _ Htds).
Defined.

Lemma document_is_ascii_witness :
  exists h' text,
    to_json (zones := mst_zone) (floats := scientific_repr)
      (elements (categories food_ledger)) food_store food_ledger = Ok (h', text) /\
    all_chars text_char text = true.
Proof.
  destruct (repr_ok (zones := mst_zone) (floats := scientific_repr)
              (elements (categories food_ledger)) food_store food_ledger food_iteration
              food_ledger_wf food_ledger_utc food_ledger_amounts)
    as (h' & text & Hrun).
  exists h', text. split; [exact Hrun|].
  exact (document_is_ascii (zones := mst_zone) (floats := scientific_repr) _ _ _ _ _ Hrun).
Defined.

Lemma non_finite_amount_is_printed_witness :
  parse_amount "-$Infinity" = Ok (Infinity true) /\
  amount_json (floats := scientific_repr) (Infinity true) = Ok (JNumber "-Infinity").
Proof.
  apply (proj1 (non_finite_amount_is_printed (floats := scientific_repr)
                  "-$Infinity" "-" "Infinity" eq_refl) false).
  vm_compute. reflexivity.
Defined.


Definition coffee_row : list string :=
  ["01/01/24"; "18:05"; "$5"; "Food"; "coffee"]%string.

Lemma parse_expense_log_app_witness :
  let st := parse_expense_log (zones := mst_zone) food_rows in
  let st' := parse_expense_log (zones := mst_zone) (food_rows ++ [coffee_row; []]) in
  st' = parse_rows (zones := mst_zone) (length food_rows) [coffee_row; []] st /\
  ps_ledger st `prefix_of` ps_ledger st' /\
  ps_stdout st `prefix_of` ps_stdout st' /\
  ps_store st ⊆ ps_store st'.
Proof.
  apply (parse_expense_log_app (zones := mst_zone) food_rows [coffee_row; []]).
  discriminate.
Defined.

Lemma valid_civil_time_is_accepted_witness :
  exists dt,
    parse_datetime (zones := mst_zone) ["15/01/2024"; "14:30"]%string = Ok dt /\
    tz dt = Some UTC /\
    civil_seconds dt
      = civil_seconds (mkdatetime 4024 1 15 14 30 0 0 (Some Edmonton)) - (-25200).
Proof.
  apply (valid_civil_time_is_accepted (zones := mst_zone) ["15/01/2024"; "14:30"]%string
           "15" "01" "2024" "14" "30" 15 1 2024 14 30);
    try reflexivity.
  - unfold valid_civil. cbn. lia.
  - lia.
  - unfold edmonton_utcoffset, mst_zone. lia.
Defined.

Lemma amount_literal_sign_witness :
  parse_amount "-$-5" = Ok (Finite false 5 0).
Proof.
  apply (amount_literal_sign "-" true ["5"%string] None).
  - unfold well_formed_amount. split; [reflexivity|]. split; [discriminate|].
    split; [|discriminate]. repeat constructor; discriminate.
  - vm_compute. reflexivity.
  - vm_compute. discriminate.
Defined.

(** The lines of a file: a header, a purchase whose amount has a thousands
    separator and no quotes, an empty line, and a purchase that no line ending
    follows. *)
Definition header_line : string := "Date,Time,Amount,Category,Notes".
Definition lunch_line : string := "15/01/24,14:30,-$1,234.56,Food,lunch".
Definition coffee_line : string := "01/01/24,18:05,$5,Food,coffee".

Lemma reader_rows_plain_witness :
  reader_rows (unlines (line_ending true) [header_line; lunch_line; ""%string] ++ coffee_line)
  = ([["Date"; "Time"; "Amount"; "Category"; "Notes"];
      ["15/01/24"; "14:30"; "-$1"; "234.56"; "Food"; "lunch"];
      [];
      coffee_row]%string, false).
Proof.
  apply (reader_rows_plain true [header_line; lunch_line; ""%string] coffee_line).
  - repeat constructor; vm_compute; discriminate.
  - split; [reflexivity | vm_compute; discriminate].
Defined.

Lemma reader_rows_quoted_witness :
  reader_rows (unlines (line_ending false)
                 [render_line [(false, "15/01/24"); (false, "14:30"); (true, "-$1,234.56");
                               (false, "Food"); (false, "lunch")]%string])
  = ([lunch_row], false).
Proof.
  apply (reader_rows_quoted false
           [[(false, "15/01/24"); (false, "14:30"); (true, "-$1,234.56");
             (false, "Food"); (false, "lunch")]%string]).
  repeat constructor; try (vm_compute; discriminate); try reflexivity.
Defined.

(** A file of a header and a line that is no purchase. *)
Definition unreadable_file : string :=
  header_line ++ String LF ("no purchase here" ++ String LF "").

Lemma main_without_valid_rows_witness :
  main (zones := mst_zone) (floats := scientific_repr) [] (Some unreadable_file)
  = {| run_stdout := [{| diag_reason := ValueError; diag_row := 1 |}];
       run_output := Written empty_document; run_error := None |}.
Proof.
  apply (main_without_valid_rows (zones := mst_zone) (floats := scientific_repr)
           unreadable_file
           [["Date"; "Time"; "Amount"; "Category"; "Notes"]; ["no purchase here"]]%string).
  - vm_compute. reflexivity.
  - repeat constructor.
Defined.
